(** * Appointment scheduling and lifecycle of the telehealth API

    A shallow embedding of [AppointmentsService] (create, confirm, decline,
    cancel, complete, addReview) and of [TherapistsService.getAvailableSlots],
    together with the properties of the scheduling state machine, the refund
    tiers, the conflict check and the review aggregation.

    Conventions of the embedding:
    - a [Date] is its [getTime()] value, an integer number of milliseconds
      since the epoch ([Z]);
    - JavaScript numbers that hold quotients (hours until the appointment,
      the average rating) are exact rationals ([Q]);
    - a Prisma table is a finite map from the primary key to the row (the
      availability and blocked-slot tables, read only through their
      therapist, are lists of rows);
    - an [async] method is a function from the store to a result and a new
      store; a thrown exception is the left injection of the result. *)

From Stdlib Require Import ZArith QArith Qround Ascii String Lia.
From stdpp Require Import gmap strings list fin_maps sorting.

Local Open Scope string_scope.
Local Open Scope Z_scope.

(** ** Data model *)

Inductive AppointmentStatus :=
  PENDING | CONFIRMED | COMPLETED | CANCELLED | NO_SHOW.

Inductive AppointmentType := SCHEDULED | INSTANT.

Global Instance AppointmentStatus_eq_dec : EqDecision AppointmentStatus.
Proof. solve_decision. Defined.

Global Instance AppointmentType_eq_dec : EqDecision AppointmentType.
Proof. solve_decision. Defined.

Module Appointment.
Record t := mk {
  id : string;
  userId : string;
  therapistId : string;
  scheduledAt : Z;
  duration : Z;
  timezone : string;
  type : AppointmentType;
  status : AppointmentStatus;
  amount : Z;
  bookingNotes : option string;
  sessionNotes : option string;
  cancellationReason : option string;
  confirmedAt : option Z;
  completedAt : option Z;
  cancelledAt : option Z
}.

(** The [data] object of [prisma.appointment.update]: a column that is
    absent (or [undefined]) is left as it is. *)
Record update := mkUpdate {
  set_userId : option string;
  set_therapistId : option string;
  set_scheduledAt : option Z;
  set_duration : option Z;
  set_timezone : option string;
  set_type : option AppointmentType;
  set_status : option AppointmentStatus;
  set_amount : option Z;
  set_bookingNotes : option string;
  set_sessionNotes : option string;
  set_cancellationReason : option string;
  set_confirmedAt : option Z;
  set_completedAt : option Z;
  set_cancelledAt : option Z
}.

Definition written {A} (new : option A) (old : A) : A :=
  match new with Some v => v | None => old end.

Definition writtenOpt {A} (new : option A) (old : option A) : option A :=
  match new with Some v => Some v | None => old end.

Definition apply (u : update) (a : t) : t :=
  {| id := id a;
     userId := written (set_userId u) (userId a);
     therapistId := written (set_therapistId u) (therapistId a);
     scheduledAt := written (set_scheduledAt u) (scheduledAt a);
     duration := written (set_duration u) (duration a);
     timezone := written (set_timezone u) (timezone a);
     type := written (set_type u) (type a);
     status := written (set_status u) (status a);
     amount := written (set_amount u) (amount a);
     bookingNotes := writtenOpt (set_bookingNotes u) (bookingNotes a);
     sessionNotes := writtenOpt (set_sessionNotes u) (sessionNotes a);
     cancellationReason :=
       writtenOpt (set_cancellationReason u) (cancellationReason a);
     confirmedAt := writtenOpt (set_confirmedAt u) (confirmedAt a);
     completedAt := writtenOpt (set_completedAt u) (completedAt a);
     cancelledAt := writtenOpt (set_cancelledAt u) (cancelledAt a) |}.
End Appointment.

Module Therapist.
(** [userId] is the key of the therapist's user account: the required
    relation [therapist.user] always resolves, and [therapist.user.id] is
    this column. *)
Record t := mk {
  id : string;
  userId : string;
  averageRating : Q;
  totalReviews : Z
}.
End Therapist.

Module Availability.
Record t := mk {
  therapistId : string;
  dayOfWeek : Z;
  startTime : string;
  endTime : string;
  isActive : bool
}.
End Availability.

Module BlockedSlot.
(** Modelled from the spec: the columns of a blocked slot (the schema is
    not part of the sources): "an explicit therapist-declared exception
    removing availability for a specific date/time range". *)
Record t := mk {
  therapistId : string;
  blockedFrom : Z;
  blockedUntil : Z
}.
End BlockedSlot.

Module Review.
Record t := mk {
  id : string;
  userId : string;
  therapistId : string;
  appointmentId : string;
  rating : Z;
  feedback : option string;
  tags : list string;
  isAnonymous : bool
}.
End Review.

(** ** The store *)

Record Db := mkDb {
  appointments : gmap string Appointment.t;
  therapists : gmap string Therapist.t;
  reviews : gmap string Review.t;
  availabilities : list Availability.t;
  blockedSlots : list BlockedSlot.t
}.

Definition with_appointments (f : gmap string Appointment.t → gmap string Appointment.t)
    (db : Db) : Db :=
  mkDb (f (appointments db)) (therapists db) (reviews db)
       (availabilities db) (blockedSlots db).

Definition with_therapists (f : gmap string Therapist.t → gmap string Therapist.t)
    (db : Db) : Db :=
  mkDb (appointments db) (f (therapists db)) (reviews db)
       (availabilities db) (blockedSlots db).

Definition with_reviews (f : gmap string Review.t → gmap string Review.t)
    (db : Db) : Db :=
  mkDb (appointments db) (therapists db) (f (reviews db))
       (availabilities db) (blockedSlots db).

(** ** Exceptions and the request monad *)

Inductive Exception :=
| NotFoundException (message : string)
| BadRequestException (message : string)
| ForbiddenException (message : string)
| PrismaError (code : string)
| NotificationError (reason : string).

Global Instance Exception_eq_dec : EqDecision Exception.
Proof. solve_decision. Defined.

Definition M (A : Type) : Type := Db → (Exception + A) * Db.

Global Instance M_ret : MRet M := λ A x db, (inr x, db).

Global Instance M_bind : MBind M := λ A B f m db,
  match m db with
  | (inl e, db') => (inl e, db')
  | (inr x, db') => f x db'
  end.

Definition throw {A} (e : Exception) : M A := λ db, (inl e, db).

(** ** Prisma queries *)

Definition rows {A} (tbl : gmap string A) : list A := (map_to_list tbl).*2.

Definition findMany {A} (P : A → Prop) `{!∀ x, Decision (P x)}
    (tbl : gmap string A) : list A :=
  filter P (rows tbl).

Definition findFirst {A} (P : A → Prop) `{!∀ x, Decision (P x)}
    (tbl : gmap string A) : option A :=
  head (findMany P tbl).

Definition therapist_findUnique (id : string) : M (option Therapist.t) :=
  λ db, (inr (therapists db !! id), db).

Definition appointment_findUnique (id : string) : M (option Appointment.t) :=
  λ db, (inr (appointments db !! id), db).

(** [findUnique] with [include: { therapist: ... }]: the relation is
    required, so the client rejects a row whose therapist is missing. *)
Definition appointment_findUnique_include_therapist (id : string)
    : M (option (Appointment.t * Therapist.t)) :=
  λ db,
    match appointments db !! id with
    | None => (inr None, db)
    | Some a =>
        match therapists db !! Appointment.therapistId a with
        | Some th => (inr (Some (a, th)), db)
        | None => (inl (PrismaError "inconsistent query result"), db)
        end
    end.

Definition appointment_findFirst (P : Appointment.t → Prop)
    `{!∀ x, Decision (P x)} : M (option Appointment.t) :=
  λ db, (inr (findFirst P (appointments db)), db).

(** [create] stores the row under a key that the table does not hold yet. *)
Definition appointment_create (row : string → Appointment.t) : M Appointment.t :=
  λ db,
    let id := fresh (dom (appointments db)) in
    (inr (row id), with_appointments (insert id (row id)) db).

(** [update] rejects with P2025 when no row has the key. *)
Definition appointment_update (id : string) (data : Appointment.update)
    : M Appointment.t :=
  λ db,
    match appointments db !! id with
    | None => (inl (PrismaError "P2025"), db)
    | Some a =>
        let a' := Appointment.apply data a in
        (inr a', with_appointments (insert id a') db)
    end.

(** Modelled from the spec: the uniqueness constraint of a review's
    appointment ("appointment id (one-to-one)", "enforced as a uniqueness
    constraint"); the schema that declares it is not part of the sources.
    A second row for the same appointment is rejected by the store (P2002)
    and nothing is written. *)
Definition review_create (row : string → Review.t) : M Review.t :=
  λ db,
    let id := fresh (dom (reviews db)) in
    let r := row id in
    match findFirst (λ r', Review.appointmentId r' = Review.appointmentId r)
                    (reviews db) with
    | Some _ => (inl (PrismaError "P2002"), db)
    | None => (inr r, with_reviews (insert id r) db)
    end.

Definition sumZ (l : list Z) : Z := foldr Z.add 0 l.

Record ReviewStats := mkStats { _avg : option Q; _count : Z }.

(** [aggregate] with [_avg: { rating: true }] and [_count: true]: the
    average of no row is null. *)
Definition aggregate (ratings : list Z) : ReviewStats :=
  mkStats
    (match ratings with
     | [] => None
     | _ => Some (inject_Z (sumZ ratings) / inject_Z (Z.of_nat (length ratings)))%Q
     end)
    (Z.of_nat (length ratings)).

Definition ratingsOf (therapistId : string) (tbl : gmap string Review.t) : list Z :=
  Review.rating <$> findMany (λ r, Review.therapistId r = therapistId) tbl.

Definition review_aggregate (therapistId : string) : M ReviewStats :=
  λ db, (inr (aggregate (ratingsOf therapistId (reviews db))), db).

Definition therapist_update (id : string) (averageRating : Q) (totalReviews : Z)
    : M Therapist.t :=
  λ db,
    match therapists db !! id with
    | None => (inl (PrismaError "P2025"), db)
    | Some th =>
        let th' := Therapist.mk (Therapist.id th) (Therapist.userId th)
                                averageRating totalReviews in
        (inr th', with_therapists (insert id th') db)
    end.


(** ** Notifications *)

(** What the service hands to [NotificationsService]: the recipient's user
    id, the appointment id and, for a decline or a cancellation, the reason.
    The display strings (the other party's name, the formatted date) are
    passed through to the sender and decide nothing in the service. *)
Inductive Notification :=
| BookingRequest (recipient appointmentId : string)
| BookingConfirmation (recipient appointmentId : string)
| BookingDeclined (recipient appointmentId : string) (reason : option string)
| AppointmentCancelled (recipient appointmentId : string) (reason : string).

Module CreateData.
Record t := mk {
  userId : string;
  therapistId : string;
  scheduledAt : Z;
  duration : Z;
  timezone : string;
  type : option AppointmentType;
  bookingNotes : option string;
  amount : Z
}.
End CreateData.

Module ReviewData.
Record t := mk {
  rating : Z;
  feedback : option string;
  tags : option (list string);
  isAnonymous : option bool
}.
End ReviewData.

(** [x || d] on an optional string: undefined and the empty string are
    both falsy. *)
Definition orString (x : option string) (d : string) : string :=
  match x with
  | None => d
  | Some EmptyString => d
  | Some s => s
  end.

(** ** The refund tier of a cancellation *)

Definition hoursUntilAppointment (scheduledAt now : Z) : Q :=
  (inject_Z (scheduledAt - now) / inject_Z (1000 * 60 * 60))%Q.

Definition refundPercentage (scheduledAt now : Z) : Z :=
  if Qlt_le_dec 24 (hoursUntilAppointment scheduledAt now) then 100
  else if Qlt_le_dec 2 (hoursUntilAppointment scheduledAt now) then 50
  else 0.

(** The [data] objects of the four transitions. *)
Definition confirmData (now : Z) : Appointment.update :=
  Appointment.mkUpdate None None None None None None (Some CONFIRMED) None
    None None None (Some now) None None.

Definition declineData (now : Z) (reason : option string) : Appointment.update :=
  Appointment.mkUpdate None None None None None None (Some CANCELLED) None
    None None (Some (orString reason "Declined by therapist")) None None (Some now).

Definition cancelData (now : Z) (reason : string) : Appointment.update :=
  Appointment.mkUpdate None None None None None None (Some CANCELLED) None
    None None (Some reason) None None (Some now).

Definition completeData (now : Z) (sessionNotes : option string)
    : Appointment.update :=
  Appointment.mkUpdate None None None None None None (Some COMPLETED) None
    None sessionNotes None None (Some now) None.

(** The [data] object of [prisma.appointment.create], stored under the
    key the store chooses. *)
Definition createRow (data : CreateData.t) (id : string) : Appointment.t :=
  {| Appointment.id := id;
     Appointment.userId := CreateData.userId data;
     Appointment.therapistId := CreateData.therapistId data;
     Appointment.scheduledAt := CreateData.scheduledAt data;
     Appointment.duration := CreateData.duration data;
     Appointment.timezone := CreateData.timezone data;
     Appointment.type := default SCHEDULED (CreateData.type data);
     Appointment.status := PENDING;
     Appointment.amount := CreateData.amount data;
     Appointment.bookingNotes := CreateData.bookingNotes data;
     Appointment.sessionNotes := None;
     Appointment.cancellationReason := None;
     Appointment.confirmedAt := None;
     Appointment.completedAt := None;
     Appointment.cancelledAt := None |}.

(** The [where] clause of the conflict check: same therapist, same start
    instant, status PENDING or CONFIRMED. *)
Definition conflictsWith (data : CreateData.t) (a : Appointment.t) : Prop :=
  Appointment.therapistId a = CreateData.therapistId data ∧
  Appointment.scheduledAt a = CreateData.scheduledAt data ∧
  Appointment.status a ∈ [PENDING; CONFIRMED].

Global Instance conflictsWith_dec data a : Decision (conflictsWith data a).
Proof. unfold conflictsWith. apply _. Defined.

(** The [data] object of [prisma.review.create]. *)
Definition reviewRow (appointment : Appointment.t) (appointmentId userId : string)
    (data : ReviewData.t) (id : string) : Review.t :=
  {| Review.id := id;
     Review.userId := userId;
     Review.therapistId := Appointment.therapistId appointment;
     Review.appointmentId := appointmentId;
     Review.rating := ReviewData.rating data;
     Review.feedback := ReviewData.feedback data;
     Review.tags := default [] (ReviewData.tags data);
     Review.isAnonymous := default false (ReviewData.isAnonymous data) |}.

(** ** AppointmentsService *)

Section AppointmentsService.

(** The notification sender is a collaborator: it either delivers ([None])
    or rejects with a reason. *)
Variable dispatch : Notification → option string.

(** [await this.notificationsService.send...(...)], with no handler around
    the call. *)
Definition notify (n : Notification) : M unit :=
  λ db,
    match dispatch n with
    | None => (inr (), db)
    | Some reason => (inl (NotificationError reason), db)
    end.

Definition create (data : CreateData.t) : M Appointment.t :=
  therapist ← therapist_findUnique (CreateData.therapistId data);
  match therapist with
  | None => throw (NotFoundException "Therapist not found")
  | Some therapist =>
      conflicting ← appointment_findFirst (conflictsWith data);
      match conflicting with
      | Some _ => throw (BadRequestException "Time slot is not available")
      | None =>
          appointment ← appointment_create (createRow data);
          notify (BookingRequest (Therapist.userId therapist)
                                 (Appointment.id appointment));;
          mret appointment
      end
  end.

Definition confirm (now : Z) (id userId : string) : M Appointment.t :=
  found ← appointment_findUnique_include_therapist id;
  match found with
  | None => throw (NotFoundException "Appointment not found")
  | Some (appointment, therapist) =>
      if decide (Therapist.userId therapist ≠ userId) then
        throw (ForbiddenException "Not authorized")
      else if decide (Appointment.status appointment ≠ PENDING) then
        throw (BadRequestException "Appointment cannot be confirmed")
      else
        updatedAppointment ← appointment_update id (confirmData now);
        notify (BookingConfirmation (Appointment.userId appointment)
                                    (Appointment.id appointment));;
        mret updatedAppointment
  end.

Definition decline (now : Z) (id userId : string) (reason : option string)
    : M Appointment.t :=
  found ← appointment_findUnique_include_therapist id;
  match found with
  | None => throw (NotFoundException "Appointment not found")
  | Some (appointment, therapist) =>
      if decide (Therapist.userId therapist ≠ userId) then
        throw (ForbiddenException "Not authorized")
      else if decide (Appointment.status appointment ≠ PENDING) then
        throw (BadRequestException "Only pending appointments can be declined")
      else
        updatedAppointment ← appointment_update id (declineData now reason);
        notify (BookingDeclined (Appointment.userId appointment)
                                (Appointment.id appointment) reason);;
        mret updatedAppointment
  end.

Definition cancel (now : Z) (id userId reason : string) (isTherapist : bool)
    : M Appointment.t :=
  found ← appointment_findUnique_include_therapist id;
  match found with
  | None => throw (NotFoundException "Appointment not found")
  | Some (appointment, therapist) =>
      if decide (isTherapist = false ∧ Appointment.userId appointment ≠ userId) then
        throw (ForbiddenException "Not authorized")
      else if decide (isTherapist = true ∧ Therapist.userId therapist ≠ userId) then
        throw (ForbiddenException "Not authorized")
      else if decide (Appointment.status appointment = COMPLETED ∨
                      Appointment.status appointment = CANCELLED) then
        throw (BadRequestException "Appointment cannot be cancelled")
      else
        let refundPercentage :=
          refundPercentage (Appointment.scheduledAt appointment) now in
        updatedAppointment ← appointment_update id (cancelData now reason);
        (if isTherapist then
           notify (AppointmentCancelled (Appointment.userId appointment)
                                        (Appointment.id appointment) reason)
         else
           notify (AppointmentCancelled (Therapist.userId therapist)
                                        (Appointment.id appointment) reason));;
        mret updatedAppointment
  end.

Definition complete (now : Z) (id userId : string) (sessionNotes : option string)
    : M Appointment.t :=
  found ← appointment_findUnique_include_therapist id;
  match found with
  | None => throw (NotFoundException "Appointment not found")
  | Some (appointment, therapist) =>
      if decide (Therapist.userId therapist ≠ userId) then
        throw (ForbiddenException "Not authorized")
      else
        appointment_update id (completeData now sessionNotes)
  end.

Definition addReview (appointmentId userId : string) (data : ReviewData.t)
    : M Review.t :=
  found ← appointment_findUnique appointmentId;
  match found with
  | None => throw (NotFoundException "Appointment not found")
  | Some appointment =>
      if decide (Appointment.userId appointment ≠ userId) then
        throw (ForbiddenException "Not authorized")
      else if decide (Appointment.status appointment ≠ COMPLETED) then
        throw (BadRequestException "Can only review completed appointments")
      else
        review ← review_create (reviewRow appointment appointmentId userId data);
        stats ← review_aggregate (Appointment.therapistId appointment);
        therapist_update (Appointment.therapistId appointment)
                         (default 0%Q (_avg stats)) (_count stats);;
        mret review
  end.

End AppointmentsService.

(** ** AppointmentsService, earlier revision

    The revision of the service without notifications: no [decline], the
    actor of [confirm], [cancel] and [complete] is compared with the
    appointment's [therapistId] column, and the updated row is returned at
    once. [addReview] is the same in both revisions. *)

Module Legacy.

Definition create (data : CreateData.t) : M Appointment.t :=
  therapist ← therapist_findUnique (CreateData.therapistId data);
  match therapist with
  | None => throw (NotFoundException "Therapist not found")
  | Some _ =>
      conflicting ← appointment_findFirst (conflictsWith data);
      match conflicting with
      | Some _ => throw (BadRequestException "Time slot is not available")
      | None => appointment_create (createRow data)
      end
  end.

Definition confirm (now : Z) (id therapistId : string) : M Appointment.t :=
  found ← appointment_findUnique id;
  match found with
  | None => throw (NotFoundException "Appointment not found")
  | Some appointment =>
      if decide (Appointment.therapistId appointment ≠ therapistId) then
        throw (ForbiddenException "Not authorized")
      else if decide (Appointment.status appointment ≠ PENDING) then
        throw (BadRequestException "Appointment cannot be confirmed")
      else
        appointment_update id (confirmData now)
  end.

Definition cancel (now : Z) (id userId reason : string) (isTherapist : bool)
    : M Appointment.t :=
  found ← appointment_findUnique id;
  match found with
  | None => throw (NotFoundException "Appointment not found")
  | Some appointment =>
      if decide (isTherapist = false ∧ Appointment.userId appointment ≠ userId) then
        throw (ForbiddenException "Not authorized")
      else if decide (isTherapist = true ∧
                      Appointment.therapistId appointment ≠ userId) then
        throw (ForbiddenException "Not authorized")
      else if decide (Appointment.status appointment = COMPLETED ∨
                      Appointment.status appointment = CANCELLED) then
        throw (BadRequestException "Appointment cannot be cancelled")
      else
        let refundPercentage :=
          refundPercentage (Appointment.scheduledAt appointment) now in
        appointment_update id (cancelData now reason)
  end.

Definition complete (now : Z) (id therapistId : string)
    (sessionNotes : option string) : M Appointment.t :=
  found ← appointment_findUnique id;
  match found with
  | None => throw (NotFoundException "Appointment not found")
  | Some appointment =>
      if decide (Appointment.therapistId appointment ≠ therapistId) then
        throw (ForbiddenException "Not authorized")
      else
        appointment_update id (completeData now sessionNotes)
  end.

End Legacy.

(** ** TherapistsService.getAvailableSlots *)

Module Slots.
Record t := mk {
  date : Z;
  slots : list (string * string);
  bookedSlots : list (Z * Z)
}.
End Slots.

Definition dayMs : Z := 24 * 60 * 60 * 1000.

Section TherapistsService.

(** The offset, in milliseconds, of the server's local time from UTC at the
    instant that is read: [getDay] reads the day of the week in local time.
    The offset of a zone with daylight saving differs between instants, so
    two calls for two dates each have their own offset. *)
Variable tzOffset : Z.

(** 1970-01-01 was a Thursday (day 4). *)
Definition getDay (t : Z) : Z := ((t + tzOffset) `div` dayMs + 4) `mod` 7.

(** The [date] argument is the instant [new Date(date)] denotes. *)
Definition getAvailableSlots (therapistId : string) (date : Z) : M Slots.t :=
  λ db,
    match therapists db !! therapistId with
    | None => (inl (NotFoundException "Therapist not found"), db)
    | Some _ =>
        let therapist_availabilities :=
          filter (λ a, Availability.therapistId a = therapistId ∧
                       Availability.isActive a = true) (availabilities db) in
        let therapist_blockedSlots :=
          filter (λ b, BlockedSlot.therapistId b = therapistId) (blockedSlots db) in
        let therapist_appointments :=
          findMany (λ a, Appointment.therapistId a = therapistId ∧
                         date ≤ Appointment.scheduledAt a ∧
                         Appointment.scheduledAt a < date + dayMs ∧
                         Appointment.status a ∈ [PENDING; CONFIRMED])
                   (appointments db) in
        let dayOfWeek := getDay date in
        let dayAvailability :=
          filter (λ a, Availability.dayOfWeek a = dayOfWeek)
                 therapist_availabilities in
        (inr {| Slots.date := date;
                Slots.slots :=
                  (λ a, (Availability.startTime a, Availability.endTime a))
                    <$> dayAvailability;
                Slots.bookedSlots :=
                  (λ a, (Appointment.scheduledAt a, Appointment.duration a))
                    <$> therapist_appointments |}, db)
    end.

End TherapistsService.

(** ** A sample store

    One therapist (user account "doc"), one patient, and one appointment in
    each status, all scheduled 100 hours after the epoch. *)

Definition hourMs : Z := 1000 * 60 * 60.

Definition sampleAppointment (id : string) (status : AppointmentStatus)
    : Appointment.t :=
  Appointment.mk id "patient" "t1" (100 * hourMs) 60 "UTC" SCHEDULED status 5000
    None None None None None None.

Definition sampleDb : Db :=
  mkDb (<["a1" := sampleAppointment "a1" CANCELLED]>
         (<["a2" := sampleAppointment "a2" NO_SHOW]>
           (<["a3" := sampleAppointment "a3" PENDING]>
             (<["a4" := sampleAppointment "a4" COMPLETED]>
               (<["a5" := sampleAppointment "a5" CONFIRMED]> ∅)))))
       (<["t1" := Therapist.mk "t1" "doc" 0 0]> ∅)
       ∅ [] [].

(** Requests to the therapist of the sample store: for an unknown
    therapist, at the start instant of the stored appointments, and a quarter
    of an hour into them. *)
Definition sampleRequest (therapistId : string) (scheduledAt : Z) : CreateData.t :=
  CreateData.mk "patient" therapistId scheduledAt 30 "UTC" None None 2500.

(** The sample store without its PENDING and CONFIRMED appointments. *)
Definition terminalOnlyDb : Db :=
  with_appointments (λ tbl, delete "a3" (delete "a5" tbl)) sampleDb.

Definition delivers : Notification → option string := λ _, None.

(** A store for reviews: four COMPLETED sessions of the patient with the
    therapist, the first three of them then rated 5, 3 and 4. *)
Definition completedDb : Db :=
  mkDb (<["c1" := sampleAppointment "c1" COMPLETED]>
         (<["c2" := sampleAppointment "c2" COMPLETED]>
           (<["c3" := sampleAppointment "c3" COMPLETED]>
             (<["c4" := sampleAppointment "c4" COMPLETED]> ∅))))
       (<["t1" := Therapist.mk "t1" "doc" 0 0]> ∅)
       ∅ [] [].

Definition stars (rating : Z) : ReviewData.t :=
  ReviewData.mk rating None None None.

Definition rate (appointmentId : string) (rating : Z) (db : Db) : Db :=
  (addReview appointmentId "patient" (stars rating) db).2.

Definition ratedDb : Db := rate "c3" 4 (rate "c2" 3 (rate "c1" 5 completedDb)).

(** A second therapist (user account "doc2") with two sessions of her own,
    next to the four sessions of the first: her sessions are rated 1 and 2,
    the first three sessions of the first therapist 5, 3 and 4. *)
Definition otherAppointment (id : string) : Appointment.t :=
  Appointment.mk id "patient" "t2" (100 * hourMs) 60 "UTC" SCHEDULED COMPLETED
    5000 None None None None None None.

Definition twoTherapistsDb : Db :=
  mkDb (<["c1" := sampleAppointment "c1" COMPLETED]>
         (<["c2" := sampleAppointment "c2" COMPLETED]>
           (<["c3" := sampleAppointment "c3" COMPLETED]>
             (<["c4" := sampleAppointment "c4" COMPLETED]>
               (<["d1" := otherAppointment "d1"]>
                 (<["d2" := otherAppointment "d2"]> ∅))))))
       (<["t1" := Therapist.mk "t1" "doc" 0 0]>
         (<["t2" := Therapist.mk "t2" "doc2" 0 0]> ∅))
       ∅ [] [].

Definition twoRatedDb : Db :=
  rate "c3" 4 (rate "d2" 2 (rate "c2" 3 (rate "d1" 1 (rate "c1" 5 twoTherapistsDb)))).

(** ** Occupied slots, as the availability contract words them *)

Definition digit (c : ascii) : option Z :=
  let n := Z.of_nat (nat_of_ascii c) - 48 in
  if decide (0 ≤ n ≤ 9) then Some n else None.

(** Modelled from the spec: the start of a window ("HH:MM", a time of day)
    as minutes after midnight; the column's format is not declared in the
    sources. *)
Definition minutesOfDay (time : string) : option Z :=
  match time with
  | String h1 (String h2 (String ":" (String m1 (String m2 EmptyString)))) =>
      match digit h1, digit h2, digit m1, digit m2 with
      | Some a, Some b, Some c, Some d => Some ((10 * a + b) * 60 + 10 * c + d)
      | _, _, _, _ => None
      end
  | _ => None
  end.

(** Modelled from the spec: a slot is "already occupied by a non-terminal
    appointment at that exact start time". *)
Definition occupiedAt (db : Db) (therapistId : string) (date : Z)
    (startTime : string) : Prop :=
  ∃ k a minutes,
    appointments db !! k = Some a ∧
    Appointment.therapistId a = therapistId ∧
    (Appointment.status a = PENDING ∨ Appointment.status a = CONFIRMED) ∧
    minutesOfDay startTime = Some minutes ∧
    Appointment.scheduledAt a = date + minutes * 60000.

(** The availability contract, as the specification words it: no returned
    slot is occupied. *)
Definition excludesOccupied (tzOffset : Z) (db : Db) (therapistId : string)
    (date : Z) : Prop :=
  ∀ r,
    (getAvailableSlots tzOffset therapistId date db).1 = inr r →
    ∀ startTime endTime,
      (startTime, endTime) ∈ Slots.slots r →
      ¬ occupiedAt db therapistId date startTime.

(** An active window of the therapist on the weekday of the date. *)
Definition windowOn (tzOffset : Z) (therapistId : string) (date : Z)
    (w : Availability.t) : Prop :=
  Availability.therapistId w = therapistId ∧
  Availability.isActive w = true ∧
  Availability.dayOfWeek w = getDay tzOffset date.

(** A PENDING or CONFIRMED appointment of the therapist that starts within
    the 24 hours from the date. *)
Definition bookedOn (therapistId : string) (date : Z) (a : Appointment.t) : Prop :=
  Appointment.therapistId a = therapistId ∧
  date ≤ Appointment.scheduledAt a < date + dayMs ∧
  (Appointment.status a = PENDING ∨ Appointment.status a = CONFIRMED).

(** A store for availability. 1970-01-05, four days after the epoch, is a
    Monday (day 1). The therapist is open on Mondays 09:00-10:00 and
    11:00-12:00 and on Tuesdays 09:00-10:00, has retired a Monday 14:00
    window, and has a CONFIRMED and a CANCELLED appointment on that Monday
    at 09:00. *)
Definition monday : Z := 4 * dayMs.

Definition slotsDb : Db :=
  mkDb (<["b1" := Appointment.mk "b1" "patient" "t1" (monday + 9 * hourMs) 60 "UTC"
                    SCHEDULED CONFIRMED 5000 None None None None None None]>
         (<["b2" := Appointment.mk "b2" "patient" "t1" (monday + 9 * hourMs) 60 "UTC"
                      SCHEDULED CANCELLED 5000 None None None None None None]> ∅))
       (<["t1" := Therapist.mk "t1" "doc" 0 0]> ∅)
       ∅
       [ Availability.mk "t1" 1 "09:00" "10:00" true;
         Availability.mk "t1" 1 "11:00" "12:00" true;
         Availability.mk "t1" 1 "14:00" "15:00" false;
         Availability.mk "t1" 2 "09:00" "10:00" true;
         Availability.mk "t2" 1 "16:00" "17:00" true ]
       [].
Definition rejects : Notification → option string := λ _, Some "push failed".

(** ** Vocabulary of the properties *)

(** The store after [update] has written [data] to the row [a] of key
    [id]. *)
Definition updated (db : Db) (id : string) (a : Appointment.t)
    (data : Appointment.update) : Db :=
  with_appointments (insert id (Appointment.apply data a)) db.

(** What a transition returns once its guards have passed and the row is
    written: the notification is awaited, and its rejection is the result. *)
Definition notified (dispatch : Notification → option string) (db : Db)
    (id : string) (a : Appointment.t) (n : Notification)
    (data : Appointment.update) : (Exception + Appointment.t) * Db :=
  match dispatch n with
  | None => (inr (Appointment.apply data a), updated db id a data)
  | Some reason => (inl (NotificationError reason), updated db id a data)
  end.

(** How a transition on the stored row [a] can end: rejected before the
    write, with the store as it was; or with the row [a'] written in place
    of [a], every other row untouched, and either [a'] returned or the
    notification's rejection. *)
Definition transitionOutcome (db : Db) (id : string) (a' : Appointment.t)
    (r : (Exception + Appointment.t) * Db) : Prop :=
  (r.2 = db ∧ ∃ e, r.1 = inl e) ∨
  (r.2 = with_appointments (insert id a') db ∧
   (r.1 = inr a' ∨ ∃ reason, r.1 = inl (NotificationError reason))).

Definition setStatus (a : Appointment.t) (status : AppointmentStatus)
    (sessionNotes cancellationReason : option string)
    (confirmedAt completedAt cancelledAt : option Z) : Appointment.t :=
  Appointment.mk (Appointment.id a) (Appointment.userId a)
    (Appointment.therapistId a) (Appointment.scheduledAt a)
    (Appointment.duration a) (Appointment.timezone a) (Appointment.type a)
    status (Appointment.amount a) (Appointment.bookingNotes a)
    sessionNotes cancellationReason confirmedAt completedAt cancelledAt.

Definition transitionsFrame (dispatch : Notification → option string)
    (db : Db) (id : string) (a : Appointment.t) : Prop :=
  ∀ (now : Z) (userId : string),
    transitionOutcome db id
      (setStatus a CONFIRMED (Appointment.sessionNotes a)
         (Appointment.cancellationReason a)
         (Some now) (Appointment.completedAt a) (Appointment.cancelledAt a))
      (confirm dispatch now id userId db) ∧
    (∀ reason,
       transitionOutcome db id
         (setStatus a CANCELLED (Appointment.sessionNotes a)
            (Some (orString reason "Declined by therapist"))
            (Appointment.confirmedAt a) (Appointment.completedAt a) (Some now))
         (decline dispatch now id userId reason db)) ∧
    (∀ reason isTherapist,
       transitionOutcome db id
         (setStatus a CANCELLED (Appointment.sessionNotes a) (Some reason)
            (Appointment.confirmedAt a) (Appointment.completedAt a) (Some now))
         (cancel dispatch now id userId reason isTherapist db)) ∧
    (∀ sessionNotes,
       transitionOutcome db id
         (setStatus a COMPLETED
            (match sessionNotes with
             | Some notes => Some notes
             | None => Appointment.sessionNotes a
             end)
            (Appointment.cancellationReason a)
            (Appointment.confirmedAt a) (Some now) (Appointment.cancelledAt a))
         (complete now id userId sessionNotes db)).

(** The terminal statuses. *)
Definition terminal (s : AppointmentStatus) : Prop :=
  s = COMPLETED ∨ s = CANCELLED ∨ s = NO_SHOW.

(** The slot of the request [data] is taken: a PENDING or CONFIRMED
    appointment of the same therapist starts at the same instant. *)
Definition slotTaken (data : CreateData.t) (db : Db) : Prop :=
  ∃ k a,
    appointments db !! k = Some a ∧
    Appointment.therapistId a = CreateData.therapistId data ∧
    Appointment.scheduledAt a = CreateData.scheduledAt data ∧
    (Appointment.status a = PENDING ∨ Appointment.status a = CONFIRMED).

(** A failed dispatch is swallowed, as the specification words it: whatever
    the sender does, its rejection is never the result of the operation. *)
Definition dispatchFailureSwallowed {A}
    (op : (Notification → option string) → M A) : Prop :=
  ∀ dispatch db reason, (op dispatch db).1 ≠ inl (NotificationError reason).

(** At most one review per appointment. *)
Definition oneReviewPerAppointment (db : Db) : Prop :=
  ∀ k1 k2 r1 r2,
    reviews db !! k1 = Some r1 →
    reviews db !! k2 = Some r2 →
    Review.appointmentId r1 = Review.appointmentId r2 →
    k1 = k2.

(** ** Sequences of requests

    Every mutating method of the two revisions of the service, as a
    request; a sequence of requests is served in order, each on the store
    the one before left. *)

Inductive Request :=
| Create (data : CreateData.t)
| Confirm (now : Z) (id userId : string)
| Decline (now : Z) (id userId : string) (reason : option string)
| Cancel (now : Z) (id userId reason : string) (isTherapist : bool)
| Complete (now : Z) (id userId : string) (sessionNotes : option string)
| AddReview (appointmentId userId : string) (data : ReviewData.t)
| LegacyCreate (data : CreateData.t)
| LegacyConfirm (now : Z) (id therapistId : string)
| LegacyCancel (now : Z) (id userId reason : string) (isTherapist : bool)
| LegacyComplete (now : Z) (id therapistId : string) (sessionNotes : option string).

Definition serve (dispatch : Notification → option string) (req : Request)
    (db : Db) : Db :=
  match req with
  | Create data => (create dispatch data db).2
  | Confirm now id userId => (confirm dispatch now id userId db).2
  | Decline now id userId reason => (decline dispatch now id userId reason db).2
  | Cancel now id userId reason isTherapist =>
      (cancel dispatch now id userId reason isTherapist db).2
  | Complete now id userId sessionNotes =>
      (complete now id userId sessionNotes db).2
  | AddReview appointmentId userId data =>
      (addReview appointmentId userId data db).2
  | LegacyCreate data => (Legacy.create data db).2
  | LegacyConfirm now id therapistId => (Legacy.confirm now id therapistId db).2
  | LegacyCancel now id userId reason isTherapist =>
      (Legacy.cancel now id userId reason isTherapist db).2
  | LegacyComplete now id therapistId sessionNotes =>
      (Legacy.complete now id therapistId sessionNotes db).2
  end.

Fixpoint serveAll (dispatch : Notification → option string)
    (requests : list Request) (db : Db) : Db :=
  match requests with
  | [] => db
  | req :: rest => serveAll dispatch rest (serve dispatch req db)
  end.

(** What serving one request can do to the store. *)
Inductive effect (db : Db) : Db → Prop :=
| effect_none : effect db db
| effect_created data :
    is_Some (therapists db !! CreateData.therapistId data) →
    findFirst (conflictsWith data) (appointments db) = None →
    effect db (with_appointments
                 (insert (fresh (dom (appointments db)))
                    (createRow data (fresh (dom (appointments db))))) db)
| effect_confirmed now id a :
    appointments db !! id = Some a →
    Appointment.status a = PENDING →
    effect db (updated db id a (confirmData now))
| effect_declined now id a reason :
    appointments db !! id = Some a →
    Appointment.status a = PENDING →
    effect db (updated db id a (declineData now reason))
| effect_cancelled now id a reason :
    appointments db !! id = Some a →
    Appointment.status a ≠ COMPLETED →
    Appointment.status a ≠ CANCELLED →
    effect db (updated db id a (cancelData now reason))
| effect_completed now id a sessionNotes :
    appointments db !! id = Some a →
    effect db (updated db id a (completeData now sessionNotes))
| effect_reviewed appointmentId userId data a :
    appointments db !! appointmentId = Some a →
    Appointment.userId a = userId →
    Appointment.status a = COMPLETED →
    findFirst (λ r, Review.appointmentId r = appointmentId) (reviews db) = None →
    therapists db !! Appointment.therapistId a = None →
    effect db (with_reviews
                 (insert (fresh (dom (reviews db)))
                    (reviewRow a appointmentId userId data
                       (fresh (dom (reviews db))))) db)
| effect_reviewed_stats appointmentId userId data a th :
    appointments db !! appointmentId = Some a →
    Appointment.userId a = userId →
    Appointment.status a = COMPLETED →
    findFirst (λ r, Review.appointmentId r = appointmentId) (reviews db) = None →
    therapists db !! Appointment.therapistId a = Some th →
    effect db
      (let db1 :=
         with_reviews
           (insert (fresh (dom (reviews db)))
              (reviewRow a appointmentId userId data (fresh (dom (reviews db)))))
           db in
       let stats :=
         aggregate (ratingsOf (Appointment.therapistId a) (reviews db1)) in
       with_therapists
         (insert (Appointment.therapistId a)
            (Therapist.mk (Therapist.id th) (Therapist.userId th)
               (default 0%Q (_avg stats)) (_count stats)))
         db1).

(** The columns of an appointment that no request writes. *)
Definition sameCore (a a' : Appointment.t) : Prop :=
  Appointment.id a' = Appointment.id a ∧
  Appointment.userId a' = Appointment.userId a ∧
  Appointment.therapistId a' = Appointment.therapistId a ∧
  Appointment.scheduledAt a' = Appointment.scheduledAt a ∧
  Appointment.duration a' = Appointment.duration a ∧
  Appointment.timezone a' = Appointment.timezone a ∧
  Appointment.type a' = Appointment.type a ∧
  Appointment.amount a' = Appointment.amount a ∧
  Appointment.bookingNotes a' = Appointment.bookingNotes a.

(** How a stored appointment can have changed: the core is kept, a status
    other than PENDING never goes back to PENDING, a status that is neither
    PENDING nor CONFIRMED never becomes one of them, and COMPLETED stays. *)
Definition evolves (a a' : Appointment.t) : Prop :=
  sameCore a a' ∧
  (Appointment.status a ≠ PENDING → Appointment.status a' ≠ PENDING) ∧
  (Appointment.status a' = CONFIRMED →
     Appointment.status a = PENDING ∨ Appointment.status a = CONFIRMED) ∧
  (Appointment.status a = COMPLETED → Appointment.status a' = COMPLETED).

Definition grows (db db' : Db) : Prop :=
  (∀ k a, appointments db !! k = Some a →
          ∃ a', appointments db' !! k = Some a' ∧ evolves a a') ∧
  (∀ k th, therapists db !! k = Some th →
           ∃ th', therapists db' !! k = Some th' ∧
                  Therapist.id th' = Therapist.id th ∧
                  Therapist.userId th' = Therapist.userId th) ∧
  (∀ k r, reviews db !! k = Some r → reviews db' !! k = Some r) ∧
  availabilities db' = availabilities db ∧
  blockedSlots db' = blockedSlots db.

(** ** Invariants of the store *)

Definition nonTerminal (a : Appointment.t) : Prop :=
  Appointment.status a = PENDING ∨ Appointment.status a = CONFIRMED.

(** No two PENDING or CONFIRMED appointments of one therapist start at the
    same instant. *)
Definition conflictFree (db : Db) : Prop :=
  ∀ k1 k2 a1 a2,
    appointments db !! k1 = Some a1 →
    appointments db !! k2 = Some a2 →
    Appointment.therapistId a1 = Appointment.therapistId a2 →
    Appointment.scheduledAt a1 = Appointment.scheduledAt a2 →
    nonTerminal a1 → nonTerminal a2 →
    k1 = k2.

(** Every row is stored under its id, and its therapist exists. *)
Definition wellKeyed (db : Db) : Prop :=
  (∀ k a, appointments db !! k = Some a → Appointment.id a = k) ∧
  (∀ k a, appointments db !! k = Some a →
          is_Some (therapists db !! Appointment.therapistId a)) ∧
  (∀ k r, reviews db !! k = Some r → Review.id r = k).

(** The timestamps agree with the status: a PENDING appointment has none,
    a CONFIRMED one has confirmedAt, a CANCELLED one has cancelledAt and a
    reason, a COMPLETED one has completedAt; no appointment is NO_SHOW. *)
Definition stamped (a : Appointment.t) : Prop :=
  match Appointment.status a with
  | PENDING =>
      Appointment.confirmedAt a = None ∧ Appointment.completedAt a = None ∧
      Appointment.cancelledAt a = None ∧ Appointment.cancellationReason a = None ∧
      Appointment.sessionNotes a = None
  | CONFIRMED =>
      is_Some (Appointment.confirmedAt a) ∧ Appointment.completedAt a = None ∧
      Appointment.cancelledAt a = None
  | CANCELLED =>
      is_Some (Appointment.cancelledAt a) ∧
      is_Some (Appointment.cancellationReason a)
  | COMPLETED => is_Some (Appointment.completedAt a)
  | NO_SHOW => False
  end.

Definition allStamped (db : Db) : Prop :=
  ∀ k a, appointments db !! k = Some a → stamped a.

(** Every review belongs to a COMPLETED appointment, was written by its
    patient, and names its therapist. *)
Definition reviewsSound (db : Db) : Prop :=
  ∀ k r,
    reviews db !! k = Some r →
    ∃ a,
      appointments db !! Review.appointmentId r = Some a ∧
      Appointment.status a = COMPLETED ∧
      Appointment.userId a = Review.userId r ∧
      Appointment.therapistId a = Review.therapistId r.

(** The aggregate columns of every therapist are the count and the mean of
    the ratings of that therapist's reviews (0 when there is none). *)
Definition statsSound (db : Db) : Prop :=
  ∀ k th,
    therapists db !! k = Some th →
    Therapist.totalReviews th = Z.of_nat (length (ratingsOf k (reviews db))) ∧
    Therapist.averageRating th
      = default 0%Q (_avg (aggregate (ratingsOf k (reviews db)))).

(** A store with one therapist and nothing else, and a sequence of requests
    on it: two bookings of the same slot (the second is refused), a booking
    of another slot, the first appointment confirmed, the other cancelled by
    the patient, the first completed and reviewed twice (the second review
    is refused), and the cancelled one completed through the earlier
    revision. The store gives the appointments the keys "0" and "1". *)
Definition openDb : Db :=
  mkDb ∅ (<["t1" := Therapist.mk "t1" "doc" 0 0]> ∅) ∅ [] [].

Definition sampleRequests : list Request :=
  [ Create (sampleRequest "t1" (100 * hourMs));
    Create (sampleRequest "t1" (100 * hourMs));
    Create (sampleRequest "t1" (200 * hourMs));
    Confirm 1 "0" "doc";
    Cancel 2 "1" "patient" "change of plans" false;
    Complete 3 "0" "doc" (Some "notes");
    AddReview "0" "patient" (stars 5);
    AddReview "0" "patient" (stars 1);
    LegacyComplete 4 "1" "t1" None ].

(** The exceptions the service itself throws before it writes. *)
Definition guardError (e : Exception) : Prop :=
  match e with
  | NotFoundException _ | BadRequestException _ | ForbiddenException _ => True
  | PrismaError _ | NotificationError _ => False
  end.

(** ** AppointmentsController

    The routes that call the transitions: the actor is the authenticated
    user ([req.user.id]); the cancel route passes no [isTherapist], which
    defaults to false; the create route passes no [type]. *)

Module CreateBody.
Record t := mk {
  therapistId : string;
  scheduledAt : Z;
  duration : Z;
  timezone : string;
  bookingNotes : option string;
  amount : Z
}.
End CreateBody.

Module Controller.

Section Routes.

Variable dispatch : Notification → option string.

Definition create (user : string) (body : CreateBody.t) : M Appointment.t :=
  create dispatch
    {| CreateData.userId := user;
       CreateData.therapistId := CreateBody.therapistId body;
       CreateData.scheduledAt := CreateBody.scheduledAt body;
       CreateData.duration := CreateBody.duration body;
       CreateData.timezone := CreateBody.timezone body;
       CreateData.type := None;
       CreateData.bookingNotes := CreateBody.bookingNotes body;
       CreateData.amount := CreateBody.amount body |}.

Definition confirm (now : Z) (user id : string) : M Appointment.t :=
  confirm dispatch now id user.

Definition cancel (now : Z) (user id reason : string) : M Appointment.t :=
  cancel dispatch now id user reason false.

Definition complete (now : Z) (user id : string) (sessionNotes : option string)
    : M Appointment.t :=
  complete now id user sessionNotes.

Definition addReview (user id : string) (body : ReviewData.t) : M Review.t :=
  addReview id user body.

End Routes.

End Controller.

(** ** Listing appointments: findByUser, findByTherapist, findById *)

Inductive ListStatus := upcoming | past.

Global Instance ListStatus_eq_dec : EqDecision ListStatus.
Proof. solve_decision. Defined.

(** The [where] object after the optional status has been applied: an
    upcoming appointment starts now or later and is PENDING or CONFIRMED; a
    past one started before now or is COMPLETED or CANCELLED. *)
Definition listWhere (status : option ListStatus) (now : Z) (a : Appointment.t)
    : Prop :=
  match status with
  | Some upcoming =>
      now ≤ Appointment.scheduledAt a ∧
      Appointment.status a ∈ [PENDING; CONFIRMED]
  | Some past =>
      Appointment.scheduledAt a < now ∨
      Appointment.status a ∈ [COMPLETED; CANCELLED]
  | None => True
  end.

Global Instance listWhere_dec status now a : Decision (listWhere status now a).
Proof. destruct status as [[|]|]; simpl; apply _. Defined.

(** [orderBy: { scheduledAt: status === 'past' ? 'desc' : 'asc' }]. *)
Definition byScheduledAt (status : option ListStatus) (a b : Appointment.t) : Prop :=
  if decide (status = Some past)
  then Appointment.scheduledAt b ≤ Appointment.scheduledAt a
  else Appointment.scheduledAt a ≤ Appointment.scheduledAt b.

Global Instance byScheduledAt_dec status a b : Decision (byScheduledAt status a b).
Proof. unfold byScheduledAt. case_decide; apply _. Defined.

Definition listAppointments (owner : Appointment.t → string) (ownerId : string)
    (status : option ListStatus) (now : Z) (tbl : gmap string Appointment.t)
    : list Appointment.t :=
  merge_sort (byScheduledAt status)
    (findMany (λ a, owner a = ownerId ∧ listWhere status now a) tbl).

(** [include: { review: true }]: the review of the appointment, if any. *)
Definition reviewOf (db : Db) (a : Appointment.t) : option Review.t :=
  findFirst (λ r, Review.appointmentId r = Appointment.id a) (reviews db).

Module Listed.
Record t := mk {
  appointment : Appointment.t;
  therapist : Therapist.t;
  review : option Review.t
}.
End Listed.

(** [include: { therapist: ... }]: the relation is required. *)
Definition includeTherapist (db : Db) (a : Appointment.t) : option Listed.t :=
  th ← therapists db !! Appointment.therapistId a;
  Some (Listed.mk a th (reviewOf db a)).

Definition findByUser (now : Z) (userId : string) (status : option ListStatus)
    : M (list Listed.t) :=
  λ db,
    match mapM (includeTherapist db)
               (listAppointments Appointment.userId userId status now
                  (appointments db)) with
    | Some found => (inr found, db)
    | None => (inl (PrismaError "inconsistent query result"), db)
    end.

(** The patient's card that [findByTherapist] joins to each row is not part
    of the store; the row is the appointment with its review. *)
Definition findByTherapist (now : Z) (therapistId : string)
    (status : option ListStatus) : M (list (Appointment.t * option Review.t)) :=
  λ db,
    (inr ((λ a, (a, reviewOf db a))
            <$> listAppointments Appointment.therapistId therapistId status now
                  (appointments db)), db).

(** [findById] joins the therapist and the review (the patient's card and
    the payment are not part of the store). *)
Definition findById (id : string) : M Listed.t :=
  λ db,
    match appointments db !! id with
    | None => (inl (NotFoundException "Appointment not found"), db)
    | Some a =>
        match includeTherapist db a with
        | Some found => (inr found, db)
        | None => (inl (PrismaError "inconsistent query result"), db)
        end
    end.

(** ** TherapistsService.getReviews *)

Module UserCard.
Record t := mk {
  firstName : string;
  lastName : string;
  avatarUrl : option string
}.
End UserCard.

Module Paged.
Record t (A : Type) := mk {
  data : list A;
  total : Z;
  page : Z;
  limit : Z;
  totalPages : Z
}.
Global Arguments mk {A} _ _ _ _ _.
Global Arguments data {A} _.
Global Arguments total {A} _.
Global Arguments page {A} _.
Global Arguments limit {A} _.
Global Arguments totalPages {A} _.
End Paged.

(** [Math.ceil(total / limit)]. *)
Definition ceilDiv (total limit : Z) : Z :=
  Qceiling (inject_Z total / inject_Z limit).

(** [skip] and [take] of a query, for a skip and a take that are not
    negative. *)
Definition skipTake {A} (skip take_ : Z) (l : list A) : list A :=
  take (Z.to_nat take_) (drop (Z.to_nat skip) l).

Section TherapistReviews.

(** The [createdAt] column of a review and the card of a user (first name,
    last name, avatar) that the query joins: both belong to parts of the
    schema that the store does not hold. *)
Variable createdAt : Review.t → Z.
Variable userOf : string → UserCard.t.

Definition newestFirst (r r' : Review.t) : Prop := createdAt r' ≤ createdAt r.

Global Instance newestFirst_dec r r' : Decision (newestFirst r r').
Proof. unfold newestFirst. apply _. Defined.

(** The user of an anonymous review is withheld. *)
Definition withUser (r : Review.t) : Review.t * option UserCard.t :=
  (r, if Review.isAnonymous r then None else Some (userOf (Review.userId r))).

(** [page] and [limit] default to 1 and 10. The embedding is for a page and
    a limit of at least 1. *)
Definition getReviews (therapistId : string) (page limit : option Z)
    : M (Paged.t (Review.t * option UserCard.t)) :=
  λ db,
    let page := default 1 page in
    let limit := default 10 limit in
    let ofTherapist :=
      findMany (λ r, Review.therapistId r = therapistId) (reviews db) in
    let reviews :=
      skipTake ((page - 1) * limit) limit (merge_sort newestFirst ofTherapist) in
    let total := Z.of_nat (length ofTherapist) in
    (inr {| Paged.data := withUser <$> reviews;
            Paged.total := total;
            Paged.page := page;
            Paged.limit := limit;
            Paged.totalPages := ceilDiv total limit |}, db).

End TherapistReviews.


(** ** PaymentsService: the saved payment methods

    The table of payment methods, keyed by id. The columns the service
    never writes are left out; [createdAt] is set by the store when the row
    is created. *)

Module PaymentMethod.
Record t := mk {
  id : string;
  userId : string;
  stripePaymentMethodId : string;
  type : string;
  brand : option string;
  last4 : option string;
  expiryMonth : option Z;
  expiryYear : option Z;
  isDefault : bool;
  createdAt : Z
}.

(** [data: { isDefault }]. *)
Definition withDefault (flag : bool) (m : t) : t :=
  mk (id m) (userId m) (stripePaymentMethodId m) (type m) (brand m) (last4 m)
     (expiryMonth m) (expiryYear m) flag (createdAt m).
End PaymentMethod.

Module MethodData.
Record t := mk {
  stripePaymentMethodId : string;
  type : string;
  brand : option string;
  last4 : option string;
  expiryMonth : option Z;
  expiryYear : option Z;
  isDefault : option bool
}.
End MethodData.

(** [where: { userId }]. *)
Definition methodsOf (userId : string) (tbl : gmap string PaymentMethod.t)
    : list PaymentMethod.t :=
  findMany (λ m, PaymentMethod.userId m = userId) tbl.

(** [updateMany({ where: { userId }, data: { isDefault } })]. *)
Definition updateManyDefault (userId : string) (flag : bool)
    (tbl : gmap string PaymentMethod.t) : gmap string PaymentMethod.t :=
  (λ m, if decide (PaymentMethod.userId m = userId)
        then PaymentMethod.withDefault flag m else m) <$> tbl.

(** [update({ where: { id }, data: { isDefault: true } })], which rejects
    with P2025 when the row is missing. *)
Definition makeDefault (id : string) (tbl : gmap string PaymentMethod.t)
    : (Exception + PaymentMethod.t) * gmap string PaymentMethod.t :=
  match tbl !! id with
  | None => (inl (PrismaError "P2025"), tbl)
  | Some m =>
      (inr (PaymentMethod.withDefault true m),
       <[id := PaymentMethod.withDefault true m]> tbl)
  end.

(** [findFirst({ where: { id, userId } })]. *)
Definition findOwned (userId paymentMethodId : string)
    (tbl : gmap string PaymentMethod.t) : option PaymentMethod.t :=
  findFirst (λ m, PaymentMethod.id m = paymentMethodId ∧
                  PaymentMethod.userId m = userId) tbl.

Definition newestMethodFirst (m m' : PaymentMethod.t) : Prop :=
  PaymentMethod.createdAt m' ≤ PaymentMethod.createdAt m.

Global Instance newestMethodFirst_dec m m' : Decision (newestMethodFirst m m').
Proof. unfold newestMethodFirst. apply _. Defined.

(** [orderBy: [{ isDefault: 'desc' }, { createdAt: 'desc' }]]. *)
Definition defaultThenNewest (m m' : PaymentMethod.t) : Prop :=
  (PaymentMethod.isDefault m = true ∧ PaymentMethod.isDefault m' = false) ∨
  (PaymentMethod.isDefault m = PaymentMethod.isDefault m' ∧
   PaymentMethod.createdAt m' ≤ PaymentMethod.createdAt m).

Global Instance defaultThenNewest_dec m m' : Decision (defaultThenNewest m m').
Proof. unfold defaultThenNewest. apply _. Defined.

Definition getPaymentMethods (userId : string) (tbl : gmap string PaymentMethod.t)
    : list PaymentMethod.t :=
  merge_sort defaultThenNewest (methodsOf userId tbl).

(** An absent [isDefault] is falsy, and is stored as false. *)
Definition addPaymentMethod (now : Z) (userId : string) (data : MethodData.t)
    (tbl : gmap string PaymentMethod.t)
    : (Exception + PaymentMethod.t) * gmap string PaymentMethod.t :=
  let existingCount := length (methodsOf userId tbl) in
  if decide (5 ≤ existingCount)%nat then
    (inl (BadRequestException "Maximum 5 payment methods allowed"), tbl)
  else
    let tbl1 :=
      if default false (MethodData.isDefault data)
      then updateManyDefault userId false tbl else tbl in
    let isDefault :=
      bool_decide (existingCount = 0%nat)
      || default false (MethodData.isDefault data) in
    let id := fresh (dom tbl1) in
    let row :=
      {| PaymentMethod.id := id;
         PaymentMethod.userId := userId;
         PaymentMethod.stripePaymentMethodId :=
           MethodData.stripePaymentMethodId data;
         PaymentMethod.type := MethodData.type data;
         PaymentMethod.brand := MethodData.brand data;
         PaymentMethod.last4 := MethodData.last4 data;
         PaymentMethod.expiryMonth := MethodData.expiryMonth data;
         PaymentMethod.expiryYear := MethodData.expiryYear data;
         PaymentMethod.isDefault := isDefault;
         PaymentMethod.createdAt := now |} in
    (inr row, <[id := row]> tbl1).

Definition setDefaultPaymentMethod (userId paymentMethodId : string)
    (tbl : gmap string PaymentMethod.t)
    : (Exception + PaymentMethod.t) * gmap string PaymentMethod.t :=
  match findOwned userId paymentMethodId tbl with
  | None => (inl (NotFoundException "Payment method not found"), tbl)
  | Some _ => makeDefault paymentMethodId (updateManyDefault userId false tbl)
  end.

(** [delete] rejects with P2025 when the row is missing; the result
    [{ success: true }] is the unit. *)
Definition deletePaymentMethod (userId paymentMethodId : string)
    (tbl : gmap string PaymentMethod.t)
    : (Exception + unit) * gmap string PaymentMethod.t :=
  match findOwned userId paymentMethodId tbl with
  | None => (inl (NotFoundException "Payment method not found"), tbl)
  | Some paymentMethod =>
      match tbl !! paymentMethodId with
      | None => (inl (PrismaError "P2025"), tbl)
      | Some _ =>
          let tbl1 := delete paymentMethodId tbl in
          if PaymentMethod.isDefault paymentMethod then
            match head (merge_sort newestMethodFirst (methodsOf userId tbl1)) with
            | Some remaining =>
                match makeDefault (PaymentMethod.id remaining) tbl1 with
                | (inr _, tbl2) => (inr (), tbl2)
                | (inl e, tbl2) => (inl e, tbl2)
                end
            | None => (inr (), tbl1)
            end
          else (inr (), tbl1)
      end
  end.

(** Requests to the payment methods of the users, served in order. *)
Inductive WalletRequest :=
| AddMethod (now : Z) (userId : string) (data : MethodData.t)
| SetDefault (userId paymentMethodId : string)
| DeleteMethod (userId paymentMethodId : string).

Definition serveWallet (req : WalletRequest) (tbl : gmap string PaymentMethod.t)
    : gmap string PaymentMethod.t :=
  match req with
  | AddMethod now userId data => (addPaymentMethod now userId data tbl).2
  | SetDefault userId id => (setDefaultPaymentMethod userId id tbl).2
  | DeleteMethod userId id => (deletePaymentMethod userId id tbl).2
  end.

Fixpoint serveWalletAll (requests : list WalletRequest)
    (tbl : gmap string PaymentMethod.t) : gmap string PaymentMethod.t :=
  match requests with
  | [] => tbl
  | req :: rest => serveWalletAll rest (serveWallet req tbl)
  end.

(** Every method is stored under its id; a user has at most one default
    method, and has one as soon as the user has a method. *)
Definition walletSound (tbl : gmap string PaymentMethod.t) : Prop :=
  (∀ k m, tbl !! k = Some m → PaymentMethod.id m = k) ∧
  (∀ k1 k2 m1 m2,
     tbl !! k1 = Some m1 → tbl !! k2 = Some m2 →
     PaymentMethod.userId m1 = PaymentMethod.userId m2 →
     PaymentMethod.isDefault m1 = true → PaymentMethod.isDefault m2 = true →
     k1 = k2) ∧
  (∀ k m, tbl !! k = Some m →
     ∃ k' m', tbl !! k' = Some m' ∧
              PaymentMethod.userId m' = PaymentMethod.userId m ∧
              PaymentMethod.isDefault m' = true).

Definition atMostFive (tbl : gmap string PaymentMethod.t) : Prop :=
  ∀ userId, (length (methodsOf userId tbl) ≤ 5)%nat.

Definition cardData (isDefault : option bool) : MethodData.t :=
  MethodData.mk "pm_1" "card" (Some "visa") (Some "4242") (Some 12) (Some 2030)
    isDefault.

Definition sampleWalletRequests : list WalletRequest :=
  [ AddMethod 1 "patient" (cardData None);
    AddMethod 2 "patient" (cardData (Some true));
    AddMethod 3 "other" (cardData None);
    AddMethod 4 "patient" (cardData None);
    SetDefault "patient" "0";
    DeleteMethod "patient" "0";
    DeleteMethod "other" "1" ].

(** The table is sound but for one user, who has no default method. *)
Definition soundExceptFor (userId : string) (tbl : gmap string PaymentMethod.t)
    : Prop :=
  (∀ k m, tbl !! k = Some m → PaymentMethod.id m = k) ∧
  (∀ k m, tbl !! k = Some m → PaymentMethod.userId m = userId →
          PaymentMethod.isDefault m = false) ∧
  (∀ k1 k2 m1 m2,
     tbl !! k1 = Some m1 → tbl !! k2 = Some m2 →
     PaymentMethod.userId m1 = PaymentMethod.userId m2 →
     PaymentMethod.isDefault m1 = true → PaymentMethod.isDefault m2 = true →
     k1 = k2) ∧
  (∀ k m, tbl !! k = Some m → PaymentMethod.userId m ≠ userId →
     ∃ k' m', tbl !! k' = Some m' ∧
              PaymentMethod.userId m' = PaymentMethod.userId m ∧
              PaymentMethod.isDefault m' = true).

(** A server zone with daylight saving: UTC until the tenth week after the
    epoch, one hour ahead of it from then on. *)
Definition summerTimeFrom (start : Z) (t : Z) : Z :=
  if decide (t < start) then 0 else hourMs.

Definition sampleZone : Z → Z := summerTimeFrom (10 * 7 * dayMs).

(** The user on whose behalf the controller passes the request. *)
Definition requester (req : WalletRequest) : string :=
  match req with
  | AddMethod _ userId _ => userId
  | SetDefault userId _ => userId
  | DeleteMethod userId _ => userId
  end.

Definition otherCard : PaymentMethod.t :=
  {| PaymentMethod.id := "0";
     PaymentMethod.userId := "other";
     PaymentMethod.stripePaymentMethodId := "pm_1";
     PaymentMethod.type := "card";
     PaymentMethod.brand := Some "visa";
     PaymentMethod.last4 := Some "4242";
     PaymentMethod.expiryMonth := Some 12;
     PaymentMethod.expiryYear := Some 2030;
     PaymentMethod.isDefault := true;
     PaymentMethod.createdAt := 3 |}.

Definition sampleWallet : gmap string PaymentMethod.t := {[ "0" := otherCard ]}.

(** * Properties *)

(** ** Table scans *)

Lemma elem_of_rows {A} (tbl : gmap string A) (a : A) :
  a ∈ rows tbl ↔ ∃ k, tbl !! k = Some a.
Proof.
  unfold rows. rewrite list_elem_of_fmap. split.
  - intros [[k a'] [-> Hin]]. exists k. by apply elem_of_map_to_list.
  - intros [k Hk]. exists (k, a). split; [done|]. by apply elem_of_map_to_list.
Qed.

Lemma findFirst_None {A} (P : A → Prop) `{!∀ x, Decision (P x)}
    (tbl : gmap string A) :
  findFirst P tbl = None ↔ ∀ k a, tbl !! k = Some a → ¬ P a.
Proof.
  unfold findFirst, findMany. rewrite head_None. split.
  - intros Hnil k a Hk HP.
    eapply (filter_nil_not_elem_of P); [exact Hnil|exact HP|].
    apply elem_of_rows. by exists k.
  - intros Hall. destruct (filter P (rows tbl)) as [|a l] eqn:Hf; [done|].
    assert (Ha : a ∈ filter P (rows tbl)) by (rewrite Hf; left).
    apply list_elem_of_filter in Ha as [HP Hin].
    apply elem_of_rows in Hin as [k Hk]. by destruct (Hall k a Hk).
Qed.

Lemma findFirst_Some {A} (P : A → Prop) `{!∀ x, Decision (P x)}
    (tbl : gmap string A) (a : A) :
  findFirst P tbl = Some a → P a ∧ ∃ k, tbl !! k = Some a.
Proof.
  unfold findFirst, findMany. intros Hh.
  apply head_Some_elem_of, list_elem_of_filter in Hh as [HP Hin].
  split; [done|]. by apply elem_of_rows.
Qed.

Lemma findFirst_is_Some {A} (P : A → Prop) `{!∀ x, Decision (P x)}
    (tbl : gmap string A) :
  is_Some (findFirst P tbl) ↔ ∃ k a, tbl !! k = Some a ∧ P a.
Proof.
  split.
  - intros [a Ha]. apply findFirst_Some in Ha as [HP [k Hk]]. by exists k, a.
  - intros (k & a & Hk & HP).
    destruct (findFirst P tbl) eqn:Hf; [by eexists|].
    rewrite findFirst_None in Hf. by destruct (Hf k a Hk).
Qed.

(** ** Refund tiers *)

Lemma hours_gt (n scheduledAt now : Z) :
  (inject_Z n < hoursUntilAppointment scheduledAt now)%Q ↔
  n * hourMs < scheduledAt - now.
Proof.
  unfold hoursUntilAppointment, hourMs, Qlt, Qdiv, Qmult, Qinv, inject_Z.
  simpl. lia.
Qed.

Lemma refundPercentage_cases (scheduledAt now : Z) :
  refundPercentage scheduledAt now =
    if decide (24 * hourMs < scheduledAt - now) then 100
    else if decide (2 * hourMs < scheduledAt - now) then 50
    else 0.
Proof.
  unfold refundPercentage.
  destruct (Qlt_le_dec 24 _) as [H24|H24].
  - apply (hours_gt 24) in H24. by rewrite decide_True.
  - apply Qle_not_lt in H24. rewrite (hours_gt 24) in H24.
    rewrite decide_False by done.
    destruct (Qlt_le_dec 2 _) as [H2|H2].
    + apply (hours_gt 2) in H2. by rewrite decide_True.
    + apply Qle_not_lt in H2. rewrite (hours_gt 2) in H2.
      by rewrite decide_False.
Qed.

(** C3: the refund percentage computed by [cancel] depends on
    [scheduledAt - now] only: strictly more than 24 hours before the start
    it is 100, at most 24 hours but strictly more than 2 hours it is 50, and
    2 hours or less it is 0. *)
Theorem refund_tiers (scheduledAt now : Z) :
  (24 * hourMs < scheduledAt - now → refundPercentage scheduledAt now = 100) ∧
  (2 * hourMs < scheduledAt - now ≤ 24 * hourMs →
     refundPercentage scheduledAt now = 50) ∧
  (scheduledAt - now ≤ 2 * hourMs → refundPercentage scheduledAt now = 0) ∧
  (∀ scheduledAt' now', scheduledAt' - now' = scheduledAt - now →
     refundPercentage scheduledAt' now' = refundPercentage scheduledAt now).
Proof.
  repeat split.
  - intros H. rewrite refundPercentage_cases. by rewrite decide_True.
  - intros [H2 H24]. rewrite refundPercentage_cases.
    rewrite decide_False by lia. by rewrite decide_True.
  - intros H. rewrite refundPercentage_cases.
    rewrite decide_False by (unfold hourMs in *; lia).
    by rewrite decide_False by lia.
  - intros s' n' Heq. rewrite !refundPercentage_cases, Heq. done.
Qed.

(** Cancelling exactly 24h before the start yields 50, exactly 2h before
    yields 0, and 24h0m1s before yields 100. *)
Lemma refund_tiers_witness :
  refundPercentage (100 * hourMs) (76 * hourMs) = 50 ∧
  refundPercentage (100 * hourMs) (98 * hourMs) = 0 ∧
  refundPercentage (100 * hourMs) (76 * hourMs - 1000) = 100.
Proof.
  destruct (refund_tiers (100 * hourMs) (76 * hourMs)) as (_ & H50 & _ & _).
  destruct (refund_tiers (100 * hourMs) (98 * hourMs)) as (_ & _ & H0 & _).
  destruct (refund_tiers (100 * hourMs) (76 * hourMs - 1000)) as (H100 & _).
  split; [apply H50; vm_compute; split; [reflexivity | discriminate]|].
  split; [apply H0; vm_compute; discriminate|].
  apply H100; vm_compute; reflexivity.
Defined.

(** ** The four transitions, step by step *)

Section Transitions.

Variable dispatch : Notification → option string.

Variables (db : Db) (id : string) (a : Appointment.t) (th : Therapist.t).
Hypothesis Happointment : appointments db !! id = Some a.
Hypothesis Htherapist : therapists db !! Appointment.therapistId a = Some th.

Lemma include_therapist_found :
  appointment_findUnique_include_therapist id db = (inr (Some (a, th)), db).
Proof.
  unfold appointment_findUnique_include_therapist.
  by rewrite Happointment, Htherapist.
Qed.

Lemma appointment_update_found (data : Appointment.update) :
  appointment_update id data db = (inr (Appointment.apply data a), updated db id a data).
Proof. unfold appointment_update. by rewrite Happointment. Qed.

Lemma confirm_run (now : Z) (userId : string) :
  confirm dispatch now id userId db =
    if decide (Therapist.userId th ≠ userId) then
      (inl (ForbiddenException "Not authorized"), db)
    else if decide (Appointment.status a ≠ PENDING) then
      (inl (BadRequestException "Appointment cannot be confirmed"), db)
    else
      notified dispatch db id a (BookingConfirmation (Appointment.userId a) (Appointment.id a))
               (confirmData now).
Proof.
  unfold confirm, mbind, M_bind. rewrite include_therapist_found.
  repeat case_decide; try done.
  rewrite appointment_update_found. unfold notified, notify.
  by destruct (dispatch _).
Qed.

Lemma decline_run (now : Z) (userId : string) (reason : option string) :
  decline dispatch now id userId reason db =
    if decide (Therapist.userId th ≠ userId) then
      (inl (ForbiddenException "Not authorized"), db)
    else if decide (Appointment.status a ≠ PENDING) then
      (inl (BadRequestException "Only pending appointments can be declined"), db)
    else
      notified dispatch db id a (BookingDeclined (Appointment.userId a) (Appointment.id a) reason)
               (declineData now reason).
Proof.
  unfold decline, mbind, M_bind. rewrite include_therapist_found.
  repeat case_decide; try done.
  rewrite appointment_update_found. unfold notified, notify.
  by destruct (dispatch _).
Qed.

Lemma cancel_run (now : Z) (userId reason : string) (isTherapist : bool) :
  cancel dispatch now id userId reason isTherapist db =
    if decide (isTherapist = false ∧ Appointment.userId a ≠ userId) then
      (inl (ForbiddenException "Not authorized"), db)
    else if decide (isTherapist = true ∧ Therapist.userId th ≠ userId) then
      (inl (ForbiddenException "Not authorized"), db)
    else if decide (Appointment.status a = COMPLETED ∨
                    Appointment.status a = CANCELLED) then
      (inl (BadRequestException "Appointment cannot be cancelled"), db)
    else
      notified dispatch db id a (AppointmentCancelled
                  (if isTherapist then Appointment.userId a else Therapist.userId th)
                  (Appointment.id a) reason)
               (cancelData now reason).
Proof.
  unfold cancel, mbind, M_bind. rewrite include_therapist_found.
  repeat case_decide; try done.
  rewrite appointment_update_found. unfold notified, notify.
  by destruct isTherapist; destruct (dispatch _).
Qed.

Lemma complete_run (now : Z) (userId : string) (sessionNotes : option string) :
  complete now id userId sessionNotes db =
    if decide (Therapist.userId th ≠ userId) then
      (inl (ForbiddenException "Not authorized"), db)
    else
      (inr (Appointment.apply (completeData now sessionNotes) a),
       updated db id a (completeData now sessionNotes)).
Proof.
  unfold complete, mbind, M_bind. rewrite include_therapist_found.
  case_decide; [done|]. by rewrite appointment_update_found.
Qed.

End Transitions.

(** ** Frame of the transitions *)

Lemma notified_outcome dispatch db id a n data :
  transitionOutcome db id (Appointment.apply data a) (notified dispatch db id a n data).
Proof.
  unfold notified, transitionOutcome, updated. right.
  destruct (dispatch n); simpl; eauto.
Qed.

Lemma rejected_outcome db id a' (e : Exception) :
  transitionOutcome db id a' (inl e, db).
Proof. left. simpl. eauto. Qed.

(** C10: confirm, decline, cancel and complete leave the appointment's
    amount, patient id, therapist id, scheduledAt and duration (and its id,
    timezone, type and booking notes) as they were: the row they store
    differs from the old one only in status, in the timestamp of the
    transition and in the transition's own field (cancellationReason,
    sessionNotes), and no other row is written. *)
Theorem transitions_keep_frame dispatch db id a :
  appointments db !! id = Some a →
  transitionsFrame dispatch db id a.
Proof.
  intros Ha now userId.
  destruct (therapists db !! Appointment.therapistId a) as [th|] eqn:Hth.
  - repeat split; intros.
    + rewrite (confirm_run dispatch db id a th Ha Hth).
      repeat case_decide; try apply rejected_outcome.
      apply (notified_outcome dispatch db id a).
    + rewrite (decline_run dispatch db id a th Ha Hth).
      repeat case_decide; try apply rejected_outcome.
      apply (notified_outcome dispatch db id a).
    + rewrite (cancel_run dispatch db id a th Ha Hth).
      repeat case_decide; try apply rejected_outcome.
      apply (notified_outcome dispatch db id a).
    + rewrite (complete_run db id a th Ha Hth).
      case_decide; [apply rejected_outcome|].
      right. simpl. split; [|left]; by destruct sessionNotes.
  - repeat split; intros;
      unfold confirm, decline, cancel, complete, mbind, M_bind,
        appointment_findUnique_include_therapist;
      rewrite Ha, Hth; apply rejected_outcome.
Qed.

Lemma transitions_keep_frame_witness :
  transitionsFrame delivers sampleDb "a3" (sampleAppointment "a3" PENDING).
Proof.
  apply (transitions_keep_frame delivers sampleDb "a3"
           (sampleAppointment "a3" PENDING)).
  vm_compute. reflexivity.
Defined.

(** ** Transitions out of a terminal status *)

(** [confirm] and [decline] reject every appointment that is not PENDING,
    a terminal one included, and write nothing. *)
Lemma confirm_decline_reject_terminal dispatch db id a th now userId reason :
  appointments db !! id = Some a →
  therapists db !! Appointment.therapistId a = Some th →
  terminal (Appointment.status a) →
  (∃ message,
     confirm dispatch now id userId db = (inl (ForbiddenException message), db) ∨
     confirm dispatch now id userId db = (inl (BadRequestException message), db)) ∧
  (∃ message,
     decline dispatch now id userId reason db
       = (inl (ForbiddenException message), db) ∨
     decline dispatch now id userId reason db
       = (inl (BadRequestException message), db)).
Proof.
  intros Ha Hth Hterm.
  assert (Hnp : Appointment.status a ≠ PENDING).
  { destruct Hterm as [H|[H|H]]; rewrite H; discriminate. }
  rewrite (confirm_run dispatch db id a th Ha Hth).
  rewrite (decline_run dispatch db id a th Ha Hth).
  split; repeat case_decide; try done; eauto.
Qed.

(** [cancel] rejects COMPLETED and CANCELLED appointments and writes
    nothing. *)
Lemma cancel_rejects_completed_cancelled
    dispatch db id a th now userId reason isTherapist :
  appointments db !! id = Some a →
  therapists db !! Appointment.therapistId a = Some th →
  Appointment.status a = COMPLETED ∨ Appointment.status a = CANCELLED →
  ∃ message,
    cancel dispatch now id userId reason isTherapist db
      = (inl (ForbiddenException message), db) ∨
    cancel dispatch now id userId reason isTherapist db
      = (inl (BadRequestException message), db).
Proof.
  intros Ha Hth Hst.
  rewrite (cancel_run dispatch db id a th Ha Hth).
  repeat case_decide; try done; eauto.
Qed.

(** [complete] has no guard on the status: whatever the status of the
    appointment, its therapist completes it. *)
Lemma complete_in_any_status db id a th now sessionNotes :
  appointments db !! id = Some a →
  therapists db !! Appointment.therapistId a = Some th →
  ∃ a',
    complete now id (Therapist.userId th) sessionNotes db
      = (inr a', with_appointments (insert id a') db) ∧
    Appointment.status a' = COMPLETED ∧
    Appointment.completedAt a' = Some now.
Proof.
  intros Ha Hth. rewrite (complete_run db id a th Ha Hth).
  rewrite decide_False by (intros H; by apply H).
  eexists. split; [reflexivity|]. done.
Qed.

(** [cancel] lets a NO_SHOW appointment through: the guard names COMPLETED
    and CANCELLED only. *)
Lemma cancel_no_show_by_patient dispatch db id a th now reason :
  appointments db !! id = Some a →
  therapists db !! Appointment.therapistId a = Some th →
  Appointment.status a = NO_SHOW →
  (cancel dispatch now id (Appointment.userId a) reason false db).2
    = with_appointments
        (insert id (Appointment.apply (cancelData now reason) a)) db.
Proof.
  intros Ha Hth Hst. rewrite (cancel_run dispatch db id a th Ha Hth).
  rewrite decide_False by (intros [_ H]; by apply H).
  rewrite decide_False by (intros [H _]; discriminate).
  rewrite decide_False by (rewrite Hst; intros [H|H]; discriminate).
  unfold notified, updated. by destruct (dispatch _).
Qed.

(** C1 (refuted): on the sample store the therapist completes the
    CANCELLED appointment "a1", which becomes COMPLETED, and the patient
    cancels the NO_SHOW appointment "a2", which becomes CANCELLED: both
    transitions out of a terminal status succeed and rewrite the row. *)
Theorem terminal_status_left_by_complete_and_cancel :
  (∃ a' db',
     complete 7 "a1" "doc" None sampleDb = (inr a', db') ∧
     appointments sampleDb !! "a1" = Some (sampleAppointment "a1" CANCELLED) ∧
     appointments db' !! "a1" = Some a' ∧
     Appointment.status a' = COMPLETED ∧
     Appointment.completedAt a' = Some 7) ∧
  (∃ a' db',
     cancel delivers 7 "a2" "patient" "too late" false sampleDb = (inr a', db') ∧
     appointments sampleDb !! "a2" = Some (sampleAppointment "a2" NO_SHOW) ∧
     appointments db' !! "a2" = Some a' ∧
     Appointment.status a' = CANCELLED ∧
     Appointment.cancelledAt a' = Some 7).
Proof.
  split; eexists; eexists; (split; [vm_compute; reflexivity|]);
    vm_compute; done.
Qed.

(** C2 (refuted): on the sample store the therapist completes the PENDING
    appointment "a3": no invalid-state error is raised, the status becomes
    COMPLETED, completedAt is set and the session notes are attached. The
    earlier revision of [complete] does the same. *)
Theorem complete_pending_succeeds :
  appointments sampleDb !! "a3" = Some (sampleAppointment "a3" PENDING) ∧
  (∃ a' db',
     complete 7 "a3" "doc" (Some "first session") sampleDb = (inr a', db') ∧
     appointments db' !! "a3" = Some a' ∧
     Appointment.status a' = COMPLETED ∧
     Appointment.completedAt a' = Some 7 ∧
     Appointment.sessionNotes a' = Some "first session") ∧
  (∃ a' db',
     Legacy.complete 7 "a3" "t1" (Some "first session") sampleDb = (inr a', db') ∧
     appointments db' !! "a3" = Some a' ∧
     Appointment.status a' = COMPLETED ∧
     Appointment.completedAt a' = Some 7 ∧
     Appointment.sessionNotes a' = Some "first session").
Proof.
  split; [vm_compute; reflexivity|].
  split; eexists; eexists; (split; [vm_compute; reflexivity|]);
    vm_compute; done.
Qed.

(** C4 (refuted): the patient cancels the PENDING appointment "a3" 30 hours
    before its start. The tier computed is 100, but what [cancel] returns is
    the updated appointment alone: the status CANCELLED, the reason and
    cancelledAt, with no refund percentage in it. The earlier revision
    returns the same row. *)
Theorem cancel_returns_appointment_without_refund :
  refundPercentage (100 * hourMs) (70 * hourMs) = 100 ∧
  (cancel delivers (70 * hourMs) "a3" "patient" "change of plans" false sampleDb).1
    = inr (Appointment.mk "a3" "patient" "t1" (100 * hourMs) 60 "UTC" SCHEDULED
             CANCELLED 5000 None None (Some "change of plans")
             None None (Some (70 * hourMs))) ∧
  (Legacy.cancel (70 * hourMs) "a3" "patient" "change of plans" false sampleDb).1
    = inr (Appointment.mk "a3" "patient" "t1" (100 * hourMs) 60 "UTC" SCHEDULED
             CANCELLED 5000 None None (Some "change of plans")
             None None (Some (70 * hourMs))).
Proof. repeat split; vm_compute; reflexivity. Qed.

(** ** Booking *)

Lemma create_run dispatch data db :
  create dispatch data db =
    match therapists db !! CreateData.therapistId data with
    | None => (inl (NotFoundException "Therapist not found"), db)
    | Some therapist =>
        match findFirst (conflictsWith data) (appointments db) with
        | Some _ => (inl (BadRequestException "Time slot is not available"), db)
        | None =>
            let id := fresh (dom (appointments db)) in
            let db' := with_appointments (insert id (createRow data id)) db in
            match dispatch (BookingRequest (Therapist.userId therapist) id) with
            | None => (inr (createRow data id), db')
            | Some reason => (inl (NotificationError reason), db')
            end
        end
    end.
Proof.
  unfold create, mbind, M_bind, therapist_findUnique, appointment_findFirst.
  destruct (therapists db !! _) as [therapist|]; [|done].
  destruct (findFirst _ _); [done|].
  unfold appointment_create, notify. simpl.
  by destruct (dispatch _).
Qed.

Lemma fresh_key_unused {A} (tbl : gmap string A) : tbl !! fresh (dom tbl) = None.
Proof. apply not_elem_of_dom, is_fresh. Qed.

Lemma conflict_taken data db :
  is_Some (findFirst (conflictsWith data) (appointments db)) ↔ slotTaken data db.
Proof.
  rewrite findFirst_is_Some. unfold conflictsWith, slotTaken.
  split; intros (k & a & Hk & Ht & Hs & Hst); exists k, a;
    repeat split; try done.
  - apply elem_of_cons in Hst as [?|Hst]; [by left|].
    apply elem_of_cons in Hst as [?|Hst]; [by right|].
    by apply elem_of_nil in Hst.
  - destruct Hst as [->| ->]; [left|right; left].
Qed.

(** C5: booking fails with NotFound when the therapist id is unknown; for
    a known therapist it fails with the slot conflict (raised as a bad
    request, "Time slot is not available") exactly when a PENDING or
    CONFIRMED appointment of that therapist has the same scheduledAt
    instant, and then nothing is written; otherwise a new PENDING
    appointment is stored under an unused key and, the therapist being
    notified, returned. *)
Theorem create_not_found_conflict_or_pending dispatch data db :
  (therapists db !! CreateData.therapistId data = None →
     create dispatch data db
       = (inl (NotFoundException "Therapist not found"), db)) ∧
  (is_Some (therapists db !! CreateData.therapistId data) →
     ((create dispatch data db).1
        = inl (BadRequestException "Time slot is not available")
      ↔ slotTaken data db) ∧
     (slotTaken data db → (create dispatch data db).2 = db) ∧
     (¬ slotTaken data db →
        ∃ id,
          appointments db !! id = None ∧
          appointments (create dispatch data db).2
            = <[id := createRow data id]> (appointments db) ∧
          Appointment.status (createRow data id) = PENDING ∧
          ((create dispatch data db).1 = inr (createRow data id) ∨
           ∃ reason, (create dispatch data db).1 = inl (NotificationError reason)) ∧
          ((∀ n, dispatch n = None) →
             (create dispatch data db).1 = inr (createRow data id)))).
Proof.
  rewrite create_run. split.
  - by intros ->.
  - intros [therapist ->]. pose proof (conflict_taken data db) as Htaken.
    destruct (findFirst _ _) as [c|] eqn:Hc.
    + assert (Hex : slotTaken data db) by (apply Htaken; eauto).
      repeat split; done.
    + assert (Hno : ¬ slotTaken data db).
      { intros Hex. apply Htaken in Hex. by destruct Hex. }
      split; [|split].
      * simpl. destruct (dispatch _); simpl; split; done.
      * done.
      * intros _. exists (fresh (dom (appointments db))).
        split; [apply fresh_key_unused|].
        simpl. destruct (dispatch _) eqn:Hd; simpl;
          repeat split; eauto.
        intros Hall. by rewrite Hall in Hd.
Qed.

(** On the sample store: an unknown therapist is not found; the instant of
    the PENDING appointment is taken; a quarter of an hour later, inside that
    appointment's 60 minutes, the slot is free; and without the PENDING and
    CONFIRMED appointments the same instant is free although CANCELLED,
    NO_SHOW and COMPLETED appointments start at it. *)
Lemma create_not_found_conflict_or_pending_witness :
  create delivers (sampleRequest "t9" (100 * hourMs)) sampleDb
    = (inl (NotFoundException "Therapist not found"), sampleDb) ∧
  (create delivers (sampleRequest "t1" (100 * hourMs)) sampleDb).1
    = inl (BadRequestException "Time slot is not available") ∧
  (∃ id, (create delivers (sampleRequest "t1" (100 * hourMs + 900000)) sampleDb).1
           = inr (createRow (sampleRequest "t1" (100 * hourMs + 900000)) id)) ∧
  (∃ id, (create delivers (sampleRequest "t1" (100 * hourMs)) terminalOnlyDb).1
           = inr (createRow (sampleRequest "t1" (100 * hourMs)) id)).
Proof.
  split; [|split; [|split]].
  - apply (create_not_found_conflict_or_pending delivers
             (sampleRequest "t9" (100 * hourMs)) sampleDb).
    vm_compute. reflexivity.
  - apply (create_not_found_conflict_or_pending delivers
             (sampleRequest "t1" (100 * hourMs)) sampleDb).
    + vm_compute. eauto.
    + exists "a3", (sampleAppointment "a3" PENDING). vm_compute. auto.
  - destruct (create_not_found_conflict_or_pending delivers
                (sampleRequest "t1" (100 * hourMs + 900000)) sampleDb)
      as [_ Hknown].
    destruct Hknown as (_ & _ & Hfree); [vm_compute; eauto|].
    destruct Hfree as (id & _ & _ & _ & _ & Hret).
    + rewrite <- conflict_taken. vm_compute. intros [c Hc]. discriminate.
    + exists id. apply Hret. reflexivity.
  - destruct (create_not_found_conflict_or_pending delivers
                (sampleRequest "t1" (100 * hourMs)) terminalOnlyDb)
      as [_ Hknown].
    destruct Hknown as (_ & _ & Hfree); [vm_compute; eauto|].
    destruct Hfree as (id & _ & _ & _ & _ & Hret).
    + rewrite <- conflict_taken. vm_compute. intros [c Hc]. discriminate.
    + exists id. apply Hret. reflexivity.
Defined.

(** ** The earlier revision *)

(** Booking in the earlier revision is booking with a sender that always
    delivers. *)
Lemma legacy_create_delivers data db :
  Legacy.create data db = create delivers data db.
Proof.
  rewrite create_run.
  unfold Legacy.create, mbind, M_bind, therapist_findUnique, appointment_findFirst.
  destruct (therapists db !! _); [|done].
  by destruct (findFirst _ _).
Qed.

Lemma legacy_complete_run db id a now therapistId sessionNotes :
  appointments db !! id = Some a →
  Legacy.complete now id therapistId sessionNotes db =
    if decide (Appointment.therapistId a ≠ therapistId) then
      (inl (ForbiddenException "Not authorized"), db)
    else
      (inr (Appointment.apply (completeData now sessionNotes) a),
       updated db id a (completeData now sessionNotes)).
Proof.
  intros Ha. unfold Legacy.complete, mbind, M_bind, appointment_findUnique.
  rewrite Ha. case_decide; [done|].
  unfold appointment_update. by rewrite Ha.
Qed.

Lemma legacy_cancel_run db id a now userId reason isTherapist :
  appointments db !! id = Some a →
  Legacy.cancel now id userId reason isTherapist db =
    if decide (isTherapist = false ∧ Appointment.userId a ≠ userId) then
      (inl (ForbiddenException "Not authorized"), db)
    else if decide (isTherapist = true ∧ Appointment.therapistId a ≠ userId) then
      (inl (ForbiddenException "Not authorized"), db)
    else if decide (Appointment.status a = COMPLETED ∨
                    Appointment.status a = CANCELLED) then
      (inl (BadRequestException "Appointment cannot be cancelled"), db)
    else
      (inr (Appointment.apply (cancelData now reason) a),
       updated db id a (cancelData now reason)).
Proof.
  intros Ha. unfold Legacy.cancel, mbind, M_bind, appointment_findUnique.
  rewrite Ha. repeat case_decide; try done.
  unfold appointment_update. by rewrite Ha.
Qed.

(** ** Notification failures *)

(** C8 (refuted as stated): with a sender that rejects, booking a free slot
    on the sample store ends in the sender's rejection. *)
Lemma create_surfaces_dispatch_failure :
  ¬ dispatchFailureSwallowed
      (λ dispatch, create dispatch (sampleRequest "t1" (100 * hourMs + 900000))).
Proof.
  intros Hswallowed.
  apply (Hswallowed rejects sampleDb "push failed").
  vm_compute. reflexivity.
Qed.

Section DispatchFailure.

Variables (ok bad : Notification → option string) (reason : string).
Hypothesis Hok : ∀ n, ok n = None.
Hypothesis Hbad : ∀ n, bad n = Some reason.

Lemma notified_ok_bad db id a n n' data r db' :
  notified ok db id a n data = (inr r, db') →
  notified bad db id a n' data = (inl (NotificationError reason), db') ∧
  appointments db' !! id = Some r.
Proof.
  unfold notified. rewrite Hok, Hbad. intros [= <- <-].
  split; [done|]. unfold updated. simpl. apply lookup_insert_eq.
Qed.

Ltac missing_row Ha :=
  unfold confirm, decline, cancel, mbind, M_bind,
    appointment_findUnique_include_therapist;
  rewrite Ha; try discriminate.

Lemma confirm_ok_bad db now id userId r db' :
  confirm ok now id userId db = (inr r, db') →
  confirm bad now id userId db = (inl (NotificationError reason), db') ∧
  appointments db' !! id = Some r.
Proof.
  destruct (appointments db !! id) as [a|] eqn:Ha; [|missing_row Ha].
  destruct (therapists db !! Appointment.therapistId a) as [th|] eqn:Hth;
    [|missing_row Ha; rewrite Hth; discriminate].
  rewrite !(confirm_run _ db id a th Ha Hth).
  repeat case_decide; try discriminate. apply notified_ok_bad.
Qed.

Lemma decline_ok_bad db now id userId why r db' :
  decline ok now id userId why db = (inr r, db') →
  decline bad now id userId why db = (inl (NotificationError reason), db') ∧
  appointments db' !! id = Some r.
Proof.
  destruct (appointments db !! id) as [a|] eqn:Ha; [|missing_row Ha].
  destruct (therapists db !! Appointment.therapistId a) as [th|] eqn:Hth;
    [|missing_row Ha; rewrite Hth; discriminate].
  rewrite !(decline_run _ db id a th Ha Hth).
  repeat case_decide; try discriminate. apply notified_ok_bad.
Qed.

Lemma cancel_ok_bad db now id userId why isTherapist r db' :
  cancel ok now id userId why isTherapist db = (inr r, db') →
  cancel bad now id userId why isTherapist db
    = (inl (NotificationError reason), db') ∧
  appointments db' !! id = Some r.
Proof.
  destruct (appointments db !! id) as [a|] eqn:Ha; [|missing_row Ha].
  destruct (therapists db !! Appointment.therapistId a) as [th|] eqn:Hth;
    [|missing_row Ha; rewrite Hth; discriminate].
  rewrite !(cancel_run _ db id a th Ha Hth).
  repeat case_decide; try discriminate. apply notified_ok_bad.
Qed.

Lemma create_ok_bad db data r db' :
  create ok data db = (inr r, db') →
  create bad data db = (inl (NotificationError reason), db') ∧
  appointments db' !! Appointment.id r = Some r.
Proof.
  rewrite !create_run.
  destruct (therapists db !! _); [|discriminate].
  destruct (findFirst _ _); [discriminate|].
  simpl. rewrite Hok, Hbad. intros [= <- <-].
  split; [done|]. simpl. apply lookup_insert_eq.
Qed.

End DispatchFailure.

(** C8 (amended): when the sender rejects the notification of a create,
    confirm, decline or cancel whose guards pass, the row written before the
    dispatch stays written (the store is the one a delivered notification
    leaves), and the sender's rejection is the result of the operation:
    the call sites have no handler. *)
Theorem dispatch_failure_surfaces_after_commit
    (ok bad : Notification → option string) (reason : string) (db : Db) :
  (∀ n, ok n = None) →
  (∀ n, bad n = Some reason) →
  (∀ data r db',
     create ok data db = (inr r, db') →
     create bad data db = (inl (NotificationError reason), db') ∧
     appointments db' !! Appointment.id r = Some r) ∧
  (∀ now id userId r db',
     confirm ok now id userId db = (inr r, db') →
     confirm bad now id userId db = (inl (NotificationError reason), db') ∧
     appointments db' !! id = Some r) ∧
  (∀ now id userId why r db',
     decline ok now id userId why db = (inr r, db') →
     decline bad now id userId why db = (inl (NotificationError reason), db') ∧
     appointments db' !! id = Some r) ∧
  (∀ now id userId why isTherapist r db',
     cancel ok now id userId why isTherapist db = (inr r, db') →
     cancel bad now id userId why isTherapist db
       = (inl (NotificationError reason), db') ∧
     appointments db' !! id = Some r).
Proof.
  intros Hok Hbad. split; [|split; [|split]]; intros.
  - by apply (create_ok_bad ok bad reason Hok Hbad).
  - by apply (confirm_ok_bad ok bad reason Hok Hbad).
  - by apply (decline_ok_bad ok bad reason Hok Hbad).
  - by apply (cancel_ok_bad ok bad reason Hok Hbad).
Qed.

(** The therapist confirms the PENDING appointment of the sample store
    while the sender rejects: the result is the rejection, and the stored
    appointment is CONFIRMED. *)
Lemma dispatch_failure_surfaces_after_commit_witness :
  (confirm rejects 7 "a3" "doc" sampleDb).1
    = inl (NotificationError "push failed") ∧
  Appointment.status
    <$> appointments (confirm rejects 7 "a3" "doc" sampleDb).2 !! "a3"
    = Some CONFIRMED.
Proof.
  destruct (dispatch_failure_surfaces_after_commit delivers rejects
              "push failed" sampleDb (λ _, eq_refl) (λ _, eq_refl))
    as (_ & Hconfirm & _).
  destruct (Hconfirm 7 "a3" "doc"
              (Appointment.apply (confirmData 7) (sampleAppointment "a3" PENDING))
              (confirm delivers 7 "a3" "doc" sampleDb).2) as [Hres Hrow].
  - vm_compute. reflexivity.
  - rewrite Hres. simpl. split; [reflexivity|]. rewrite Hrow. reflexivity.
Defined.

(** A run that returns a value is that value paired with the store it
    leaves. *)
Lemma surjective_pairing_inr {A} (run : (Exception + A) * Db) (x : A) :
  run.1 = inr x → run = (inr x, run.2).
Proof. destruct run as [r db]. simpl. by intros ->. Qed.

(** ** Reviews *)

Lemma addReview_run appointmentId userId data db :
  addReview appointmentId userId data db =
    match appointments db !! appointmentId with
    | None => (inl (NotFoundException "Appointment not found"), db)
    | Some a =>
        if decide (Appointment.userId a ≠ userId) then
          (inl (ForbiddenException "Not authorized"), db)
        else if decide (Appointment.status a ≠ COMPLETED) then
          (inl (BadRequestException "Can only review completed appointments"), db)
        else
          match findFirst (λ r, Review.appointmentId r = appointmentId)
                          (reviews db) with
          | Some _ => (inl (PrismaError "P2002"), db)
          | None =>
              let id := fresh (dom (reviews db)) in
              let r := reviewRow a appointmentId userId data id in
              let db1 := with_reviews (insert id r) db in
              let stats :=
                aggregate (ratingsOf (Appointment.therapistId a) (reviews db1)) in
              match therapists db !! Appointment.therapistId a with
              | None => (inl (PrismaError "P2025"), db1)
              | Some th =>
                  (inr r,
                   with_therapists
                     (insert (Appointment.therapistId a)
                        (Therapist.mk (Therapist.id th) (Therapist.userId th)
                           (default 0%Q (_avg stats)) (_count stats)))
                     db1)
              end
          end
    end.
Proof.
  unfold addReview, mbind, M_bind, appointment_findUnique.
  destruct (appointments db !! appointmentId) as [a|]; [|done].
  repeat case_decide; try done.
  unfold review_create. simpl.
  destruct (findFirst _ (reviews db)); [done|].
  unfold review_aggregate, therapist_update. simpl.
  by destruct (therapists db !! _).
Qed.

Lemma addReview_keeps_appointments appointmentId userId data db :
  appointments (addReview appointmentId userId data db).2 = appointments db.
Proof.
  rewrite addReview_run.
  destruct (appointments db !! appointmentId); [|done].
  repeat case_decide; try done.
  destruct (findFirst _ _); [done|]. simpl.
  by destruct (therapists db !! _).
Qed.

Lemma addReview_reviews appointmentId userId data db :
  reviews (addReview appointmentId userId data db).2 = reviews db ∨
  ∃ a,
    appointments db !! appointmentId = Some a ∧
    findFirst (λ r, Review.appointmentId r = appointmentId) (reviews db) = None ∧
    reviews (addReview appointmentId userId data db).2
      = <[fresh (dom (reviews db)) :=
            reviewRow a appointmentId userId data (fresh (dom (reviews db)))]>
          (reviews db).
Proof.
  rewrite addReview_run.
  destruct (appointments db !! appointmentId) as [a|]; [|by left].
  repeat case_decide; try by left.
  destruct (findFirst _ _) eqn:Hf; [by left|]. right. exists a.
  split; [done|split; [done|]]. simpl. by destruct (therapists db !! _).
Qed.

Lemma addReview_keeps_uniqueness appointmentId userId data db :
  oneReviewPerAppointment db →
  oneReviewPerAppointment (addReview appointmentId userId data db).2.
Proof.
  intros Huniq.
  destruct (addReview_reviews appointmentId userId data db)
    as [Hsame|(a & Ha & Hnone & Hins)].
  - unfold oneReviewPerAppointment. rewrite Hsame. apply Huniq.
  - unfold oneReviewPerAppointment. rewrite Hins.
    rewrite findFirst_None in Hnone.
    intros k1 k2 r1 r2 H1 H2 Heq.
    rewrite lookup_insert in H1. rewrite lookup_insert in H2.
    destruct (decide (fresh (dom (reviews db)) = k1)) as [E1|N1];
      destruct (decide (fresh (dom (reviews db)) = k2)) as [E2|N2].
    + by rewrite <- E1, <- E2.
    + injection H1 as <-. simpl in Heq. by destruct (Hnone k2 r2 H2).
    + injection H2 as <-. simpl in Heq. by destruct (Hnone k1 r1 H1).
    + by eapply Huniq.
Qed.

(** A row for the appointment is in the table: the uniqueness check finds
    it. *)
Lemma review_found appointmentId (tbl : gmap string Review.t) k r :
  tbl !! k = Some r →
  Review.appointmentId r = appointmentId →
  is_Some (findFirst (λ r', Review.appointmentId r' = appointmentId) tbl).
Proof. intros Hk Hr. apply findFirst_is_Some. by exists k, r. Qed.

Lemma addReview_existing_fails appointmentId userId data db k r :
  reviews db !! k = Some r →
  Review.appointmentId r = appointmentId →
  ∃ e, addReview appointmentId userId data db = (inl e, db).
Proof.
  intros Hk Hr. rewrite addReview_run.
  destruct (appointments db !! appointmentId); [|eauto].
  repeat case_decide; eauto.
  destruct (review_found appointmentId (reviews db) k r Hk Hr) as [c ->].
  eauto.
Qed.

(** C7: once a review of an appointment is stored, a second submission for
    that appointment is rejected by the uniqueness constraint (the store's
    P2002, the spec's Conflict) and the store, with it the therapist's
    averageRating and totalReviews, is left as it was; every failing
    submission for an appointment that has a review writes nothing; and
    [addReview] keeps the reviews at one per appointment at most. *)
Theorem second_review_rejected appointmentId userId data db :
  (∀ r db1,
     addReview appointmentId userId data db = (inr r, db1) →
     ∀ data2,
       addReview appointmentId userId data2 db1
         = (inl (PrismaError "P2002"), db1)) ∧
  ((∃ k r, reviews db !! k = Some r ∧ Review.appointmentId r = appointmentId) →
     ∃ e, addReview appointmentId userId data db = (inl e, db)) ∧
  (oneReviewPerAppointment db →
     oneReviewPerAppointment (addReview appointmentId userId data db).2).
Proof.
  split; [|split].
  - intros r db1. rewrite addReview_run.
    destruct (appointments db !! appointmentId) as [a|] eqn:Ha; [|discriminate].
    destruct (decide (Appointment.userId a ≠ userId)) as [|Hu]; [discriminate|].
    destruct (decide (Appointment.status a ≠ COMPLETED)) as [|Hs];
      [discriminate|].
    destruct (findFirst _ _); [discriminate|]. simpl.
    destruct (therapists db !! _); [|discriminate].
    intros [= <- <-] data2. rewrite addReview_run. simpl. rewrite Ha.
    rewrite decide_False by done. rewrite decide_False by done.
    destruct (review_found appointmentId
                (<[fresh (dom (reviews db)) :=
                     reviewRow a appointmentId userId data
                       (fresh (dom (reviews db)))]> (reviews db))
                (fresh (dom (reviews db)))
                (reviewRow a appointmentId userId data (fresh (dom (reviews db)))))
      as [c ->]; [apply lookup_insert_eq|done|done].
  - intros (k & r & Hk & Hr). by eapply addReview_existing_fails.
  - apply addReview_keeps_uniqueness.
Qed.

(** On the review store the first review of session "c1" is accepted and a
    second one is rejected, whatever its rating. *)
Lemma second_review_rejected_witness :
  addReview "c1" "patient" (stars 1) (rate "c1" 5 completedDb)
    = (inl (PrismaError "P2002"), rate "c1" 5 completedDb).
Proof.
  destruct (second_review_rejected "c1" "patient" (stars 5) completedDb)
    as (Hsecond & _ & _).
  apply (Hsecond (reviewRow (sampleAppointment "c1" COMPLETED) "c1" "patient"
                    (stars 5) "0")).
  vm_compute. reflexivity.
Defined.

(** ** Aggregation *)

Lemma sumZ_Permutation (l l' : list Z) : l ≡ₚ l' → sumZ l = sumZ l'.
Proof.
  induction 1 as [|x l l' _ IH|x y l|l l' l'' _ IH1 _ IH2]; simpl.
  - done.
  - unfold sumZ in *. simpl. by rewrite IH.
  - unfold sumZ. simpl. lia.
  - congruence.
Qed.

Lemma ratingsOf_insert therapistId (tbl : gmap string Review.t) k r :
  tbl !! k = None →
  Review.therapistId r = therapistId →
  ratingsOf therapistId (<[k := r]> tbl)
    ≡ₚ Review.rating r :: ratingsOf therapistId tbl.
Proof.
  intros Hk Hr. unfold ratingsOf, findMany, rows.
  rewrite (map_to_list_insert tbl k r Hk). simpl.
  by rewrite filter_cons_True.
Qed.

Lemma ratingsOf_rows therapistId (tbl : gmap string Review.t) :
  ratingsOf therapistId tbl
  = Review.rating
      <$> filter (λ r, Review.therapistId r = therapistId)
                 (snd <$> map_to_list tbl).
Proof. reflexivity. Qed.

(** C9: after a successful submission the review table is the earlier one
    with the new review added under an unused key, the new review is about
    the appointment's therapist, and no other therapist's row changes. The
    therapist's totalReviews is the number of the stored reviews whose
    therapistId is that therapist's, and averageRating is the sum of their
    ratings divided by that number; these ratings are the ones counted
    before together with the new one, and the reviews of other therapists
    are not among them. *)
Theorem review_recomputes_stats appointmentId userId data db r db' :
  addReview appointmentId userId data db = (inr r, db') →
  ∃ a th',
    appointments db !! appointmentId = Some a ∧
    therapists db' !! Appointment.therapistId a = Some th' ∧
    (∀ k, k ≠ Appointment.therapistId a →
          therapists db' !! k = therapists db !! k) ∧
    reviews db !! Review.id r = None ∧
    reviews db' = <[Review.id r := r]> (reviews db) ∧
    Review.therapistId r = Appointment.therapistId a ∧
    Review.rating r = ReviewData.rating data ∧
    (let theirs := λ tbl : gmap string Review.t,
       Review.rating
         <$> filter (λ r', Review.therapistId r' = Appointment.therapistId a)
                    (snd <$> map_to_list tbl) in
     theirs (reviews db') ≡ₚ ReviewData.rating data :: theirs (reviews db) ∧
     Therapist.totalReviews th' = Z.of_nat (length (theirs (reviews db'))) ∧
     Therapist.averageRating th'
       = (inject_Z (foldr Z.add 0%Z (theirs (reviews db')))
          / inject_Z (Z.of_nat (length (theirs (reviews db')))))%Q ∧
     foldr Z.add 0 (theirs (reviews db'))
       = ReviewData.rating data + foldr Z.add 0 (theirs (reviews db)) ∧
     length (theirs (reviews db')) = S (length (theirs (reviews db)))).
Proof.
  rewrite addReview_run.
  destruct (appointments db !! appointmentId) as [a|] eqn:Ha; [|discriminate].
  repeat case_decide; try discriminate.
  destruct (findFirst _ _); [discriminate|]. simpl.
  destruct (therapists db !! _) as [th|]; [|discriminate].
  intros [= <- <-].
  pose proof (ratingsOf_insert (Appointment.therapistId a) (reviews db)
                (fresh (dom (reviews db)))
                (reviewRow a appointmentId userId data (fresh (dom (reviews db))))
                (fresh_key_unused _) eq_refl) as Hperm.
  cbn [reviewRow Review.rating] in Hperm.
  cbn [therapists reviews with_therapists with_reviews reviewRow Review.rating
       Review.id Review.therapistId].
  eexists a, _. split; [done|]. split; [apply lookup_insert_eq|].
  split; [intros k Hk; by rewrite lookup_insert_ne|].
  split; [apply fresh_key_unused|].
  split; [done|]. split; [done|]. split; [done|].
  cbv zeta. rewrite <- !ratingsOf_rows.
  fold (sumZ (ratingsOf (Appointment.therapistId a)
                (<[fresh (dom (reviews db)) :=
                     reviewRow a appointmentId userId data
                       (fresh (dom (reviews db)))]> (reviews db)))).
  fold (sumZ (ratingsOf (Appointment.therapistId a) (reviews db))).
  cbn [Therapist.totalReviews Therapist.averageRating].
  split; [done|]. split; [done|]. split.
  - destruct (ratingsOf _ (<[_ := _]> _)) as [|x l]; [|done].
    by apply Permutation_nil_cons in Hperm.
  - split.
    + by rewrite (sumZ_Permutation _ _ Hperm).
    + by rewrite Hperm.
Qed.

(** With two therapists in the store, the first rated 5, 3 and 4 and the
    second 1 and 2, the first has the average 4 and the count 3; a further
    1-star review of the first gives her 13/4 = 3.25 and 4, and leaves the
    second at 3/2 and 2. *)
Lemma review_recomputes_stats_witness :
  (∃ th, therapists twoRatedDb !! "t1" = Some th ∧
         (Therapist.averageRating th == 4)%Q ∧
         Therapist.totalReviews th = 3) ∧
  (∃ th, therapists (rate "c4" 1 twoRatedDb) !! "t1" = Some th ∧
         (Therapist.averageRating th == 13 # 4)%Q ∧
         Therapist.totalReviews th = 4) ∧
  (∃ th, therapists (rate "c4" 1 twoRatedDb) !! "t2" = Some th ∧
         (Therapist.averageRating th == 3 # 2)%Q ∧
         Therapist.totalReviews th = 2).
Proof.
  split.
  - eexists. split; [vm_compute; reflexivity|].
    split; vm_compute; reflexivity.
  - edestruct (review_recomputes_stats "c4" "patient" (stars 1) twoRatedDb)
      as (a & th & Ha & Hth & Hframe & _ & _ & _ & _ & _ & Hcount & Havg & _).
    { unfold rate. apply surjective_pairing_inr. vm_compute. reflexivity. }
    vm_compute in Ha. injection Ha as <-.
    cbn [Appointment.therapistId sampleAppointment] in Hth, Hframe, Hcount, Havg.
    split.
    + exists th. split; [exact Hth|].
      rewrite Havg, Hcount. split; vm_compute; reflexivity.
    + eexists. split; [unfold rate at 1; rewrite (Hframe "t2") by discriminate;
                       vm_compute; reflexivity|].
      split; vm_compute; reflexivity.
Defined.

(** ** Availability *)

Lemma getAvailableSlots_store tzOffset therapistId date db :
  (getAvailableSlots tzOffset therapistId date db).2 = db.
Proof.
  unfold getAvailableSlots. by destruct (therapists db !! therapistId).
Qed.

Lemma status_in_nonterminal (s : AppointmentStatus) :
  s ∈ [PENDING; CONFIRMED] ↔ s = PENDING ∨ s = CONFIRMED.
Proof.
  rewrite !elem_of_cons, elem_of_nil. tauto.
Qed.

(** C6 (refuted as stated): on the availability store the Monday 09:00
    window is returned although a CONFIRMED appointment of the therapist
    starts on that Monday at 09:00 exactly. *)
Lemma getAvailableSlots_returns_occupied_slot :
  ¬ excludesOccupied 0 slotsDb "t1" monday.
Proof.
  intros Hexcl.
  apply (Hexcl (Slots.mk monday [("09:00", "10:00"); ("11:00", "12:00")]
                  [(monday + 9 * hourMs, 60)])
               eq_refl "09:00" "10:00").
  - left.
  - exists "b1", (Appointment.mk "b1" "patient" "t1" (monday + 9 * hourMs) 60 "UTC"
                    SCHEDULED CONFIRMED 5000 None None None None None None), 540.
    repeat split; try reflexivity. by right.
Qed.

(** C6 (amended): the operation writes nothing; an unknown therapist id is
    rejected with NotFound; for a known therapist it returns slots that are
    all active windows of the therapist on the weekday of the date (every
    such window when the therapist has no blocked slot, and none, without
    an error, when there is no such window), whatever the appointments are;
    the appointments are reported apart, as the booked slots: the PENDING
    and CONFIRMED appointments of the therapist that start within the 24
    hours from the date. *)
Theorem getAvailableSlots_windows_and_bookings tzOffset therapistId date db :
  (getAvailableSlots tzOffset therapistId date db).2 = db ∧
  (therapists db !! therapistId = None →
     (getAvailableSlots tzOffset therapistId date db).1
       = inl (NotFoundException "Therapist not found")) ∧
  (is_Some (therapists db !! therapistId) →
     ∃ r,
       (getAvailableSlots tzOffset therapistId date db).1 = inr r ∧
       Slots.date r = date ∧
       (∀ startTime endTime,
          (startTime, endTime) ∈ Slots.slots r →
          ∃ w, w ∈ availabilities db ∧ windowOn tzOffset therapistId date w ∧
               Availability.startTime w = startTime ∧
               Availability.endTime w = endTime) ∧
       ((∀ b, b ∈ blockedSlots db → BlockedSlot.therapistId b ≠ therapistId) →
        ∀ w, w ∈ availabilities db → windowOn tzOffset therapistId date w →
             (Availability.startTime w, Availability.endTime w) ∈ Slots.slots r) ∧
       ((∀ w, w ∈ availabilities db → ¬ windowOn tzOffset therapistId date w) →
        Slots.slots r = []) ∧
       (∀ tbl, ∃ r',
          (getAvailableSlots tzOffset therapistId date
             (with_appointments (λ _, tbl) db)).1 = inr r' ∧
          Slots.slots r' = Slots.slots r) ∧
       (∀ time duration,
          (time, duration) ∈ Slots.bookedSlots r ↔
          ∃ k a, appointments db !! k = Some a ∧ bookedOn therapistId date a ∧
                 Appointment.scheduledAt a = time ∧
                 Appointment.duration a = duration)).
Proof.
  split; [apply getAvailableSlots_store|]. unfold getAvailableSlots.
  split; [by intros ->|]. intros [th Hth]. rewrite Hth. simpl.
  eexists. split; [reflexivity|]. simpl. split; [done|].
  split; [|split; [|split; [|split]]].
  - intros s e Hin. apply list_elem_of_fmap in Hin as (w & [= -> ->] & Hw).
    apply list_elem_of_filter in Hw as [Hday Hw].
    apply list_elem_of_filter in Hw as [[Hid Hact] Hw].
    exists w. by repeat split.
  - intros _ w Hw (Hid & Hact & Hday).
    apply list_elem_of_fmap. exists w. split; [done|].
    apply list_elem_of_filter. split; [done|].
    apply list_elem_of_filter. by repeat split.
  - intros Hnone.
    destruct (filter _ (filter _ (availabilities db))) as [|w l] eqn:Hf; [done|].
    assert (Hw : w ∈ filter (λ a, Availability.dayOfWeek a = getDay tzOffset date)
                   (filter (λ a, Availability.therapistId a = therapistId ∧
                                 Availability.isActive a = true)
                           (availabilities db))) by (rewrite Hf; left).
    apply list_elem_of_filter in Hw as [Hday Hw].
    apply list_elem_of_filter in Hw as [[Hid Hact] Hw].
    destruct (Hnone w Hw). by repeat split.
  - intros tbl. rewrite Hth. eexists. split; reflexivity.
  - intros time duration. rewrite list_elem_of_fmap. split.
    + intros (a & [= -> ->] & Ha).
      apply list_elem_of_filter in Ha as [(Hid & Hge & Hlt & Hst) Ha].
      apply elem_of_rows in Ha as [k Hk]. exists k, a.
      apply status_in_nonterminal in Hst. by repeat split.
    + intros (k & a & Hk & (Hid & [Hge Hlt] & Hst) & <- & <-).
      exists a. split; [done|]. apply list_elem_of_filter. split.
      * apply status_in_nonterminal in Hst. by repeat split.
      * apply elem_of_rows. by exists k.
Qed.

(** On the availability store, for the Monday: both open Monday windows are
    returned, the retired one, Tuesday's and the other therapist's are not,
    and the CONFIRMED appointment alone is reported as booked; an unknown
    therapist is not found; the Wednesday has no slot. *)
Lemma getAvailableSlots_windows_and_bookings_witness :
  getAvailableSlots 0 "t1" monday slotsDb
    = (inr (Slots.mk monday [("09:00", "10:00"); ("11:00", "12:00")]
              [(monday + 9 * hourMs, 60)]), slotsDb) ∧
  (∃ r, (getAvailableSlots 0 "t1" monday slotsDb).1 = inr r ∧
        ("11:00", "12:00") ∈ Slots.slots r ∧
        (monday + 9 * hourMs, 60) ∈ Slots.bookedSlots r) ∧
  (getAvailableSlots 0 "t7" monday slotsDb).1
    = inl (NotFoundException "Therapist not found") ∧
  (∃ r, (getAvailableSlots 0 "t1" (monday + 2 * dayMs) slotsDb).1 = inr r ∧
        Slots.slots r = []).
Proof.
  destruct (getAvailableSlots_windows_and_bookings 0 "t1" monday slotsDb)
    as (Hstore & _ & Hmonday).
  destruct (getAvailableSlots_windows_and_bookings 0 "t7" monday slotsDb)
    as (_ & Hunknown & _).
  destruct (getAvailableSlots_windows_and_bookings 0 "t1" (monday + 2 * dayMs)
              slotsDb) as (_ & _ & Hwednesday).
  split; [|split; [|split]].
  - rewrite <- Hstore at 2. apply surjective_pairing_inr. vm_compute. reflexivity.
  - destruct Hmonday as (r & Hr & _ & _ & Hall & _ & _ & Hbooked);
      [vm_compute; eauto|].
    exists r. split; [exact Hr|]. split.
    + apply (Hall (λ b Hb, False_rect _ (proj1 (elem_of_nil b) Hb))
                  (Availability.mk "t1" 1 "11:00" "12:00" true)).
      * right. left.
      * vm_compute. auto.
    + apply Hbooked.
      exists "b1", (Appointment.mk "b1" "patient" "t1" (monday + 9 * hourMs) 60
                      "UTC" SCHEDULED CONFIRMED 5000 None None None None None None).
      split; [vm_compute; reflexivity|].
      split; [|split; reflexivity].
      split; [reflexivity|]. split; [vm_compute; split; discriminate || reflexivity|].
      by right.
  - apply Hunknown. vm_compute. reflexivity.
  - destruct Hwednesday as (r & Hr & _ & _ & _ & Hempty & _); [vm_compute; eauto|].
    exists r. split; [exact Hr|]. apply Hempty.
    intros w Hw (_ & _ & Hday). vm_compute in Hday.
    repeat (apply elem_of_cons in Hw as [->|Hw]; [discriminate|]).
    by apply elem_of_nil in Hw.
Defined.

(** * Sequences of requests *)

(** ** One request *)

Lemma transition_effect db id a (r : (Exception + Appointment.t) * Db) data :
  r = (inr (Appointment.apply data a), updated db id a data) →
  effect db (updated db id a data) →
  effect db r.2.
Proof. by intros ->. Qed.

Lemma notified_effect dispatch db id a n data :
  effect db (updated db id a data) →
  effect db (notified dispatch db id a n data).2.
Proof. unfold notified. by destruct (dispatch n). Qed.

Lemma not_not_eq_status (s t : AppointmentStatus) : ¬ s ≠ t → s = t.
Proof. intros H. by destruct (decide (s = t)). Qed.

Lemma serve_effect dispatch req db : effect db (serve dispatch req db).
Proof.
  destruct req as [data|now id userId|now id userId reason
                  |now id userId reason isTherapist|now id userId sessionNotes
                  |appointmentId userId data|data|now id therapistId
                  |now id userId reason isTherapist|now id therapistId sessionNotes];
    simpl.
  - rewrite create_run.
    destruct (therapists db !! CreateData.therapistId data) as [th|] eqn:Hth;
      [|apply effect_none].
    destruct (findFirst _ _) eqn:Hf; [apply effect_none|].
    assert (effect db (with_appointments
              (insert (fresh (dom (appointments db)))
                 (createRow data (fresh (dom (appointments db))))) db))
      by (by apply effect_created).
    simpl. by destruct (dispatch _).
  - destruct (appointments db !! id) as [a|] eqn:Ha;
      [|unfold confirm, mbind, M_bind, appointment_findUnique_include_therapist;
        rewrite Ha; apply effect_none].
    destruct (therapists db !! Appointment.therapistId a) as [th|] eqn:Hth;
      [|unfold confirm, mbind, M_bind, appointment_findUnique_include_therapist;
        rewrite Ha, Hth; apply effect_none].
    rewrite (confirm_run dispatch db id a th Ha Hth).
    repeat case_decide; try apply effect_none.
    apply notified_effect, effect_confirmed; done.
  - destruct (appointments db !! id) as [a|] eqn:Ha;
      [|unfold decline, mbind, M_bind, appointment_findUnique_include_therapist;
        rewrite Ha; apply effect_none].
    destruct (therapists db !! Appointment.therapistId a) as [th|] eqn:Hth;
      [|unfold decline, mbind, M_bind, appointment_findUnique_include_therapist;
        rewrite Ha, Hth; apply effect_none].
    rewrite (decline_run dispatch db id a th Ha Hth).
    repeat case_decide; try apply effect_none.
    apply notified_effect, effect_declined; done.
  - destruct (appointments db !! id) as [a|] eqn:Ha;
      [|unfold cancel, mbind, M_bind, appointment_findUnique_include_therapist;
        rewrite Ha; apply effect_none].
    destruct (therapists db !! Appointment.therapistId a) as [th|] eqn:Hth;
      [|unfold cancel, mbind, M_bind, appointment_findUnique_include_therapist;
        rewrite Ha, Hth; apply effect_none].
    rewrite (cancel_run dispatch db id a th Ha Hth).
    repeat case_decide; try apply effect_none.
    apply notified_effect, effect_cancelled; [done|tauto|tauto].
  - destruct (appointments db !! id) as [a|] eqn:Ha;
      [|unfold complete, mbind, M_bind, appointment_findUnique_include_therapist;
        rewrite Ha; apply effect_none].
    destruct (therapists db !! Appointment.therapistId a) as [th|] eqn:Hth;
      [|unfold complete, mbind, M_bind, appointment_findUnique_include_therapist;
        rewrite Ha, Hth; apply effect_none].
    rewrite (complete_run db id a th Ha Hth).
    case_decide; [apply effect_none|]. by apply effect_completed.
  - rewrite addReview_run.
    destruct (appointments db !! appointmentId) as [a|] eqn:Ha; [|apply effect_none].
    destruct (decide (Appointment.userId a ≠ userId)) as [|Hu]; [apply effect_none|].
    destruct (decide (Appointment.status a ≠ COMPLETED)) as [|Hs]; [apply effect_none|].
    destruct (findFirst _ _) eqn:Hf; [apply effect_none|].
    assert (Appointment.userId a = userId) by (by destruct (decide (Appointment.userId a = userId))).
    apply not_not_eq_status in Hs.
    destruct (therapists db !! Appointment.therapistId a) as [th|] eqn:Hth; simpl.
    + by apply (effect_reviewed_stats db appointmentId userId data a th).
    + by apply effect_reviewed.
  - rewrite legacy_create_delivers, create_run.
    destruct (therapists db !! CreateData.therapistId data) as [th|] eqn:Hth;
      [|apply effect_none].
    destruct (findFirst _ _) eqn:Hf; [apply effect_none|].
    simpl. by apply effect_created.
  - unfold Legacy.confirm, mbind, M_bind, appointment_findUnique.
    destruct (appointments db !! id) as [a|] eqn:Ha; [|apply effect_none].
    repeat case_decide; try apply effect_none.
    unfold appointment_update. rewrite Ha.
    apply effect_confirmed; done.
  - destruct (appointments db !! id) as [a|] eqn:Ha;
      [|unfold Legacy.cancel, mbind, M_bind, appointment_findUnique;
        rewrite Ha; apply effect_none].
    rewrite (legacy_cancel_run db id a _ _ _ _ Ha).
    repeat case_decide; try apply effect_none.
    apply effect_cancelled; [done|tauto|tauto].
  - destruct (appointments db !! id) as [a|] eqn:Ha;
      [|unfold Legacy.complete, mbind, M_bind, appointment_findUnique;
        rewrite Ha; apply effect_none].
    rewrite (legacy_complete_run db id a _ _ _ Ha).
    case_decide; [apply effect_none|]. by apply effect_completed.
Qed.

(** A property that every effect keeps holds after every sequence of
    requests. *)
Lemma serveAll_invariant (P : Db → Prop) dispatch requests :
  (∀ db db', effect db db' → P db → P db') →
  ∀ db, P db → P (serveAll dispatch requests db).
Proof.
  intros Hstep. induction requests as [|req rest IH]; intros db HP; [done|].
  simpl. apply IH. eapply Hstep; [apply serve_effect|done].
Qed.

Lemma serveAll_app dispatch requests requests' db :
  serveAll dispatch (requests ++ requests') db
  = serveAll dispatch requests' (serveAll dispatch requests db).
Proof.
  revert db. induction requests as [|req rest IH]; intros db; [done|].
  simpl. apply IH.
Qed.

(** ** What an effect keeps *)

Lemma sameCore_refl a : sameCore a a.
Proof. by repeat split. Qed.

Lemma sameCore_trans a b c : sameCore a b → sameCore b c → sameCore a c.
Proof.
  unfold sameCore. intros (?&?&?&?&?&?&?&?&?) (?&?&?&?&?&?&?&?&?).
  repeat split; congruence.
Qed.

Lemma evolves_refl a : evolves a a.
Proof.
  split; [apply sameCore_refl|]. repeat split; try done.
  intros ->. by right.
Qed.

Lemma evolves_trans a b c : evolves a b → evolves b c → evolves a c.
Proof.
  intros (Hc1 & Hp1 & Hn1 & Hd1) (Hc2 & Hp2 & Hn2 & Hd2).
  split; [by eapply sameCore_trans|]. repeat split; [tauto| |tauto].
  intros Hc. destruct (Hn2 Hc) as [Hb|Hb].
  - left. destruct (decide (Appointment.status a = PENDING)); [done|].
    by destruct (Hp1 n).
  - by apply Hn1.
Qed.

Lemma evolves_nonTerminal a a' : evolves a a' → nonTerminal a' → nonTerminal a.
Proof.
  intros (_ & Hp & Hn & _) [Hs|Hs]; [|by apply Hn].
  left. destruct (decide (Appointment.status a = PENDING)); [done|].
  by destruct (Hp n).
Qed.

Lemma evolves_confirm now a :
  Appointment.status a = PENDING → evolves a (Appointment.apply (confirmData now) a).
Proof.
  intros Hs. split; [by repeat split|]. simpl.
  repeat split; [done|by left|by rewrite Hs].
Qed.

Lemma evolves_decline now reason a :
  Appointment.status a = PENDING →
  evolves a (Appointment.apply (declineData now reason) a).
Proof.
  intros Hs. split; [by repeat split|]. simpl.
  repeat split; [done|done|by rewrite Hs].
Qed.

Lemma evolves_cancel now reason a :
  Appointment.status a ≠ COMPLETED →
  evolves a (Appointment.apply (cancelData now reason) a).
Proof.
  intros Hs. split; [by repeat split|]. simpl. repeat split; done.
Qed.

Lemma evolves_complete now sessionNotes a :
  evolves a (Appointment.apply (completeData now sessionNotes) a).
Proof. split; [by repeat split|]. simpl. repeat split; done. Qed.

Lemma grows_refl db : grows db db.
Proof.
  repeat split; eauto using evolves_refl.
Qed.

Lemma grows_trans db1 db2 db3 : grows db1 db2 → grows db2 db3 → grows db1 db3.
Proof.
  intros (Ha1 & Ht1 & Hr1 & Hv1 & Hb1) (Ha2 & Ht2 & Hr2 & Hv2 & Hb2).
  repeat split; [| |eauto|congruence|congruence].
  - intros k a Hk. destruct (Ha1 k a Hk) as (a' & Hk' & He).
    destruct (Ha2 k a' Hk') as (a'' & Hk'' & He').
    exists a''. split; [done|]. by eapply evolves_trans.
  - intros k th Hk. destruct (Ht1 k th Hk) as (th' & Hk' & ? & ?).
    destruct (Ht2 k th' Hk') as (th'' & Hk'' & ? & ?).
    exists th''. repeat split; [done|congruence|congruence].
Qed.

Lemma updated_grows db id a data :
  appointments db !! id = Some a →
  evolves a (Appointment.apply data a) →
  grows db (updated db id a data).
Proof.
  intros Ha He. unfold updated. repeat split; simpl; eauto.
  intros k b Hk. destruct (decide (id = k)) as [<-|Hne].
  - rewrite lookup_insert_eq. rewrite Ha in Hk. injection Hk as <-. eauto.
  - rewrite lookup_insert_ne by done. eauto using evolves_refl.
Qed.

Lemma effect_grows db db' : effect db db' → grows db db'.
Proof.
  destruct 1 as [|data Hth Hf|now id a Ha Hs|now id a reason Ha Hs
                |now id a reason Ha Hs Hs'|now id a notes Ha
                |aid uid data a Ha Hu Hs Hf Hth|aid uid data a th Ha Hu Hs Hf Hth].
  - apply grows_refl.
  - repeat split; simpl; eauto.
    intros k a Hk. exists a. split; [|apply evolves_refl].
    rewrite lookup_insert_ne; [done|].
    intros <-. by rewrite fresh_key_unused in Hk.
  - by apply updated_grows, evolves_confirm.
  - by apply updated_grows, evolves_decline.
  - by apply updated_grows, evolves_cancel.
  - by apply updated_grows, evolves_complete.
  - repeat split; simpl; eauto using evolves_refl.
    intros k r Hk. rewrite lookup_insert_ne; [done|].
    intros <-. by rewrite fresh_key_unused in Hk.
  - repeat split; simpl; eauto using evolves_refl.
    + intros k th' Hk.
      destruct (decide (Appointment.therapistId a = k)) as [<-|Hne].
      * rewrite lookup_insert_eq. rewrite Hth in Hk. injection Hk as <-. eauto.
      * rewrite lookup_insert_ne by done. eauto.
    + intros k r Hk. rewrite lookup_insert_ne; [done|].
      intros <-. by rewrite fresh_key_unused in Hk.
Qed.

Lemma serveAll_grows dispatch requests db :
  grows db (serveAll dispatch requests db).
Proof.
  revert db. induction requests as [|req rest IH]; intros db;
    [apply grows_refl|].
  simpl. eapply grows_trans; [|apply IH].
  apply effect_grows, serve_effect.
Qed.

(** The row of every key after an effect goes back to a row of that key
    before it, unless the effect is a booking. *)
Lemma updated_back db id a data k b :
  appointments db !! id = Some a →
  evolves a (Appointment.apply data a) →
  appointments (updated db id a data) !! k = Some b →
  ∃ b0, appointments db !! k = Some b0 ∧ evolves b0 b.
Proof.
  intros Ha He. unfold updated. simpl.
  destruct (decide (id = k)) as [<-|Hne].
  - rewrite lookup_insert_eq. intros [= <-]. eauto.
  - rewrite lookup_insert_ne by done. eauto using evolves_refl.
Qed.

Lemma effect_back db db' :
  effect db db' →
  (∀ k b, appointments db' !! k = Some b →
          ∃ b0, appointments db !! k = Some b0 ∧ evolves b0 b) ∨
  (∃ data,
     is_Some (therapists db !! CreateData.therapistId data) ∧
     findFirst (conflictsWith data) (appointments db) = None ∧
     appointments db'
       = <[fresh (dom (appointments db)) :=
             createRow data (fresh (dom (appointments db)))]> (appointments db) ∧
     therapists db' = therapists db ∧ reviews db' = reviews db).
Proof.
  destruct 1 as [|data Hth Hf|now id a Ha Hs|now id a reason Ha Hs
                |now id a reason Ha Hs Hs'|now id a notes Ha
                |aid uid data a Ha Hu Hs Hf Hth|aid uid data a th Ha Hu Hs Hf Hth].
  - left. eauto using evolves_refl.
  - right. by exists data.
  - left. intros k b. by apply updated_back, evolves_confirm.
  - left. intros k b. by apply updated_back, evolves_decline.
  - left. intros k b. by apply updated_back, evolves_cancel.
  - left. intros k b. by apply updated_back, evolves_complete.
  - left. simpl. eauto using evolves_refl.
  - left. simpl. eauto using evolves_refl.
Qed.

Lemma effect_conflictFree db db' : effect db db' → conflictFree db → conflictFree db'.
Proof.
  intros Heff Hfree. destruct (effect_back db db' Heff) as [Hback|Hnew].
  - intros k1 k2 a1 a2 H1 H2 Ht Hs Hn1 Hn2.
    destruct (Hback k1 a1 H1) as (b1 & Hb1 & He1).
    destruct (Hback k2 a2 H2) as (b2 & Hb2 & He2).
    pose proof He1 as ((_ & _ & Ht1 & Hs1 & _) & _).
    pose proof He2 as ((_ & _ & Ht2 & Hs2 & _) & _).
    apply (Hfree k1 k2 b1 b2 Hb1 Hb2); [congruence|congruence| |];
      by eapply evolves_nonTerminal.
  - destruct Hnew as (data & _ & Hnone & Happ & _).
    rewrite findFirst_None in Hnone.
    assert (Hclash : ∀ k b, appointments db !! k = Some b →
              Appointment.therapistId b = CreateData.therapistId data →
              Appointment.scheduledAt b = CreateData.scheduledAt data →
              nonTerminal b → False).
    { intros k b Hk Ht Hs Hn. apply (Hnone k b Hk).
      repeat split; [done|done|]. by apply status_in_nonterminal. }
    intros k1 k2 a1 a2. rewrite Happ, !lookup_insert.
    destruct (decide (fresh (dom (appointments db)) = k1)) as [E1|N1];
      destruct (decide (fresh (dom (appointments db)) = k2)) as [E2|N2].
    + congruence.
    + intros [= <-] H2 Ht Hs _ Hn2. simpl in Ht, Hs.
      by destruct (Hclash k2 a2 H2).
    + intros H1 [= <-] Ht Hs Hn1 _. simpl in Ht, Hs.
      by destruct (Hclash k1 a1 H1).
    + apply Hfree.
Qed.

Lemma effect_wellKeyed db db' : effect db db' → wellKeyed db → wellKeyed db'.
Proof.
  intros Heff (Hid & Hth & Hrid).
  pose proof (effect_grows db db' Heff) as (_ & Hgt & _).
  assert (Hthere : ∀ k, is_Some (therapists db !! k) → is_Some (therapists db' !! k)).
  { intros k [th Hk]. destruct (Hgt k th Hk) as (th' & Hk' & _). eauto. }
  split; [|split].
  - destruct (effect_back db db' Heff) as [Hback|Hnew].
    + intros k b Hk. destruct (Hback k b Hk) as (b0 & Hb0 & (Hc & _) & _).
      rewrite Hc. by eapply Hid.
    + destruct Hnew as (data & _ & _ & Happ & _). intros k b. rewrite Happ.
      rewrite lookup_insert. case_decide as E; [|apply Hid].
      intros [= <-]. done.
  - destruct (effect_back db db' Heff) as [Hback|Hnew].
    + intros k b Hk. destruct (Hback k b Hk) as (b0 & Hb0 & (_ & _ & Ht & _) & _).
      rewrite Ht. apply Hthere. by eapply Hth.
    + destruct Hnew as (data & Hsome & _ & Happ & Hsame & _). intros k b.
      rewrite Happ, Hsame, lookup_insert. case_decide as E; [|apply Hth].
      intros [= <-]. done.
  - destruct Heff; simpl; try done.
    + intros k r. rewrite lookup_insert. case_decide as E; [|apply Hrid].
      intros [= <-]. done.
    + intros k r. rewrite lookup_insert. case_decide as E; [|apply Hrid].
      intros [= <-]. done.
Qed.

Lemma stamped_updated db id a data :
  appointments db !! id = Some a →
  allStamped db →
  (stamped a → stamped (Appointment.apply data a)) →
  allStamped (updated db id a data).
Proof.
  intros Ha Hall Hst k b. unfold updated. simpl. rewrite lookup_insert.
  case_decide as E; [|apply Hall].
  intros [= <-]. apply Hst. by eapply Hall.
Qed.

Lemma effect_allStamped db db' : effect db db' → allStamped db → allStamped db'.
Proof.
  destruct 1 as [|data Hth Hf|now id a Ha Hs|now id a reason Ha Hs
                |now id a reason Ha Hs Hs'|now id a notes Ha
                |aid uid data a Ha Hu Hs Hf Hth|aid uid data a th Ha Hu Hs Hf Hth];
    intros Hall; try done.
  - intros k b. simpl. rewrite lookup_insert. case_decide as E; [|apply Hall].
    intros [= <-]. by repeat split.
  - apply stamped_updated; [done|done|].
    unfold stamped. rewrite Hs. simpl. intros (_ & Hc & Hx & _). eauto.
  - apply stamped_updated; [done|done|].
    unfold stamped. simpl. eauto.
  - apply stamped_updated; [done|done|].
    unfold stamped. simpl. eauto.
  - apply stamped_updated; [done|done|].
    unfold stamped. simpl. eauto.
Qed.

(** The reviews after an effect: the same, or one more, for a COMPLETED
    appointment that had none and by its patient. *)
Lemma effect_reviews db db' :
  effect db db' →
  (reviews db' = reviews db ∧ therapists db' = therapists db) ∨
  ∃ aid uid data a,
    appointments db !! aid = Some a ∧
    Appointment.userId a = uid ∧
    Appointment.status a = COMPLETED ∧
    findFirst (λ r, Review.appointmentId r = aid) (reviews db) = None ∧
    reviews db'
      = <[fresh (dom (reviews db)) :=
            reviewRow a aid uid data (fresh (dom (reviews db)))]> (reviews db) ∧
    (therapists db' = therapists db ∧
       therapists db !! Appointment.therapistId a = None ∨
     ∃ th,
       therapists db !! Appointment.therapistId a = Some th ∧
       therapists db'
         = <[Appointment.therapistId a :=
               Therapist.mk (Therapist.id th) (Therapist.userId th)
                 (default 0%Q
                    (_avg (aggregate (ratingsOf (Appointment.therapistId a)
                                                (reviews db')))))
                 (_count (aggregate (ratingsOf (Appointment.therapistId a)
                                               (reviews db'))))]>
             (therapists db)).
Proof.
  destruct 1 as [|data Hth Hf|now id a Ha Hs|now id a reason Ha Hs
                |now id a reason Ha Hs Hs'|now id a notes Ha
                |aid uid data a Ha Hu Hs Hf Hth|aid uid data a th Ha Hu Hs Hf Hth];
    try (by left).
  - right. exists aid, uid, data, a. repeat split; try done. by left.
  - right. exists aid, uid, data, a. repeat split; try done. right. by exists th.
Qed.

Lemma effect_oneReview db db' :
  effect db db' → oneReviewPerAppointment db → oneReviewPerAppointment db'.
Proof.
  intros Heff Huniq.
  destruct (effect_reviews db db' Heff)
    as [[Hsame _]|(aid & uid & data & a & _ & _ & _ & Hnone & Hins & _)].
  - unfold oneReviewPerAppointment. rewrite Hsame. apply Huniq.
  - unfold oneReviewPerAppointment. rewrite Hins.
    rewrite findFirst_None in Hnone.
    intros k1 k2 r1 r2 H1 H2 Heq.
    rewrite lookup_insert in H1. rewrite lookup_insert in H2.
    destruct (decide (fresh (dom (reviews db)) = k1)) as [E1|N1];
      destruct (decide (fresh (dom (reviews db)) = k2)) as [E2|N2].
    + by rewrite <- E1, <- E2.
    + injection H1 as <-. simpl in Heq. by destruct (Hnone k2 r2 H2).
    + injection H2 as <-. simpl in Heq. by destruct (Hnone k1 r1 H1).
    + by eapply Huniq.
Qed.

Lemma effect_reviewsSound db db' :
  effect db db' → reviewsSound db → reviewsSound db'.
Proof.
  intros Heff Hsound.
  pose proof (effect_grows db db' Heff) as (Hga & _).
  assert (Hkeep : ∀ r a,
    appointments db !! Review.appointmentId r = Some a →
    Appointment.status a = COMPLETED →
    Appointment.userId a = Review.userId r →
    Appointment.therapistId a = Review.therapistId r →
    ∃ a', appointments db' !! Review.appointmentId r = Some a' ∧
          Appointment.status a' = COMPLETED ∧
          Appointment.userId a' = Review.userId r ∧
          Appointment.therapistId a' = Review.therapistId r).
  { intros r a Ha Hs Hu Ht.
    destruct (Hga _ a Ha) as (a' & Ha' & (_ & Hu' & Ht' & _) & _ & _ & Hdone).
    exists a'. repeat split; [done|by apply Hdone|congruence|congruence]. }
  destruct (effect_reviews db db' Heff)
    as [[Hsame _]|(aid & uid & data & a & Ha & Hu & Hs & _ & Hins & _)].
  - intros k r. rewrite Hsame. intros Hk.
    destruct (Hsound k r Hk) as (a & Ha & Hs & Hu & Ht). by eapply Hkeep.
  - intros k r. rewrite Hins, lookup_insert. case_decide as E.
    + intros [= <-]. simpl.
      by apply (Hkeep (reviewRow a aid uid data (fresh (dom (reviews db)))) a).
    + intros Hk. destruct (Hsound k r Hk) as (a0 & Ha0 & Hs0 & Hu0 & Ht0).
      by eapply Hkeep.
Qed.

Lemma aggregate_Permutation (l l' : list Z) : l ≡ₚ l' → aggregate l = aggregate l'.
Proof.
  intros Hp. unfold aggregate.
  rewrite (sumZ_Permutation l l' Hp), (Permutation_length Hp).
  destruct l as [|x l], l' as [|y l']; try done.
  - by apply Permutation_nil_cons in Hp.
  - symmetry in Hp. by apply Permutation_nil_cons in Hp.
Qed.

Lemma ratingsOf_insert_other therapistId (tbl : gmap string Review.t) k r :
  tbl !! k = None →
  Review.therapistId r ≠ therapistId →
  ratingsOf therapistId (<[k := r]> tbl) ≡ₚ ratingsOf therapistId tbl.
Proof.
  intros Hk Hr. unfold ratingsOf, findMany, rows.
  rewrite (map_to_list_insert tbl k r Hk). simpl.
  by rewrite filter_cons_False.
Qed.

Lemma effect_statsSound db db' : effect db db' → statsSound db → statsSound db'.
Proof.
  intros Heff Hsound.
  destruct (effect_reviews db db' Heff)
    as [[Hr Ht]|(aid & uid & data & a & _ & _ & _ & _ & Hins & Hth)].
  - unfold statsSound. rewrite Hr, Ht. apply Hsound.
  - assert (Hother : ∀ k, k ≠ Appointment.therapistId a →
              aggregate (ratingsOf k (reviews db'))
              = aggregate (ratingsOf k (reviews db))).
    { intros k Hne. apply aggregate_Permutation. rewrite Hins.
      apply ratingsOf_insert_other; [apply fresh_key_unused|].
      simpl. congruence. }
    assert (Hlen : ∀ l, _count (aggregate l) = Z.of_nat (length l)) by done.
    destruct Hth as [[Hsame Hnone]|(th & Hsome & Hupd)].
    + intros k th'. rewrite Hsame. intros Hk.
      assert (k ≠ Appointment.therapistId a) by (intros ->; congruence).
      destruct (Hsound k th' Hk) as [Hc Ha].
      rewrite <- Hlen. rewrite Hother by done. rewrite Hlen. done.
    + intros k th'. rewrite Hupd, lookup_insert. case_decide as E.
      * subst k. intros [= <-]. split; reflexivity.
      * intros Hk. destruct (Hsound k th' Hk) as [Hc Ha].
        rewrite <- Hlen. rewrite Hother by done. rewrite Hlen. done.
Qed.

(** ** Invariants over sequences of requests *)

(** X1: no sequence of requests deletes an appointment or changes its id,
    patient, therapist, scheduledAt, duration, timezone, type, amount or
    booking notes. *)
Theorem requests_keep_appointments dispatch requests db k a :
  appointments db !! k = Some a →
  ∃ a', appointments (serveAll dispatch requests db) !! k = Some a' ∧
        sameCore a a'.
Proof.
  intros Hk. destruct (serveAll_grows dispatch requests db) as (Hg & _).
  destruct (Hg k a Hk) as (a' & Hk' & Hc & _). eauto.
Qed.

Lemma requests_keep_appointments_witness :
  ∃ a', appointments
          (serveAll delivers
             [Confirm 1 "a3" "doc"; Cancel 2 "a3" "patient" "late" false;
              Complete 3 "a3" "doc" None; Create (sampleRequest "t1" 5)]
             sampleDb) !! "a3" = Some a' ∧
        sameCore (sampleAppointment "a3" PENDING) a'.
Proof.
  apply (requests_keep_appointments delivers _ sampleDb "a3").
  vm_compute. reflexivity.
Defined.

Lemma confirm_decline_need_pending dispatch db k a now userId reason :
  appointments db !! k = Some a →
  Appointment.status a ≠ PENDING →
  (∃ e, confirm dispatch now k userId db = (inl e, db)) ∧
  (∃ e, decline dispatch now k userId reason db = (inl e, db)).
Proof.
  intros Hk Hs.
  destruct (therapists db !! Appointment.therapistId a) as [th|] eqn:Hth.
  - rewrite (confirm_run dispatch db k a th Hk Hth).
    rewrite (decline_run dispatch db k a th Hk Hth).
    split; repeat case_decide; try done; eauto.
  - unfold confirm, decline, mbind, M_bind,
      appointment_findUnique_include_therapist.
    rewrite Hk, Hth. eauto.
Qed.

(** X2: an appointment that has left PENDING never returns to it: after
    any sequence of requests, every confirm and every decline of it is
    rejected and writes nothing. So an appointment is confirmed or declined
    at most once. *)
Theorem left_pending_for_good dispatch requests db k a now userId reason :
  appointments db !! k = Some a →
  Appointment.status a ≠ PENDING →
  (∃ a', appointments (serveAll dispatch requests db) !! k = Some a' ∧
         Appointment.status a' ≠ PENDING) ∧
  (∃ e, confirm dispatch now k userId (serveAll dispatch requests db)
          = (inl e, serveAll dispatch requests db)) ∧
  (∃ e, decline dispatch now k userId reason (serveAll dispatch requests db)
          = (inl e, serveAll dispatch requests db)).
Proof.
  intros Hk Hs. destruct (serveAll_grows dispatch requests db) as (Hg & _).
  destruct (Hg k a Hk) as (a' & Hk' & _ & Hp & _).
  split; [eauto|]. by eapply confirm_decline_need_pending; eauto.
Qed.

(** After the sample requests the first appointment, confirmed by the
    fourth request, cannot be confirmed again. *)
Lemma left_pending_for_good_witness :
  ∃ e, confirm delivers 9 "0" "doc"
         (serveAll delivers (drop 4 sampleRequests)
            (serveAll delivers (take 4 sampleRequests) openDb))
       = (inl e, serveAll delivers (drop 4 sampleRequests)
                   (serveAll delivers (take 4 sampleRequests) openDb)).
Proof.
  refine (proj1 (proj2 (left_pending_for_good delivers (drop 4 sampleRequests)
            (serveAll delivers (take 4 sampleRequests) openDb) "0"
            (Appointment.apply (confirmData 1)
               (createRow (sampleRequest "t1" (100 * hourMs)) "0"))
            9 "doc" None _ _))).
  - vm_compute. reflexivity.
  - vm_compute. discriminate.
Defined.

(** X3: COMPLETED is final: after any sequence of requests a COMPLETED
    appointment is still COMPLETED, and every cancel of it is rejected and
    writes nothing. *)
Theorem completed_is_final dispatch requests db k a now userId reason isTherapist :
  appointments db !! k = Some a →
  Appointment.status a = COMPLETED →
  (∃ a', appointments (serveAll dispatch requests db) !! k = Some a' ∧
         Appointment.status a' = COMPLETED) ∧
  (∃ e, cancel dispatch now k userId reason isTherapist
          (serveAll dispatch requests db)
        = (inl e, serveAll dispatch requests db)).
Proof.
  intros Hk Hs. destruct (serveAll_grows dispatch requests db) as (Hg & _).
  destruct (Hg k a Hk) as (a' & Hk' & _ & _ & _ & Hdone).
  specialize (Hdone Hs). split; [eauto|].
  destruct (therapists (serveAll dispatch requests db)
              !! Appointment.therapistId a') as [th|] eqn:Hth.
  - rewrite (cancel_run dispatch _ k a' th Hk' Hth).
    repeat case_decide; eauto. tauto.
  - unfold cancel, mbind, M_bind, appointment_findUnique_include_therapist.
    rewrite Hk', Hth. eauto.
Qed.

Lemma completed_is_final_witness :
  (∃ a', appointments (serveAll delivers sampleRequests sampleDb) !! "a4" = Some a' ∧
         Appointment.status a' = COMPLETED) ∧
  (∃ e, cancel delivers 9 "a4" "patient" "late" false
          (serveAll delivers sampleRequests sampleDb)
        = (inl e, serveAll delivers sampleRequests sampleDb)).
Proof.
  apply (completed_is_final delivers sampleRequests sampleDb "a4"
           (sampleAppointment "a4" COMPLETED)).
  - vm_compute. reflexivity.
  - reflexivity.
Defined.

(** X4: no sequence of requests makes two PENDING or CONFIRMED
    appointments of one therapist start at the same instant. *)
Theorem requests_keep_conflict_free dispatch requests db :
  conflictFree db → conflictFree (serveAll dispatch requests db).
Proof. apply serveAll_invariant, effect_conflictFree. Qed.

Lemma openDb_no_appointment k a : appointments openDb !! k = Some a → False.
Proof. simpl. by rewrite lookup_empty. Qed.

Lemma requests_keep_conflict_free_witness :
  conflictFree (serveAll delivers sampleRequests openDb).
Proof.
  apply (requests_keep_conflict_free delivers sampleRequests openDb).
  intros k1 k2 a1 a2 H1. by destruct (openDb_no_appointment k1 a1).
Defined.

(** X5: every appointment and review stays stored under its own id, and
    the therapist of every appointment exists, after any sequence of
    requests. *)
Theorem requests_keep_well_keyed dispatch requests db :
  wellKeyed db → wellKeyed (serveAll dispatch requests db).
Proof. apply serveAll_invariant, effect_wellKeyed. Qed.

Lemma requests_keep_well_keyed_witness :
  wellKeyed (serveAll delivers sampleRequests openDb).
Proof.
  apply (requests_keep_well_keyed delivers sampleRequests openDb).
  split; [|split].
  - intros k a H. by destruct (openDb_no_appointment k a).
  - intros k a H. by destruct (openDb_no_appointment k a).
  - intros k r. simpl. by rewrite lookup_empty.
Defined.

(** X6: the timestamps follow the status after any sequence of requests:
    PENDING appointments carry no timestamp, reason or session notes,
    CONFIRMED ones carry confirmedAt and no other timestamp, CANCELLED ones
    carry cancelledAt and a reason, COMPLETED ones carry completedAt; and no
    request ever produces a NO_SHOW appointment. *)
Theorem requests_keep_stamped dispatch requests db :
  allStamped db → allStamped (serveAll dispatch requests db).
Proof. apply serveAll_invariant, effect_allStamped. Qed.

Lemma requests_keep_stamped_witness :
  allStamped (serveAll delivers sampleRequests openDb).
Proof.
  apply (requests_keep_stamped delivers sampleRequests openDb).
  intros k a H. by destruct (openDb_no_appointment k a).
Defined.

(** X7: after any sequence of requests every review belongs to a COMPLETED
    appointment, is by that appointment's patient and about its therapist,
    and no appointment has two reviews. *)
Theorem requests_keep_reviews_sound dispatch requests db :
  reviewsSound db ∧ oneReviewPerAppointment db →
  reviewsSound (serveAll dispatch requests db) ∧
  oneReviewPerAppointment (serveAll dispatch requests db).
Proof.
  apply (serveAll_invariant (λ db, reviewsSound db ∧ oneReviewPerAppointment db)).
  intros db0 db' Heff [Hs Hu].
  split; [by eapply effect_reviewsSound|by eapply effect_oneReview].
Qed.

Lemma requests_keep_reviews_sound_witness :
  reviewsSound (serveAll delivers sampleRequests openDb) ∧
  oneReviewPerAppointment (serveAll delivers sampleRequests openDb).
Proof.
  apply (requests_keep_reviews_sound delivers sampleRequests openDb).
  split.
  - intros k r. simpl. by rewrite lookup_empty.
  - intros k1 k2 r1 r2. simpl. by rewrite lookup_empty.
Defined.

(** X8: the aggregate columns never drift: after any sequence of requests
    every therapist's totalReviews is the number of that therapist's reviews
    and averageRating is their mean (0 without reviews). *)
Theorem requests_keep_stats_sound dispatch requests db :
  statsSound db → statsSound (serveAll dispatch requests db).
Proof. apply serveAll_invariant, effect_statsSound. Qed.

Lemma requests_keep_stats_sound_witness :
  statsSound (serveAll delivers sampleRequests openDb).
Proof.
  apply (requests_keep_stats_sound delivers sampleRequests openDb).
  intros k th. simpl. rewrite lookup_insert. case_decide as E.
  - subst k. intros [= <-]. split; reflexivity.
  - by rewrite lookup_empty.
Defined.

(** ** Rejections and authorization *)

Ltac no_row Ha :=
  unfold confirm, decline, cancel, complete, mbind, M_bind,
    appointment_findUnique_include_therapist;
  rewrite Ha; simpl.

(** X9: a request that ends in one of the service's own exceptions
    (NotFound, Forbidden, BadRequest) has written nothing. *)
Theorem guard_errors_write_nothing dispatch db e :
  guardError e →
  (∀ data, (create dispatch data db).1 = inl e →
           (create dispatch data db).2 = db) ∧
  (∀ now id userId,
     (confirm dispatch now id userId db).1 = inl e →
     (confirm dispatch now id userId db).2 = db) ∧
  (∀ now id userId reason,
     (decline dispatch now id userId reason db).1 = inl e →
     (decline dispatch now id userId reason db).2 = db) ∧
  (∀ now id userId reason isTherapist,
     (cancel dispatch now id userId reason isTherapist db).1 = inl e →
     (cancel dispatch now id userId reason isTherapist db).2 = db) ∧
  (∀ now id userId sessionNotes,
     (complete now id userId sessionNotes db).1 = inl e →
     (complete now id userId sessionNotes db).2 = db) ∧
  (∀ appointmentId userId data,
     (addReview appointmentId userId data db).1 = inl e →
     (addReview appointmentId userId data db).2 = db).
Proof.
  intros He. split; [|split; [|split; [|split; [|split]]]].
  - intros data. rewrite create_run.
    destruct (therapists db !! _); [|done].
    destruct (findFirst _ _); [done|].
    simpl. destruct (dispatch _); simpl; [|done].
    intros [= <-]. done.
  - intros now id userId.
    destruct (appointments db !! id) as [a|] eqn:Ha; [|by no_row Ha].
    destruct (therapists db !! Appointment.therapistId a) as [th|] eqn:Hth;
      [|by no_row Ha; rewrite Hth].
    rewrite (confirm_run dispatch db id a th Ha Hth).
    repeat case_decide; try done.
    unfold notified. destruct (dispatch _); simpl; [|done].
    intros [= <-]. done.
  - intros now id userId reason.
    destruct (appointments db !! id) as [a|] eqn:Ha; [|by no_row Ha].
    destruct (therapists db !! Appointment.therapistId a) as [th|] eqn:Hth;
      [|by no_row Ha; rewrite Hth].
    rewrite (decline_run dispatch db id a th Ha Hth).
    repeat case_decide; try done.
    unfold notified. destruct (dispatch _); simpl; [|done].
    intros [= <-]. done.
  - intros now id userId reason isTherapist.
    destruct (appointments db !! id) as [a|] eqn:Ha; [|by no_row Ha].
    destruct (therapists db !! Appointment.therapistId a) as [th|] eqn:Hth;
      [|by no_row Ha; rewrite Hth].
    rewrite (cancel_run dispatch db id a th Ha Hth).
    repeat case_decide; try done.
    unfold notified. destruct (dispatch _); simpl; [|done].
    intros [= <-]. done.
  - intros now id userId sessionNotes.
    destruct (appointments db !! id) as [a|] eqn:Ha; [|by no_row Ha].
    destruct (therapists db !! Appointment.therapistId a) as [th|] eqn:Hth;
      [|by no_row Ha; rewrite Hth].
    rewrite (complete_run db id a th Ha Hth).
    by case_decide.
  - intros appointmentId userId data. rewrite addReview_run.
    destruct (appointments db !! appointmentId); [|done].
    repeat case_decide; try done.
    destruct (findFirst _ _); [done|]. simpl.
    destruct (therapists db !! _); simpl; [done|].
    intros [= <-]. done.
Qed.

(** The patient tries to confirm the PENDING appointment of the sample
    store: Forbidden, and the store is as it was. *)
Lemma guard_errors_write_nothing_witness :
  (confirm delivers 7 "a3" "patient" sampleDb).2 = sampleDb.
Proof.
  destruct (guard_errors_write_nothing delivers sampleDb
              (ForbiddenException "Not authorized") I) as (_ & Hconfirm & _).
  apply Hconfirm. vm_compute. reflexivity.
Defined.

(** X10: only the therapist's user account confirms, declines or completes
    an appointment, only the patient reviews it, and a cancellation is
    accepted from the patient (isTherapist false) or from the therapist's
    user account (isTherapist true) alone: anyone else gets Forbidden, and
    nothing is written. *)
Theorem only_the_parties_act dispatch db id a th userId :
  appointments db !! id = Some a →
  therapists db !! Appointment.therapistId a = Some th →
  (Therapist.userId th ≠ userId →
     (∀ now, confirm dispatch now id userId db
             = (inl (ForbiddenException "Not authorized"), db)) ∧
     (∀ now reason, decline dispatch now id userId reason db
                    = (inl (ForbiddenException "Not authorized"), db)) ∧
     (∀ now notes, complete now id userId notes db
                   = (inl (ForbiddenException "Not authorized"), db)) ∧
     (∀ now reason, cancel dispatch now id userId reason true db
                    = (inl (ForbiddenException "Not authorized"), db))) ∧
  (Appointment.userId a ≠ userId →
     (∀ now reason, cancel dispatch now id userId reason false db
                    = (inl (ForbiddenException "Not authorized"), db)) ∧
     (∀ data, addReview id userId data db
              = (inl (ForbiddenException "Not authorized"), db))).
Proof.
  intros Ha Hth. split.
  - intros Hne. repeat split; intros.
    + rewrite (confirm_run dispatch db id a th Ha Hth). by rewrite decide_True.
    + rewrite (decline_run dispatch db id a th Ha Hth). by rewrite decide_True.
    + rewrite (complete_run db id a th Ha Hth). by rewrite decide_True.
    + rewrite (cancel_run dispatch db id a th Ha Hth).
      rewrite decide_False by (intros [? _]; discriminate).
      by rewrite decide_True.
  - intros Hne. split; intros.
    + rewrite (cancel_run dispatch db id a th Ha Hth). by rewrite decide_True.
    + rewrite addReview_run, Ha. by rewrite decide_True.
Qed.

(** On the sample store the patient cannot complete, and the therapist
    cannot review, the COMPLETED appointment. *)
Lemma only_the_parties_act_witness :
  complete 7 "a4" "patient" None sampleDb
    = (inl (ForbiddenException "Not authorized"), sampleDb) ∧
  addReview "a4" "doc" (stars 5) sampleDb
    = (inl (ForbiddenException "Not authorized"), sampleDb).
Proof.
  destruct (only_the_parties_act delivers sampleDb "a4"
              (sampleAppointment "a4" COMPLETED) (Therapist.mk "t1" "doc" 0 0)
              "patient") as [Htherapist _]; [reflexivity|reflexivity|].
  destruct (only_the_parties_act delivers sampleDb "a4"
              (sampleAppointment "a4" COMPLETED) (Therapist.mk "t1" "doc" 0 0)
              "doc") as [_ Hpatient]; [reflexivity|reflexivity|].
  split.
  - apply Htherapist. discriminate.
  - apply Hpatient. discriminate.
Defined.

(** X11: the cancel route always cancels as the patient: a user who is not
    the appointment's patient, the therapist included, gets Forbidden, and
    the patient's cancellation is the service's cancellation with
    isTherapist false. *)
Theorem cancel_route_is_for_the_patient dispatch db id a th now user reason :
  appointments db !! id = Some a →
  therapists db !! Appointment.therapistId a = Some th →
  (Appointment.userId a ≠ user →
     Controller.cancel dispatch now user id reason db
       = (inl (ForbiddenException "Not authorized"), db)) ∧
  (Appointment.userId a = user →
     Appointment.status a ≠ COMPLETED →
     Appointment.status a ≠ CANCELLED →
     (Controller.cancel dispatch now user id reason db).2
       = updated db id a (cancelData now reason) ∧
     Appointment.status (Appointment.apply (cancelData now reason) a) = CANCELLED).
Proof.
  intros Ha Hth. unfold Controller.cancel.
  rewrite (cancel_run dispatch db id a th Ha Hth). split.
  - intros Hne. by rewrite decide_True.
  - intros Hu Hs Hs'.
    rewrite decide_False by (intros [_ ?]; done).
    rewrite decide_False by (intros [? _]; discriminate).
    rewrite decide_False by tauto.
    unfold notified. by destruct (dispatch _).
Qed.

(** On the sample store the therapist cannot cancel the CONFIRMED
    appointment through the route. *)
Lemma cancel_route_is_for_the_patient_witness :
  Controller.cancel delivers 7 "doc" "a5" "unwell" sampleDb
    = (inl (ForbiddenException "Not authorized"), sampleDb).
Proof.
  apply (cancel_route_is_for_the_patient delivers sampleDb "a5"
           (sampleAppointment "a5" CONFIRMED) (Therapist.mk "t1" "doc" 0 0)
           7 "doc" "unwell"); [reflexivity|reflexivity|discriminate].
Defined.

(** ** A session from booking to review *)

Lemma no_review_of_unused_key db :
  reviewsSound db →
  findFirst (λ r, Review.appointmentId r = fresh (dom (appointments db)))
            (reviews db) = None.
Proof.
  intros Hsound. apply findFirst_None. intros k r Hk Heq.
  destruct (Hsound k r Hk) as (a & Ha & _).
  rewrite Heq, fresh_key_unused in Ha. discriminate.
Qed.

(** X12: on a store whose reviews belong to stored appointments, a booking
    of a free slot with a known therapist, its confirmation and completion
    by the therapist and a review by the patient all succeed one after the
    other when the notifications are delivered: the appointment ends
    COMPLETED and the therapist's totalReviews grows by one. *)
Theorem booked_session_runs_to_review
    dispatch db data th now1 now2 sessionNotes review :
  (∀ n, dispatch n = None) →
  therapists db !! CreateData.therapistId data = Some th →
  ¬ slotTaken data db →
  reviewsSound db →
  ∃ a0 db1 a1 db2 a2 db3 r db4 th',
    create dispatch data db = (inr a0, db1) ∧
    confirm dispatch now1 (Appointment.id a0) (Therapist.userId th) db1
      = (inr a1, db2) ∧
    complete now2 (Appointment.id a0) (Therapist.userId th) sessionNotes db2
      = (inr a2, db3) ∧
    addReview (Appointment.id a0) (CreateData.userId data) review db3
      = (inr r, db4) ∧
    Appointment.status a0 = PENDING ∧
    Appointment.status a1 = CONFIRMED ∧
    Appointment.status a2 = COMPLETED ∧
    appointments db4 !! Appointment.id a0 = Some a2 ∧
    Review.rating r = ReviewData.rating review ∧
    therapists db4 !! CreateData.therapistId data = Some th' ∧
    Therapist.totalReviews th'
      = Z.of_nat (length (ratingsOf (CreateData.therapistId data) (reviews db))) + 1.
Proof.
  intros Hdel Hth Hfree Hsound.
  set (id := fresh (dom (appointments db))).
  set (a0 := createRow data id).
  set (db1 := with_appointments (insert id a0) db).
  set (a1 := Appointment.apply (confirmData now1) a0).
  set (db2 := updated db1 id a0 (confirmData now1)).
  set (a2 := Appointment.apply (completeData now2 sessionNotes) a1).
  set (db3 := updated db2 id a1 (completeData now2 sessionNotes)).
  assert (H1 : create dispatch data db = (inr a0, db1)).
  { rewrite create_run, Hth.
    destruct (findFirst _ _) eqn:Hf.
    - destruct Hfree. apply conflict_taken. rewrite Hf. eauto.
    - simpl. by rewrite Hdel. }
  assert (Hl1 : appointments db1 !! id = Some a0) by apply lookup_insert_eq.
  assert (H2 : confirm dispatch now1 id (Therapist.userId th) db1 = (inr a1, db2)).
  { rewrite (confirm_run dispatch db1 id a0 th Hl1 Hth).
    rewrite decide_False by (intros H; by apply H).
    rewrite decide_False by (intros H; by apply H).
    unfold notified. by rewrite Hdel. }
  assert (Hl2 : appointments db2 !! id = Some a1) by apply lookup_insert_eq.
  assert (H3 : complete now2 id (Therapist.userId th) sessionNotes db2
               = (inr a2, db3)).
  { rewrite (complete_run db2 id a1 th Hl2 Hth).
    by rewrite decide_False by (intros H; by apply H). }
  assert (Hl3 : appointments db3 !! id = Some a2) by apply lookup_insert_eq.
  pose proof (no_review_of_unused_key db Hsound) as Hnone. fold id in Hnone.
  pose proof (addReview_run id (CreateData.userId data) review db3) as H4.
  rewrite Hl3 in H4.
  rewrite decide_False in H4 by (intros H; by apply H).
  rewrite decide_False in H4 by (intros H; by apply H).
  change (reviews db3) with (reviews db) in H4.
  change (therapists db3) with (therapists db) in H4.
  rewrite Hnone in H4.
  change (Appointment.therapistId a2) with (CreateData.therapistId data) in H4.
  rewrite Hth in H4. cbv zeta in H4.
  do 9 eexists.
  split; [exact H1|]. split; [exact H2|]. split; [exact H3|].
  split; [exact H4|].
  split; [done|]. split; [done|]. split; [done|].
  split; [exact Hl3|]. split; [done|].
  split; [apply lookup_insert_eq|].
  cbn [Therapist.totalReviews _count aggregate reviews with_reviews].
  rewrite (Permutation_length
             (ratingsOf_insert (CreateData.therapistId data) (reviews db)
                (fresh (dom (reviews db)))
                (reviewRow a2 id (CreateData.userId data) review
                   (fresh (dom (reviews db))))
                (fresh_key_unused _) eq_refl)).
  simpl. lia.
Qed.

(** On the store with one therapist: the session is booked under the key
    "0", confirmed, completed and rated 4. *)
Lemma booked_session_runs_to_review_witness :
  ∃ a0 db1 a1 db2 a2 db3 r db4 th',
    create delivers (sampleRequest "t1" (100 * hourMs)) openDb = (inr a0, db1) ∧
    confirm delivers 1 (Appointment.id a0) "doc" db1 = (inr a1, db2) ∧
    complete 2 (Appointment.id a0) "doc" None db2 = (inr a2, db3) ∧
    addReview (Appointment.id a0) "patient" (stars 4) db3 = (inr r, db4) ∧
    Appointment.status a0 = PENDING ∧
    Appointment.status a1 = CONFIRMED ∧
    Appointment.status a2 = COMPLETED ∧
    appointments db4 !! Appointment.id a0 = Some a2 ∧
    Review.rating r = 4 ∧
    therapists db4 !! "t1" = Some th' ∧
    Therapist.totalReviews th' = 0 + 1.
Proof.
  apply (booked_session_runs_to_review delivers openDb
           (sampleRequest "t1" (100 * hourMs)) (Therapist.mk "t1" "doc" 0 0)
           1 2 None (stars 4)).
  - reflexivity.
  - reflexivity.
  - intros (k & a & Hk & _). by destruct (openDb_no_appointment k a).
  - intros k r. simpl. by rewrite lookup_empty.
Defined.

(** ** Decline reasons and refunds *)

(** X13: a declined appointment always carries a non-empty reason: the
    therapist's reason when there is one, and "Declined by therapist" when
    the reason is absent or empty. *)
Theorem decline_reason_never_empty dispatch db now id userId reason a' db' :
  decline dispatch now id userId reason db = (inr a', db') →
  Appointment.status a' = CANCELLED ∧
  Appointment.cancelledAt a' = Some now ∧
  appointments db' !! id = Some a' ∧
  ∃ text,
    Appointment.cancellationReason a' = Some text ∧ text ≠ "" ∧
    (text = "Declined by therapist" ∧ (reason = None ∨ reason = Some "") ∨
     reason = Some text).
Proof.
  destruct (appointments db !! id) as [a|] eqn:Ha;
    [|unfold decline, mbind, M_bind, appointment_findUnique_include_therapist;
      rewrite Ha; discriminate].
  destruct (therapists db !! Appointment.therapistId a) as [th|] eqn:Hth;
    [|unfold decline, mbind, M_bind, appointment_findUnique_include_therapist;
      rewrite Ha, Hth; discriminate].
  rewrite (decline_run dispatch db id a th Ha Hth).
  repeat case_decide; try discriminate.
  unfold notified. destruct (dispatch _); [discriminate|].
  intros [= <- <-]. split; [done|]. split; [done|].
  split; [apply lookup_insert_eq|].
  exists (orString reason "Declined by therapist"). split; [done|].
  destruct reason as [[|c s]|]; simpl; split; try done; eauto.
Qed.

(** The therapist of the sample store declines with an empty reason: the
    stored reason is not empty. *)
Lemma decline_reason_never_empty_witness :
  ∃ text,
    Appointment.cancellationReason
      (Appointment.apply (declineData 7 (Some "")) (sampleAppointment "a3" PENDING))
      = Some text ∧
    text ≠ "".
Proof.
  destruct (decline_reason_never_empty delivers sampleDb 7 "a3" "doc" (Some "")
              (Appointment.apply (declineData 7 (Some ""))
                 (sampleAppointment "a3" PENDING))
              (updated sampleDb "a3" (sampleAppointment "a3" PENDING)
                 (declineData 7 (Some ""))))
    as (_ & _ & _ & text & Htext & Hne & _); [vm_compute; reflexivity|].
  by exists text.
Defined.

(** X14: the refund percentage is 0, 50 or 100, and cancelling later never
    gives more than cancelling earlier. *)
Theorem refund_never_grows_with_time (scheduledAt now now' : Z) :
  now ≤ now' →
  refundPercentage scheduledAt now' ≤ refundPercentage scheduledAt now ∧
  (refundPercentage scheduledAt now = 0 ∨
   refundPercentage scheduledAt now = 50 ∨
   refundPercentage scheduledAt now = 100).
Proof.
  intros Hle. rewrite !refundPercentage_cases.
  repeat case_decide; split; try lia; auto.
Qed.

Lemma refund_never_grows_with_time_witness :
  refundPercentage (100 * hourMs) (90 * hourMs)
    ≤ refundPercentage (100 * hourMs) (70 * hourMs).
Proof.
  apply (refund_never_grows_with_time (100 * hourMs) (70 * hourMs) (90 * hourMs)).
  vm_compute. discriminate.
Defined.

(** * Listings *)

Global Instance byScheduledAt_total status : Total (byScheduledAt status).
Proof. intros a b. unfold byScheduledAt. case_decide; lia. Qed.

Global Instance byScheduledAt_trans status : Transitive (byScheduledAt status).
Proof. intros a b c. unfold byScheduledAt. case_decide; lia. Qed.

Lemma listAppointments_elem owner ownerId status now
    (tbl : gmap string Appointment.t) a :
  a ∈ listAppointments owner ownerId status now tbl ↔
  (∃ k, tbl !! k = Some a) ∧ owner a = ownerId ∧ listWhere status now a.
Proof.
  unfold listAppointments, findMany.
  rewrite merge_sort_Permutation, list_elem_of_filter, elem_of_rows. tauto.
Qed.

Lemma listAppointments_sorted owner ownerId status now
    (tbl : gmap string Appointment.t) :
  StronglySorted (byScheduledAt status)
    (listAppointments owner ownerId status now tbl).
Proof. apply StronglySorted_merge_sort; apply _. Qed.

Lemma listAppointments_rows owner ownerId status now
    (tbl : gmap string Appointment.t) :
  listAppointments owner ownerId status now tbl
  ≡ₚ filter (λ a, owner a = ownerId ∧ listWhere status now a)
            (snd <$> map_to_list tbl).
Proof. unfold listAppointments. apply merge_sort_Permutation. Qed.

Lemma includeTherapist_Some db a row :
  includeTherapist db a = Some row →
  Listed.appointment row = a ∧
  therapists db !! Appointment.therapistId a = Some (Listed.therapist row) ∧
  Listed.review row = reviewOf db a.
Proof.
  unfold includeTherapist.
  destruct (therapists db !! Appointment.therapistId a); [|discriminate].
  simpl. by intros [= <-].
Qed.

Lemma included_appointments db (l : list Appointment.t) (found : list Listed.t) :
  mapM (includeTherapist db) l = Some found →
  Listed.appointment <$> found = l.
Proof.
  rewrite mapM_Some. induction 1 as [|a row l found Hrow _ IH]; [done|].
  rewrite fmap_cons. apply includeTherapist_Some in Hrow as (-> & _).
  by rewrite IH.
Qed.

(** X15: when the therapist of every appointment exists, findByUser
    succeeds without a write; the rows it returns are exactly the stored
    appointments of the user that pass the status filter (upcoming: starting
    now or later and PENDING or CONFIRMED; past: started before now, or
    COMPLETED or CANCELLED; none: all of them), each stored row once and
    nothing else (the listing is a permutation of the rows of the table that
    pass the filter), each with its therapist and its review, ordered by
    scheduledAt, descending for past and ascending otherwise. *)
Theorem findByUser_lists_in_order now userId status db :
  (∀ k a, appointments db !! k = Some a →
          is_Some (therapists db !! Appointment.therapistId a)) →
  ∃ found,
    findByUser now userId status db = (inr found, db) ∧
    (∀ a, a ∈ Listed.appointment <$> found ↔
          (∃ k, appointments db !! k = Some a) ∧
          Appointment.userId a = userId ∧ listWhere status now a) ∧
    StronglySorted (byScheduledAt status) (Listed.appointment <$> found) ∧
    (∀ row, row ∈ found →
       therapists db !! Appointment.therapistId (Listed.appointment row)
         = Some (Listed.therapist row) ∧
       Listed.review row = reviewOf db (Listed.appointment row)) ∧
    Listed.appointment <$> found
    ≡ₚ filter (λ a, Appointment.userId a = userId ∧ listWhere status now a)
              (snd <$> map_to_list (appointments db)).
Proof.
  intros Hth. unfold findByUser.
  destruct (mapM _ _) as [found|] eqn:Hm.
  - exists found. split; [done|].
    pose proof (included_appointments db _ found Hm) as Happ.
    rewrite Happ. split; [apply listAppointments_elem|].
    split; [apply listAppointments_sorted|].
    split; [|apply listAppointments_rows].
    intros row Hrow. apply mapM_Some in Hm.
    apply list_elem_of_lookup in Hrow as [i Hi].
    destruct (Forall2_lookup_r _ _ _ i row Hm Hi) as (a & _ & Ha).
    apply includeTherapist_Some in Ha as (<- & ? & ?). done.
  - apply mapM_None, Exists_exists in Hm as (a & Ha & Hnone).
    apply listAppointments_elem in Ha as ((k & Hk) & _).
    destruct (Hth k a Hk) as [th Hsome].
    unfold includeTherapist in Hnone. rewrite Hsome in Hnone. discriminate.
Qed.

(** On the sample store the patient's upcoming appointments are the
    PENDING and the CONFIRMED one, and the listing has two rows. *)
Lemma findByUser_lists_in_order_witness :
  ∃ found,
    findByUser 0 "patient" (Some upcoming) sampleDb = (inr found, sampleDb) ∧
    sampleAppointment "a3" PENDING ∈ Listed.appointment <$> found ∧
    sampleAppointment "a5" CONFIRMED ∈ Listed.appointment <$> found ∧
    (sampleAppointment "a1" CANCELLED ∉ Listed.appointment <$> found) ∧
    length found = 2%nat.
Proof.
  destruct (findByUser_lists_in_order 0 "patient" (Some upcoming) sampleDb)
    as (found & Hrun & Hin & _ & _ & Hrows).
  - intros k a Hk.
    assert (Ht : Appointment.therapistId a = "t1").
    { revert Hk. simpl. rewrite !lookup_insert.
      repeat case_decide; first [by intros [= <-]|by rewrite lookup_empty]. }
    rewrite Ht. by eexists.
  - exists found. split; [exact Hrun|].
    split; [|split; [|split]].
    + apply Hin. split; [by exists "a3"|]. split; [done|].
      split; [vm_compute; discriminate|]. left.
    + apply Hin. split; [by exists "a5"|]. split; [done|].
      split; [vm_compute; discriminate|]. right; left.
    + intros Hc. apply Hin in Hc as (_ & _ & _ & Hst).
      apply status_in_nonterminal in Hst as [Hst|Hst]; discriminate.
    + rewrite <- (length_fmap Listed.appointment found).
      rewrite (Permutation_length Hrows). vm_compute. reflexivity.
Defined.

(** X16: findByTherapist writes nothing and returns exactly the stored
    appointments of the therapist that pass the status filter, each stored
    row once and nothing else (the listing is a permutation of the rows of
    the table that pass the filter), each with its review, ordered by
    scheduledAt, descending for past and ascending otherwise. *)
Theorem findByTherapist_lists_in_order now therapistId status db :
  ∃ found,
    findByTherapist now therapistId status db = (inr found, db) ∧
    (∀ a, a ∈ (fst <$> found) ↔
          (∃ k, appointments db !! k = Some a) ∧
          Appointment.therapistId a = therapistId ∧ listWhere status now a) ∧
    StronglySorted (byScheduledAt status) (fst <$> found) ∧
    (∀ a review, (a, review) ∈ found → review = reviewOf db a) ∧
    fst <$> found
    ≡ₚ filter (λ a, Appointment.therapistId a = therapistId ∧
                    listWhere status now a)
              (snd <$> map_to_list (appointments db)).
Proof.
  eexists. split; [reflexivity|].
  rewrite <- list_fmap_compose.
  replace (fst ∘ (λ a, (a, reviewOf db a))) with (@id Appointment.t) by done.
  rewrite list_fmap_id.
  split; [apply listAppointments_elem|].
  split; [apply listAppointments_sorted|].
  split; [|apply listAppointments_rows].
  intros a review Hin. apply list_elem_of_fmap in Hin as (a' & [= -> ->] & _).
  done.
Qed.

Lemma status_in_closed (s : AppointmentStatus) :
  s ∈ [COMPLETED; CANCELLED] ↔ s = COMPLETED ∨ s = CANCELLED.
Proof. rewrite !elem_of_cons, elem_of_nil. tauto. Qed.

(** X17: the upcoming and the past listing never share an appointment, and
    a stored appointment of the therapist is in neither of them exactly when
    it is NO_SHOW and starts now or later. *)
Theorem upcoming_past_gap now therapistId db k a up pa :
  appointments db !! k = Some a →
  Appointment.therapistId a = therapistId →
  (findByTherapist now therapistId (Some upcoming) db).1 = inr up →
  (findByTherapist now therapistId (Some past) db).1 = inr pa →
  ¬ (a ∈ fst <$> up ∧ a ∈ fst <$> pa) ∧
  ((a ∉ fst <$> up) ∧ (a ∉ fst <$> pa) ↔
   Appointment.status a = NO_SHOW ∧ now ≤ Appointment.scheduledAt a).
Proof.
  intros Hk Ht. unfold findByTherapist. simpl. intros [= <-] [= <-].
  rewrite <- !list_fmap_compose.
  replace (fst ∘ (λ a, (a, reviewOf db a))) with (@id Appointment.t) by done.
  rewrite !list_fmap_id, !listAppointments_elem. simpl.
  rewrite status_in_nonterminal, status_in_closed.
  assert (Hex : ∃ k, appointments db !! k = Some a) by eauto.
  split.
  - intros [(_ & _ & Hge & Hs) (_ & _ & [Hlt|Hs'])]; [lia|].
    destruct Hs as [Hs|Hs], Hs' as [Hs'|Hs']; congruence.
  - split.
    + intros [Hup Hpa].
      assert (Hge : now ≤ Appointment.scheduledAt a).
      { destruct (decide (now ≤ Appointment.scheduledAt a)); [done|].
        destruct Hpa. repeat split; [done|done|]. left. lia. }
      split; [|done].
      destruct (Appointment.status a) eqn:Hs; try done.
      * destruct Hup. repeat split; auto.
      * destruct Hup. repeat split; auto.
      * destruct Hpa. repeat split; auto.
      * destruct Hpa. repeat split; auto.
    + intros [Hs Hge]. rewrite Hs. split.
      * intros (_ & _ & _ & [?|?]); discriminate.
      * intros (_ & _ & [?|[?|?]]); [lia|discriminate|discriminate].
Qed.

(** On the sample store, before the appointments start, the NO_SHOW
    appointment is neither upcoming nor past. *)
Lemma upcoming_past_gap_witness :
  ∃ up pa,
    (findByTherapist 0 "t1" (Some upcoming) sampleDb).1 = inr up ∧
    (findByTherapist 0 "t1" (Some past) sampleDb).1 = inr pa ∧
    (sampleAppointment "a2" NO_SHOW ∉ fst <$> up) ∧
    (sampleAppointment "a2" NO_SHOW ∉ fst <$> pa).
Proof.
  eexists _, _. split; [reflexivity|]. split; [reflexivity|].
  eapply (upcoming_past_gap 0 "t1" sampleDb "a2" (sampleAppointment "a2" NO_SHOW));
    [reflexivity|reflexivity|reflexivity|reflexivity|].
  split; [reflexivity|]. vm_compute. discriminate.
Defined.

(** ** findById after a booking and after a review *)

(** X18: findById of an unknown id is NotFound and writes nothing; on a
    store whose reviews belong to stored appointments, findById finds a
    freshly booked appointment as [create] returned it, with its therapist
    and no review; and on a store whose rows are stored under their ids,
    findById after a successful addReview shows the review just written. *)
Theorem findById_round_trips dispatch db :
  (∀ id, appointments db !! id = None →
         findById id db = (inl (NotFoundException "Appointment not found"), db)) ∧
  (reviewsSound db →
   ∀ data a db',
     create dispatch data db = (inr a, db') →
     ∃ th, findById (Appointment.id a) db' = (inr (Listed.mk a th None), db')) ∧
  (wellKeyed db →
   ∀ appointmentId userId data r db',
     addReview appointmentId userId data db = (inr r, db') →
     ∃ row,
       findById appointmentId db' = (inr row, db') ∧
       Listed.review row = Some r ∧
       Appointment.status (Listed.appointment row) = COMPLETED).
Proof.
  split; [|split].
  - intros id Hid. unfold findById. by rewrite Hid.
  - intros Hsound data a db'. rewrite create_run.
    destruct (therapists db !! CreateData.therapistId data) as [th|] eqn:Hth;
      [|discriminate].
    destruct (findFirst _ _); [discriminate|]. simpl.
    destruct (dispatch _); [discriminate|]. intros [= <- <-].
    exists th. unfold findById. simpl. rewrite lookup_insert_eq.
    unfold includeTherapist, reviewOf. simpl. rewrite Hth. simpl.
    by rewrite (no_review_of_unused_key db Hsound).
  - intros (Hid & _ & _) appointmentId userId data r db'. rewrite addReview_run.
    destruct (appointments db !! appointmentId) as [a|] eqn:Ha; [|discriminate].
    repeat case_decide; try discriminate.
    destruct (findFirst _ (reviews db)) eqn:Hnone; [discriminate|]. simpl.
    destruct (therapists db !! Appointment.therapistId a) as [th|] eqn:Hth;
      [|discriminate].
    intros [= <- <-]. unfold findById.
    cbn [appointments with_therapists with_reviews]. rewrite Ha.
    unfold includeTherapist.
    cbn [therapists with_therapists]. rewrite lookup_insert_eq.
    eexists. split; [reflexivity|].
    cbn [Listed.review Listed.appointment]. split; [|done].
    unfold reviewOf. cbn [reviews with_therapists with_reviews].
    rewrite (Hid _ _ Ha).
    destruct (findFirst _ (<[_ := _]> _)) as [r'|] eqn:Hf.
    + apply findFirst_Some in Hf as [Hr' [k Hk]].
      rewrite lookup_insert in Hk. case_decide as E; [congruence|].
      rewrite findFirst_None in Hnone. by destruct (Hnone k r' Hk).
    + rewrite findFirst_None in Hf.
      destruct (Hf (fresh (dom (reviews db)))
                  (reviewRow a appointmentId userId data
                     (fresh (dom (reviews db))))).
      * apply lookup_insert_eq.
      * done.
Qed.

(** On the review store, after the first session is rated 5, findById shows
    the review. *)
Lemma findById_round_trips_witness :
  ∃ row,
    findById "c1" (rate "c1" 5 completedDb) = (inr row, rate "c1" 5 completedDb) ∧
    Review.rating <$> Listed.review row = Some 5.
Proof.
  assert (Hkeyed : wellKeyed completedDb).
  { split; [|split].
    - intros k a. simpl. rewrite !lookup_insert.
      repeat case_decide; first [by intros [= <-]|by rewrite lookup_empty].
    - intros k a. simpl. rewrite !lookup_insert.
      repeat case_decide;
        first [intros [= <-]; by exists (Therapist.mk "t1" "doc" 0 0)
              |by rewrite lookup_empty].
    - intros k r. simpl. by rewrite lookup_empty. }
  assert (Hrun : addReview "c1" "patient" (stars 5) completedDb
                 = (inr (reviewRow (sampleAppointment "c1" COMPLETED) "c1"
                           "patient" (stars 5) "0"),
                    rate "c1" 5 completedDb)).
  { apply surjective_pairing_inr. vm_compute. reflexivity. }
  destruct (proj2 (proj2 (findById_round_trips delivers completedDb)) Hkeyed
              "c1" "patient" (stars 5) _ _ Hrun) as (row & Hrow & Hrev & _).
  exists row. split; [exact Hrow|]. by rewrite Hrev.
Defined.

(** ** Weekly recurrence of the availability *)

Lemma getDay_week tzOffset (t weeks : Z) :
  getDay tzOffset (t + weeks * 7 * dayMs) = getDay tzOffset t.
Proof.
  unfold getDay.
  replace (t + weeks * 7 * dayMs + tzOffset)
    with (t + tzOffset + (weeks * 7) * dayMs) by lia.
  rewrite Z.div_add by (unfold dayMs; lia).
  replace ((t + tzOffset) `div` dayMs + weeks * 7 + 4)
    with ((t + tzOffset) `div` dayMs + 4 + weeks * 7) by lia.
  apply Z.mod_add. lia.
Qed.

(** Across a change of the clocks the weekday can differ: midnight UTC of a
    Monday is a Monday at offset 0 and a Sunday one hour behind UTC. *)
Remark getDay_across_clock_change :
  getDay 0 monday = 1 ∧ getDay (- hourMs) (monday + 7 * dayMs) = 0.
Proof. split; reflexivity. Qed.

(** X19: the availability recurs weekly between dates at which the
    server's zone has the same offset from UTC (on a server without
    daylight saving: always). [offsetAt] gives the offset of the server's
    zone at each instant; when it is the same at a date and at the date a
    whole number of weeks earlier or later, the operation returns the same
    slots for both, in the same order. *)
Theorem availability_recurs_weekly (offsetAt : Z → Z) therapistId date weeks db r :
  offsetAt (date + weeks * 7 * dayMs) = offsetAt date →
  (getAvailableSlots (offsetAt date) therapistId date db).1 = inr r →
  ∃ r',
    (getAvailableSlots (offsetAt (date + weeks * 7 * dayMs)) therapistId
       (date + weeks * 7 * dayMs) db).1 = inr r' ∧
    Slots.slots r' = Slots.slots r.
Proof.
  intros ->. unfold getAvailableSlots.
  destruct (therapists db !! therapistId); [|discriminate].
  simpl. intros [= <-]. eexists. split; [reflexivity|].
  simpl. by rewrite getDay_week.
Qed.

(** In the sample zone the Monday of the first week and the Monday three
    weeks later are both before the change of the clocks. *)
Lemma availability_recurs_weekly_witness :
  ∃ r',
    (getAvailableSlots (sampleZone (monday + 3 * 7 * dayMs)) "t1"
       (monday + 3 * 7 * dayMs) slotsDb).1 = inr r' ∧
    Slots.slots r' = [("09:00", "10:00"); ("11:00", "12:00")].
Proof.
  apply (availability_recurs_weekly sampleZone "t1" monday 3 slotsDb
           (Slots.mk monday [("09:00", "10:00"); ("11:00", "12:00")]
              [(monday + 9 * hourMs, 60)])).
  - vm_compute. reflexivity.
  - vm_compute. reflexivity.
Defined.

(** * Pages of reviews *)

Lemma ceilDiv_bounds (total limit : Z) :
  0 < limit →
  (ceilDiv total limit - 1) * limit < total ≤ ceilDiv total limit * limit.
Proof.
  intros Hpos. unfold ceilDiv.
  pose proof (Qle_ceiling (inject_Z total / inject_Z limit)) as Hle.
  pose proof (Qceiling_lt (inject_Z total / inject_Z limit)) as Hlt.
  set (c := Qceiling (inject_Z total / inject_Z limit)) in *.
  destruct limit as [|p|p]; try lia.
  unfold Qle, Qlt, Qdiv, Qmult, Qinv, inject_Z in Hle, Hlt.
  simpl in Hle, Hlt. lia.
Qed.


Section TherapistReviewsFacts.

Variable createdAt : Review.t → Z.
Variable userOf : string → UserCard.t.

(** X20: getReviews writes nothing; total is the number of the
    therapist's reviews and totalPages is the least number of pages of
    [limit] reviews that holds them; a page holds at most [limit] reviews,
    all of them reviews of the therapist, and none beyond the last page; and
    the user of a review is returned exactly when the review is not
    anonymous. *)
Theorem getReviews_page therapistId page limit db :
  1 ≤ page → 1 ≤ limit →
  ∃ out,
    getReviews createdAt userOf therapistId (Some page) (Some limit) db
      = (inr out, db) ∧
    Paged.total out
      = Z.of_nat (length (findMany (λ r, Review.therapistId r = therapistId)
                                   (reviews db))) ∧
    (Paged.totalPages out - 1) * limit < Paged.total out
      ≤ Paged.totalPages out * limit ∧
    Z.of_nat (length (Paged.data out)) ≤ limit ∧
    (Paged.totalPages out < page → Paged.data out = []) ∧
    (∀ r user, (r, user) ∈ Paged.data out →
       (∃ k, reviews db !! k = Some r) ∧
       Review.therapistId r = therapistId ∧
       user = if Review.isAnonymous r then None
              else Some (userOf (Review.userId r))).
Proof.
  intros Hpage Hlimit. eexists. split; [reflexivity|]. simpl.
  pose proof (ceilDiv_bounds
                (Z.of_nat (length (findMany (λ r, Review.therapistId r = therapistId)
                                            (reviews db)))) limit) as Hb.
  split; [done|]. split; [apply Hb; lia|]. split; [|split].
  - rewrite length_fmap. unfold skipTake. rewrite length_take. lia.
  - intros Hbeyond. unfold skipTake.
    rewrite drop_ge; [by rewrite take_nil|].
    rewrite merge_sort_Permutation. nia.
  - intros r user Hin. apply list_elem_of_fmap in Hin as (r' & [= -> ->] & Hin).
    unfold skipTake in Hin.
    apply elem_of_take in Hin as (i & Hi & _).
    apply list_elem_of_lookup_2, subseteq_drop in Hi.
    rewrite merge_sort_Permutation in Hi.
    apply list_elem_of_filter in Hi as [Ht Hr].
    apply elem_of_rows in Hr. done.
Qed.

End TherapistReviewsFacts.


(** A user whose reviews are anonymous where the flag says so. *)
Lemma getReviews_page_witness :
  ∃ out,
    getReviews (λ _, 0) (λ _, UserCard.mk "Ann" "Lee" None) "t1" (Some 1) (Some 2)
               ratedDb = (inr out, ratedDb) ∧
    Paged.total out = 3 ∧ Paged.totalPages out = 2 ∧
    Z.of_nat (length (Paged.data out)) ≤ 2.
Proof.
  destruct (getReviews_page (λ _, 0) (λ _, UserCard.mk "Ann" "Lee" None)
              "t1" 1 2 ratedDb) as (out & Hrun & Htotal & Hpages & Hlen & _);
    [lia|lia|].
  exists out. split; [exact Hrun|].
  assert (Ht : Paged.total out = 3) by (rewrite Htotal; vm_compute; reflexivity).
  split; [exact Ht|]. split; [lia|exact Hlen].
Defined.

Section TherapistReviewsPages.

Variable createdAt : Review.t → Z.
Variable userOf : string → UserCard.t.


End TherapistReviewsPages.


(** * Routes and notifications *)

(** X22: an appointment booked through the create route belongs to the
    authenticated user, is PENDING and of type SCHEDULED, and carries the
    therapist, start, duration, timezone, notes and amount of the body. *)
Theorem create_route_books_for_the_caller dispatch user body db a db' :
  Controller.create dispatch user body db = (inr a, db') →
  Appointment.userId a = user ∧
  Appointment.status a = PENDING ∧
  Appointment.type a = SCHEDULED ∧
  Appointment.therapistId a = CreateBody.therapistId body ∧
  Appointment.scheduledAt a = CreateBody.scheduledAt body ∧
  Appointment.duration a = CreateBody.duration body ∧
  Appointment.timezone a = CreateBody.timezone body ∧
  Appointment.bookingNotes a = CreateBody.bookingNotes body ∧
  Appointment.amount a = CreateBody.amount body ∧
  appointments db !! Appointment.id a = None ∧
  appointments db' !! Appointment.id a = Some a.
Proof.
  unfold Controller.create. rewrite create_run. simpl.
  destruct (therapists db !! _); [|discriminate].
  destruct (findFirst _ _); [discriminate|]. simpl.
  destruct (dispatch _); [discriminate|]. intros [= <- <-]. simpl.
  repeat split; [apply fresh_key_unused|apply lookup_insert_eq].
Qed.

Lemma create_route_books_for_the_caller_witness :
  ∃ a db',
    Controller.create delivers "patient"
      (CreateBody.mk "t1" (100 * hourMs) 45 "UTC" None 3000) openDb = (inr a, db') ∧
    Appointment.userId a = "patient" ∧ Appointment.type a = SCHEDULED.
Proof.
  eexists _, _. split; [vm_compute; reflexivity|].
  destruct (create_route_books_for_the_caller delivers "patient"
              (CreateBody.mk "t1" (100 * hourMs) 45 "UTC" None 3000) openDb
              (createRow (CreateData.mk "patient" "t1" (100 * hourMs) 45 "UTC"
                            None None 3000) "0")
              (with_appointments
                 (insert "0"
                    (createRow (CreateData.mk "patient" "t1" (100 * hourMs) 45
                                  "UTC" None None 3000) "0")) openDb))
    as (Hu & _ & Ht & _); [vm_compute; reflexivity|].
  split; [exact Hu|exact Ht].
Defined.

(** X23: each transition consults the sender once at most, about the other
    party: a confirmation or a decline notifies the patient, a cancellation
    by the therapist notifies the patient and one by the patient notifies the
    therapist's user account. Two senders that agree on that one
    notification give the same outcome, and a transition that returns the
    appointment had its notification delivered. *)
Theorem transitions_notify_the_other_party
    (d d' : Notification → option string) db id a th :
  appointments db !! id = Some a →
  therapists db !! Appointment.therapistId a = Some th →
  (∀ now userId,
     let n := BookingConfirmation (Appointment.userId a) (Appointment.id a) in
     (d n = d' n → confirm d now id userId db = confirm d' now id userId db) ∧
     (∀ r db', confirm d now id userId db = (inr r, db') → d n = None)) ∧
  (∀ now userId reason,
     let n := BookingDeclined (Appointment.userId a) (Appointment.id a) reason in
     (d n = d' n →
      decline d now id userId reason db = decline d' now id userId reason db) ∧
     (∀ r db', decline d now id userId reason db = (inr r, db') → d n = None)) ∧
  (∀ now userId reason (isTherapist : bool),
     let n := AppointmentCancelled
                (if isTherapist then Appointment.userId a else Therapist.userId th)
                (Appointment.id a) reason in
     (d n = d' n →
      cancel d now id userId reason isTherapist db
      = cancel d' now id userId reason isTherapist db) ∧
     (∀ r db', cancel d now id userId reason isTherapist db = (inr r, db') →
               d n = None)).
Proof.
  intros Ha Hth. split; [|split]; intros; subst n.
  - rewrite !(confirm_run _ db id a th Ha Hth). unfold notified.
    split.
    + intros ->. done.
    + intros r db'. repeat case_decide; try discriminate.
      by destruct (d _).
  - rewrite !(decline_run _ db id a th Ha Hth). unfold notified.
    split.
    + intros ->. done.
    + intros r db'. repeat case_decide; try discriminate.
      by destruct (d _).
  - rewrite !(cancel_run _ db id a th Ha Hth). unfold notified.
    split.
    + intros ->. done.
    + intros r db'. repeat case_decide; try discriminate.
      by destruct (d _).
Qed.

(** A sender that rejects everything but the cancellation notice to the
    therapist: the patient's cancellation goes through as with a sender that
    delivers everything. *)
Lemma transitions_notify_the_other_party_witness :
  cancel (λ n, match n with
               | AppointmentCancelled "doc" _ _ => None
               | _ => Some "rejected"
               end) 7 "a3" "patient" "late" false sampleDb
  = cancel delivers 7 "a3" "patient" "late" false sampleDb.
Proof.
  destruct (transitions_notify_the_other_party
              (λ n, match n with
                    | AppointmentCancelled "doc" _ _ => None
                    | _ => Some "rejected"
                    end) delivers sampleDb "a3"
              (sampleAppointment "a3" PENDING) (Therapist.mk "t1" "doc" 0 0))
    as (_ & _ & Hcancel); [reflexivity|reflexivity|].
  apply (Hcancel 7 "patient" "late" false). reflexivity.
Defined.

(** * Payment methods *)

Lemma findMany_insert {A} (P : A → Prop) `{!∀ x, Decision (P x)}
    (tbl : gmap string A) k x :
  tbl !! k = None →
  findMany P (<[k := x]> tbl)
    ≡ₚ (if decide (P x) then [x] else []) ++ findMany P tbl.
Proof.
  intros Hk. unfold findMany, rows.
  rewrite (map_to_list_insert tbl k x Hk). simpl.
  case_decide; [by rewrite filter_cons_True|by rewrite filter_cons_False].
Qed.

Lemma findMany_delete {A} (P : A → Prop) `{!∀ x, Decision (P x)}
    (tbl : gmap string A) k x :
  tbl !! k = Some x →
  (if decide (P x) then [x] else []) ++ findMany P (delete k tbl)
    ≡ₚ findMany P tbl.
Proof.
  intros Hk. unfold findMany, rows.
  rewrite <- (map_to_list_delete tbl k x Hk). simpl.
  case_decide; [by rewrite filter_cons_True|by rewrite filter_cons_False].
Qed.

Lemma findMany_fmap_length {A} (P : A → Prop) `{!∀ x, Decision (P x)}
    (f : A → A) (tbl : gmap string A) :
  (∀ x, P (f x) ↔ P x) →
  length (findMany P (f <$> tbl)) = length (findMany P tbl).
Proof.
  intros Hf. unfold findMany, rows. rewrite map_to_list_fmap.
  rewrite <- list_fmap_compose.
  induction (map_to_list tbl) as [|[k x] l IH]; [done|].
  rewrite !fmap_cons. simpl.
  destruct (decide (P x)) as [Hx|Hx].
  - rewrite !filter_cons_True by (done || by apply Hf). simpl. by rewrite IH.
  - rewrite !filter_cons_False by (done || by rewrite Hf). done.
Qed.

Lemma findMany_elem {A} (P : A → Prop) `{!∀ x, Decision (P x)}
    (tbl : gmap string A) x :
  x ∈ findMany P tbl ↔ P x ∧ ∃ k, tbl !! k = Some x.
Proof. unfold findMany. by rewrite list_elem_of_filter, elem_of_rows. Qed.

Lemma lookup_updateManyDefault userId flag (tbl : gmap string PaymentMethod.t) k :
  updateManyDefault userId flag tbl !! k
  = (λ m, if decide (PaymentMethod.userId m = userId)
          then PaymentMethod.withDefault flag m else m) <$> tbl !! k.
Proof. unfold updateManyDefault. apply lookup_fmap. Qed.

Lemma updateManyDefault_Some userId flag (tbl : gmap string PaymentMethod.t) k m' :
  updateManyDefault userId flag tbl !! k = Some m' →
  ∃ m, tbl !! k = Some m ∧
       PaymentMethod.id m' = PaymentMethod.id m ∧
       PaymentMethod.userId m' = PaymentMethod.userId m ∧
       (PaymentMethod.userId m = userId → PaymentMethod.isDefault m' = flag) ∧
       (PaymentMethod.userId m ≠ userId → m' = m).
Proof.
  rewrite lookup_updateManyDefault.
  destruct (tbl !! k) as [m|]; [|discriminate]. simpl.
  intros [= <-]. exists m. case_decide; by repeat split.
Qed.

Lemma methodsOf_empty userId (tbl : gmap string PaymentMethod.t) k m :
  length (methodsOf userId tbl) = 0%nat →
  tbl !! k = Some m → PaymentMethod.userId m ≠ userId.
Proof.
  intros Hlen Hk Hu. apply length_zero_iff_nil in Hlen.
  assert (Hin : m ∈ methodsOf userId tbl) by (apply findMany_elem; eauto).
  rewrite Hlen in Hin. by apply elem_of_nil in Hin.
Qed.

Lemma methodsOf_nonempty userId (tbl : gmap string PaymentMethod.t) :
  length (methodsOf userId tbl) ≠ 0%nat →
  ∃ k m, tbl !! k = Some m ∧ PaymentMethod.userId m = userId.
Proof.
  intros Hlen. destruct (methodsOf userId tbl) as [|m l] eqn:Hm; [done|].
  assert (Hin : m ∈ methodsOf userId tbl) by (rewrite Hm; left).
  apply findMany_elem in Hin as [Hu [k Hk]]. eauto.
Qed.

Lemma findOwned_Some userId id (tbl : gmap string PaymentMethod.t) m :
  (∀ k m, tbl !! k = Some m → PaymentMethod.id m = k) →
  findOwned userId id tbl = Some m →
  tbl !! id = Some m ∧ PaymentMethod.userId m = userId.
Proof.
  intros Hkeyed Hf. apply findFirst_Some in Hf as [[Hid Hu] [k Hk]].
  by rewrite <- Hid, (Hkeyed k m Hk).
Qed.

Lemma newest_remaining userId (tbl : gmap string PaymentMethod.t) :
  match head (merge_sort newestMethodFirst (methodsOf userId tbl)) with
  | Some m => PaymentMethod.userId m = userId ∧ ∃ k, tbl !! k = Some m
  | None => ∀ k m, tbl !! k = Some m → PaymentMethod.userId m ≠ userId
  end.
Proof.
  destruct (head _) as [m|] eqn:Hh.
  - apply head_Some_elem_of in Hh. rewrite merge_sort_Permutation in Hh.
    by apply findMany_elem in Hh.
  - apply head_None in Hh. intros k m Hk.
    apply (methodsOf_empty userId tbl k m); [|done].
    by rewrite <- (Permutation_length
                     (merge_sort_Permutation newestMethodFirst _)), Hh.
Qed.

(** The table after the defaults of a user have been cleared, when [flag]
    says so. *)
Lemma cleared_back userId (flag : bool) (tbl : gmap string PaymentMethod.t) k m' :
  (if flag then updateManyDefault userId false tbl else tbl) !! k = Some m' →
  ∃ m, tbl !! k = Some m ∧
       PaymentMethod.id m' = PaymentMethod.id m ∧
       PaymentMethod.userId m' = PaymentMethod.userId m ∧
       (PaymentMethod.isDefault m' = true →
          PaymentMethod.isDefault m = true ∧
          (flag = true → PaymentMethod.userId m ≠ userId)).
Proof.
  destruct flag.
  - intros Hk. apply updateManyDefault_Some in Hk as (m & Hm & Hid & Hu & Hd & Hne).
    exists m. split; [done|]. split; [done|]. split; [done|].
    intros Hd'. split.
    + destruct (decide (PaymentMethod.userId m = userId)) as [E|E].
      * rewrite (Hd E) in Hd'. discriminate.
      * by rewrite (Hne E) in Hd'.
    + intros _ E. rewrite (Hd E) in Hd'. discriminate.
  - intros Hk. exists m'. split; [done|]. split; [done|]. split; [done|].
    intros Hd'. split; [done|discriminate].
Qed.

Lemma cleared_forth userId (flag : bool) (tbl : gmap string PaymentMethod.t) k m :
  tbl !! k = Some m →
  ∃ m', (if flag then updateManyDefault userId false tbl else tbl) !! k = Some m' ∧
        PaymentMethod.userId m' = PaymentMethod.userId m ∧
        (PaymentMethod.userId m ≠ userId ∨ flag = false → m' = m).
Proof.
  intros Hk. destruct flag.
  - rewrite lookup_updateManyDefault, Hk. simpl. eexists. split; [done|].
    case_decide; split; try done; intros [?|?]; done.
  - exists m. by repeat split.
Qed.

Lemma addPaymentMethod_sound now userId data tbl :
  walletSound tbl → walletSound (addPaymentMethod now userId data tbl).2.
Proof.
  intros (Hkey & Hone & Hsome). unfold addPaymentMethod.
  case_decide as Hfull; [done|]. cbv zeta. simpl.
  set (flag := default false (MethodData.isDefault data)).
  set (tbl1 := if flag then updateManyDefault userId false tbl else tbl).
  assert (Hfresh : tbl1 !! fresh (dom tbl1) = None) by apply fresh_key_unused.
  split; [|split].
  - intros k m [[<- <-]|[Hne Hk]]%lookup_insert_Some; [done|].
    destruct (cleared_back userId flag tbl k m Hk) as (m0 & Hm0 & Hid & _).
    rewrite Hid. by eapply Hkey.
  - assert (Hrow : ∀ k m,
      tbl1 !! k = Some m → PaymentMethod.userId m = userId →
      PaymentMethod.isDefault m = true →
      bool_decide (length (methodsOf userId tbl) = 0%nat) || flag = true → False).
    { intros k m Hk Hu Hd Hnew.
      destruct (cleared_back userId flag tbl k m Hk) as (m0 & Hm0 & _ & Hu0 & Hd0).
      destruct (Hd0 Hd) as [_ Hflag].
      apply orb_true_iff in Hnew as [Hzero|Hf].
      - apply bool_decide_eq_true in Hzero.
        apply (methodsOf_empty userId tbl k m0 Hzero Hm0). congruence.
      - apply (Hflag Hf). congruence. }
    intros k1 k2 m1 m2
      [[<- <-]|[Hne1 H1]]%lookup_insert_Some
      [[<- <-]|[Hne2 H2]]%lookup_insert_Some; simpl.
    + done.
    + intros Hu Hd1 Hd2. by destruct (Hrow k2 m2 H2).
    + intros Hu Hd1 Hd2. by destruct (Hrow k1 m1 H1).
    + intros Hu Hd1 Hd2.
      destruct (cleared_back userId flag tbl k1 m1 H1) as (n1 & Hn1 & _ & Hu1 & Hx1).
      destruct (cleared_back userId flag tbl k2 m2 H2) as (n2 & Hn2 & _ & Hu2 & Hx2).
      apply (Hone k1 k2 n1 n2); [done|done|congruence|by apply Hx1|by apply Hx2].
  - assert (Hold : ∀ k m, tbl !! k = Some m →
      ∃ k' m', <[fresh (dom tbl1) :=
                 {| PaymentMethod.id := fresh (dom tbl1);
                    PaymentMethod.userId := userId;
                    PaymentMethod.stripePaymentMethodId :=
                      MethodData.stripePaymentMethodId data;
                    PaymentMethod.type := MethodData.type data;
                    PaymentMethod.brand := MethodData.brand data;
                    PaymentMethod.last4 := MethodData.last4 data;
                    PaymentMethod.expiryMonth := MethodData.expiryMonth data;
                    PaymentMethod.expiryYear := MethodData.expiryYear data;
                    PaymentMethod.isDefault :=
                      bool_decide (length (methodsOf userId tbl) = 0%nat) || flag;
                    PaymentMethod.createdAt := now |}]> tbl1 !! k' = Some m' ∧
               PaymentMethod.userId m' = PaymentMethod.userId m ∧
               PaymentMethod.isDefault m' = true).
    { intros k m Hk. destruct (Hsome k m Hk) as (k' & m' & Hk' & Hu' & Hd').
      destruct (decide (PaymentMethod.userId m = userId ∧ flag = true))
        as [[Hu Hf]|Hno].
      - exists (fresh (dom tbl1)). eexists. split; [apply lookup_insert_eq|].
        simpl. split; [done|]. rewrite Hf. apply orb_true_r.
      - destruct (cleared_forth userId flag tbl k' m' Hk') as (m1 & Hm1 & Hu1 & Hsame).
        exists k', m1. split.
        + rewrite lookup_insert_ne; [done|]. intros <-.
          fold tbl1 in Hm1. congruence.
        + split; [congruence|]. rewrite Hsame; [done|].
          destruct flag; [left|by right]. intros E. apply Hno. split; [congruence|done]. }
    intros k m [[<- <-]|[Hne Hk]]%lookup_insert_Some.
    + simpl.
      destruct (decide (length (methodsOf userId tbl) = 0%nat)) as [Hz|Hnz].
      * exists (fresh (dom tbl1)). eexists. split; [apply lookup_insert_eq|].
        simpl. split; [done|]. by rewrite bool_decide_eq_true_2.
      * destruct (methodsOf_nonempty userId tbl Hnz) as (k0 & m0 & Hk0 & Hu0).
        destruct (Hold k0 m0 Hk0) as (k' & m' & Hk' & Hu' & Hd').
        exists k', m'. split; [done|]. split; [congruence|done].
    + destruct (cleared_back userId flag tbl k m Hk) as (m0 & Hm0 & _ & Hu0 & _).
      destruct (Hold k m0 Hm0) as (k' & m' & Hk' & Hu' & Hd').
      exists k', m'. split; [done|]. split; [congruence|done].
Qed.

Lemma promote_sound userId (tbl : gmap string PaymentMethod.t) id m :
  soundExceptFor userId tbl →
  tbl !! id = Some m →
  PaymentMethod.userId m = userId →
  walletSound (<[id := PaymentMethod.withDefault true m]> tbl).
Proof.
  intros (Hkey & Hnone & Hone & Hsome) Hid Hu. split; [|split].
  - intros k m' [[<- <-]|[Hne Hk]]%lookup_insert_Some; [|by eapply Hkey].
    simpl. by eapply Hkey.
  - intros k1 k2 m1 m2
      [[<- <-]|[Hne1 H1]]%lookup_insert_Some
      [[<- <-]|[Hne2 H2]]%lookup_insert_Some; simpl.
    + done.
    + intros Hu2 _ Hd2. rewrite (Hnone k2 m2 H2) in Hd2; [discriminate|congruence].
    + intros Hu1 Hd1 _. rewrite (Hnone k1 m1 H1) in Hd1; [discriminate|congruence].
    + by apply Hone.
  - assert (Hnew : <[id := PaymentMethod.withDefault true m]> tbl !! id
                   = Some (PaymentMethod.withDefault true m))
      by apply lookup_insert_eq.
    assert (Hother : ∀ k m', tbl !! k = Some m' →
              PaymentMethod.userId m' ≠ userId →
              ∃ k' m'', <[id := PaymentMethod.withDefault true m]> tbl !! k'
                        = Some m'' ∧
                        PaymentMethod.userId m'' = PaymentMethod.userId m' ∧
                        PaymentMethod.isDefault m'' = true).
    { intros k m' Hk Hne. destruct (Hsome k m' Hk Hne) as (k' & m'' & Hk' & Hu' & Hd').
      exists k', m''. split; [|done].
      rewrite lookup_insert_ne; [done|]. intros <-. congruence. }
    intros k m' [[<- <-]|[Hne Hk]]%lookup_insert_Some.
    + eauto.
    + destruct (decide (PaymentMethod.userId m' = userId)) as [E|E].
      * exists id. eexists. split; [exact Hnew|]. simpl. split; [congruence|done].
      * by eapply Hother.
Qed.

Lemma cleared_soundExceptFor userId (tbl : gmap string PaymentMethod.t) :
  walletSound tbl → soundExceptFor userId (updateManyDefault userId false tbl).
Proof.
  intros (Hkey & Hone & Hsome). split; [|split; [|split]].
  - intros k m' Hk.
    apply updateManyDefault_Some in Hk as (m & Hm & Hid & _). rewrite Hid.
    by eapply Hkey.
  - intros k m' Hk Hu.
    apply updateManyDefault_Some in Hk as (m & Hm & _ & Hu' & Hd & _).
    apply Hd. congruence.
  - intros k1 k2 m1 m2 H1 H2 Hu Hd1 Hd2.
    apply (cleared_back userId true) in H1 as (n1 & Hn1 & _ & Hu1 & Hx1).
    apply (cleared_back userId true) in H2 as (n2 & Hn2 & _ & Hu2 & Hx2).
    apply (Hone k1 k2 n1 n2); [done|done|congruence|by apply Hx1|by apply Hx2].
  - intros k m' Hk Hne.
    apply updateManyDefault_Some in Hk as (m & Hm & _ & Hu & _).
    destruct (Hsome k m Hm) as (k' & m1 & Hk' & Hu1 & Hd1).
    destruct (cleared_forth userId true tbl k' m1 Hk') as (m2 & Hm2 & Hu2 & Hsame).
    exists k', m2. split; [done|]. split; [congruence|].
    rewrite Hsame; [done|]. left. congruence.
Qed.

Lemma setDefaultPaymentMethod_sound userId id tbl :
  walletSound tbl → walletSound (setDefaultPaymentMethod userId id tbl).2.
Proof.
  intros Hsound. unfold setDefaultPaymentMethod.
  destruct (findOwned userId id tbl) as [m0|] eqn:Hf; [|done].
  apply findOwned_Some in Hf as [Hid Hu]; [|apply Hsound].
  unfold makeDefault.
  destruct (cleared_forth userId true tbl id m0 Hid) as (m1 & Hm1 & Hu1 & _).
  rewrite Hm1. simpl.
  apply (promote_sound userId); [by apply cleared_soundExceptFor|done|congruence].
Qed.

Lemma deletePaymentMethod_sound userId id tbl :
  walletSound tbl → walletSound (deletePaymentMethod userId id tbl).2.
Proof.
  intros Hsound. pose proof Hsound as (Hkey & Hone & Hsome).
  unfold deletePaymentMethod.
  destruct (findOwned userId id tbl) as [m0|] eqn:Hf; [|done].
  apply findOwned_Some in Hf as [Hid Hu]; [|done].
  rewrite Hid.
  assert (Hkey' : ∀ k m, delete id tbl !! k = Some m → PaymentMethod.id m = k).
  { intros k m [_ Hk]%lookup_delete_Some. by eapply Hkey. }
  assert (Hone' : ∀ k1 k2 m1 m2,
     delete id tbl !! k1 = Some m1 → delete id tbl !! k2 = Some m2 →
     PaymentMethod.userId m1 = PaymentMethod.userId m2 →
     PaymentMethod.isDefault m1 = true → PaymentMethod.isDefault m2 = true →
     k1 = k2).
  { intros k1 k2 m1 m2 [_ H1]%lookup_delete_Some [_ H2]%lookup_delete_Some.
    by apply Hone. }
  assert (Hsome' : ∀ k m, delete id tbl !! k = Some m →
     (PaymentMethod.userId m ≠ userId ∨ PaymentMethod.isDefault m0 = false) →
     ∃ k' m', delete id tbl !! k' = Some m' ∧
              PaymentMethod.userId m' = PaymentMethod.userId m ∧
              PaymentMethod.isDefault m' = true).
  { intros k m [_ Hk]%lookup_delete_Some Hwhy.
    destruct (Hsome k m Hk) as (k' & m' & Hk' & Hu' & Hd').
    exists k', m'. split; [|done]. apply lookup_delete_Some. split; [|done].
    intros <-. rewrite Hid in Hk'. injection Hk' as <-.
    destruct Hwhy as [Hne|Hnd]; congruence. }
  destruct (PaymentMethod.isDefault m0) eqn:Hd0.
  - pose proof (newest_remaining userId (delete id tbl)) as Hrem.
    destruct (head _) as [remaining|].
    + destruct Hrem as [Hur [k Hk]].
      rewrite <- (Hkey' k remaining Hk) in Hk.
      unfold makeDefault. rewrite Hk. simpl.
      apply (promote_sound userId); [|done|done].
      split; [done|]. split; [|split; [done|]].
      * intros k1 m1 Hk1 Hu1.
        destruct (PaymentMethod.isDefault m1) eqn:Hd1; [|done].
        apply lookup_delete_Some in Hk1 as [Hne Hk1].
        destruct Hne. apply (Hone id k1 m0 m1); [done|done|congruence|done|done].
      * intros k1 m1 Hk1 Hne. apply (Hsome' k1 m1 Hk1). by left.
    + simpl. split; [done|]. split; [done|].
      intros k m Hk. apply (Hsome' k m Hk). left. by eapply Hrem.
  - simpl. split; [done|]. split; [done|].
    intros k m Hk. apply (Hsome' k m Hk). by right.
Qed.

Lemma serveWallet_sound req tbl :
  walletSound tbl → walletSound (serveWallet req tbl).
Proof.
  destruct req; simpl.
  - apply addPaymentMethod_sound.
  - apply setDefaultPaymentMethod_sound.
  - apply deletePaymentMethod_sound.
Qed.

Lemma serveWalletAll_sound requests tbl :
  walletSound tbl → walletSound (serveWalletAll requests tbl).
Proof.
  revert tbl. induction requests as [|req rest IH]; intros tbl Hs; [done|].
  simpl. by apply IH, serveWallet_sound.
Qed.

Lemma empty_walletSound : walletSound ∅.
Proof.
  split; [|split]; intros k; intros; by rewrite lookup_empty in *.
Qed.


(** X24: after any sequence of add, set-default and delete requests every
    payment method is stored under its id, no user has two default methods,
    and every user who has a saved method has a default one. *)
Theorem wallet_keeps_one_default requests tbl :
  walletSound tbl → walletSound (serveWalletAll requests tbl).
Proof. apply serveWalletAll_sound. Qed.

Lemma wallet_keeps_one_default_witness :
  walletSound (serveWalletAll sampleWalletRequests ∅).
Proof.
  apply (wallet_keeps_one_default sampleWalletRequests ∅).
  split; [|split]; intros k; intros; by rewrite lookup_empty in *.
Defined.

Lemma methodsOf_insert_same userId (tbl : gmap string PaymentMethod.t) k m m' :
  tbl !! k = Some m →
  PaymentMethod.userId m' = PaymentMethod.userId m →
  length (methodsOf userId (<[k := m']> tbl)) = length (methodsOf userId tbl).
Proof.
  intros Hk Hu. unfold methodsOf.
  rewrite <- (insert_delete_eq tbl k m').
  rewrite (Permutation_length
             (findMany_insert _ (delete k tbl) k m' (lookup_delete_eq tbl k))).
  rewrite <- (Permutation_length (findMany_delete _ tbl k m Hk)).
  rewrite !length_app. f_equal.
  rewrite Hu. by case_decide.
Qed.

Lemma methodsOf_cleared_length userId u flag (tbl : gmap string PaymentMethod.t) :
  length (methodsOf userId (updateManyDefault u flag tbl))
  = length (methodsOf userId tbl).
Proof.
  apply findMany_fmap_length. intros x. by case_decide.
Qed.

Lemma makeDefault_length userId id (tbl : gmap string PaymentMethod.t) :
  length (methodsOf userId (makeDefault id tbl).2)
  = length (methodsOf userId tbl).
Proof.
  unfold makeDefault. destruct (tbl !! id) as [m|] eqn:Hid; [|done].
  simpl. by apply (methodsOf_insert_same userId tbl id m).
Qed.

Lemma methodsOf_delete_length userId id (tbl : gmap string PaymentMethod.t) :
  (length (methodsOf userId (delete id tbl)) ≤ length (methodsOf userId tbl))%nat.
Proof.
  destruct (tbl !! id) as [m|] eqn:Hid.
  - unfold methodsOf.
    rewrite <- (Permutation_length (findMany_delete _ tbl id m Hid)).
    rewrite length_app. lia.
  - by rewrite delete_id.
Qed.

Lemma serveWallet_length userId req tbl :
  (length (methodsOf userId tbl) ≤ 5 →
   length (methodsOf userId (serveWallet req tbl)) ≤ 5)%nat.
Proof.
  destruct req as [now u data|u id|u id]; simpl; intros Hlen.
  - unfold addPaymentMethod. case_decide as Hfull; [done|]. simpl.
    set (tbl1 := if default false (MethodData.isDefault data)
                 then updateManyDefault u false tbl else tbl).
    assert (Hsame : ∀ v, length (methodsOf v tbl1) = length (methodsOf v tbl)).
    { intros v. unfold tbl1. destruct (default false _); [|done].
      apply methodsOf_cleared_length. }
    unfold methodsOf at 1.
    rewrite (Permutation_length (findMany_insert _ tbl1 (fresh (dom tbl1)) _
               (proj1 (not_elem_of_dom tbl1 _) (is_fresh (dom tbl1))))).
    rewrite length_app. fold (methodsOf userId tbl1). rewrite Hsame. simpl.
    case_decide as Hu; simpl; [|lia]. subst u. lia.
  - unfold setDefaultPaymentMethod. destruct (findOwned u id tbl); [|done].
    by rewrite makeDefault_length, methodsOf_cleared_length.
  - unfold deletePaymentMethod. destruct (findOwned u id tbl) as [m0|]; [|done].
    destruct (tbl !! id) as [m|] eqn:Hid; [|done].
    pose proof (methodsOf_delete_length userId id tbl) as Hdel.
    destruct (PaymentMethod.isDefault m0); [|simpl; lia].
    destruct (head _) as [remaining|]; [|simpl; lia].
    pose proof (makeDefault_length userId (PaymentMethod.id remaining)
                  (delete id tbl)) as Hmk.
    destruct (makeDefault _ _) as [[e|r] tbl2]; simpl in *; lia.
Qed.

(** X25: no sequence of add, set-default and delete requests gives a user
    more than five saved payment methods. *)
Theorem wallet_never_exceeds_five requests tbl :
  atMostFive tbl → atMostFive (serveWalletAll requests tbl).
Proof.
  revert tbl. induction requests as [|req rest IH]; intros tbl H5; [done|].
  simpl. apply IH. intros userId. apply serveWallet_length, H5.
Qed.

Lemma wallet_never_exceeds_five_witness :
  atMostFive (serveWalletAll sampleWalletRequests ∅).
Proof.
  apply (wallet_never_exceeds_five sampleWalletRequests ∅).
  intros userId. unfold methodsOf, findMany, rows.
  rewrite map_to_list_empty. simpl. lia.
Defined.


Lemma cleared_other u (flag : bool) (tbl : gmap string PaymentMethod.t) k m :
  PaymentMethod.userId m ≠ u →
  (if flag then updateManyDefault u false tbl else tbl) !! k = Some m ↔
  tbl !! k = Some m.
Proof.
  intros Hne. destruct flag; [|done]. split.
  - intros Hk.
    apply updateManyDefault_Some in Hk as (m0 & Hm0 & _ & Hu & _ & Hsame).
    assert (m = m0) as -> by (apply Hsame; congruence). done.
  - intros Hk.
    destruct (cleared_forth u true tbl k m Hk) as (m' & Hm' & _ & Hsame).
    rewrite Hsame in Hm'; [done|by left].
Qed.

Lemma insert_private u (t : gmap string PaymentMethod.t) k0 row k m :
  PaymentMethod.userId row = u →
  PaymentMethod.userId m ≠ u →
  (∀ r, t !! k0 = Some r → PaymentMethod.userId r = u) →
  <[k0 := row]> t !! k = Some m ↔ t !! k = Some m.
Proof.
  intros Hrow Hne Hk0. rewrite lookup_insert_Some. split.
  - intros [[<- <-]|[_ H]]; [done|done].
  - intros H. right. split; [|done]. intros <-. by apply Hk0 in H.
Qed.

Lemma delete_private u (t : gmap string PaymentMethod.t) k0 r k m :
  t !! k0 = Some r →
  PaymentMethod.userId r = u →
  PaymentMethod.userId m ≠ u →
  delete k0 t !! k = Some m ↔ t !! k = Some m.
Proof.
  intros Hk0 Hr Hne. rewrite lookup_delete_Some. split; [by intros [_ H]|].
  intros H. split; [|done]. intros <-. congruence.
Qed.

Lemma serveWallet_private req tbl k m :
  walletSound tbl →
  PaymentMethod.userId m ≠ requester req →
  serveWallet req tbl !! k = Some m ↔ tbl !! k = Some m.
Proof.
  intros Hsound Hne. pose proof Hsound as (Hkey & _ & _).
  destruct req as [now u data|u id|u id]; simpl in *.
  - unfold addPaymentMethod. case_decide; [done|]. simpl.
    rewrite (insert_private u); [by apply cleared_other|done|done|].
    intros r Hr.
    by rewrite (proj1 (not_elem_of_dom _ _) (is_fresh (dom _))) in Hr.
  - unfold setDefaultPaymentMethod.
    destruct (findOwned u id tbl) as [m0|] eqn:Hf; [|done].
    apply findOwned_Some in Hf as [Hid Hu]; [|done].
    destruct (cleared_forth u true tbl id m0 Hid) as (m1 & Hm1 & Hu1 & _).
    unfold makeDefault. simpl in Hm1. rewrite Hm1. simpl.
    rewrite (insert_private u);
      [by apply (cleared_other u true)|simpl; congruence|done|].
    intros r Hr. congruence.
  - unfold deletePaymentMethod.
    destruct (findOwned u id tbl) as [m0|] eqn:Hf; [|done].
    apply findOwned_Some in Hf as [Hid Hu]; [|done].
    rewrite Hid.
    destruct (PaymentMethod.isDefault m0);
      [|simpl; by apply (delete_private u _ _ m0)].
    pose proof (newest_remaining u (delete id tbl)) as Hrem.
    destruct (head _) as [remaining|];
      [|simpl; by apply (delete_private u _ _ m0)].
    destruct Hrem as [Hur [kr Hkr]].
    assert (PaymentMethod.id remaining = kr) as ->.
    { apply lookup_delete_Some in Hkr as [_ Hkr]. by eapply Hkey. }
    unfold makeDefault. rewrite Hkr. simpl.
    rewrite (insert_private u);
      [by apply (delete_private u _ _ m0)|done|done|].
    intros r Hr. congruence.
Qed.

(** X26: the saved payment methods of a user are changed only by that
    user's own requests: a sequence of add, set-default and delete requests
    made for other users leaves every one of the user's rows as it was and
    adds none. *)
Theorem wallet_is_private requests tbl userId k m :
  walletSound tbl →
  Forall (λ req, requester req ≠ userId) requests →
  PaymentMethod.userId m = userId →
  serveWalletAll requests tbl !! k = Some m ↔ tbl !! k = Some m.
Proof.
  intros Hsound Hreqs Hu. revert tbl Hsound.
  induction Hreqs as [|req rest Hreq _ IH]; intros tbl Hsound; [done|].
  simpl. rewrite IH by by apply serveWallet_sound.
  apply serveWallet_private; [done|congruence].
Qed.

Lemma sampleWallet_sound : walletSound sampleWallet.
Proof.
  unfold sampleWallet. split; [|split].
  - by intros k m [<- <-]%lookup_singleton_Some.
  - by intros k1 k2 m1 m2 [<- <-]%lookup_singleton_Some
                          [<- <-]%lookup_singleton_Some.
  - intros k m [<- <-]%lookup_singleton_Some.
    exists "0", otherCard. by rewrite lookup_singleton_eq.
Qed.

Lemma wallet_is_private_witness :
  serveWalletAll
    [AddMethod 4 "patient" (cardData (Some true));
     DeleteMethod "patient" "0";
     SetDefault "patient" "1";
     DeleteMethod "patient" "1"]
    sampleWallet !! "0" = Some otherCard ↔
  sampleWallet !! "0" = Some otherCard.
Proof.
  apply (wallet_is_private _ sampleWallet "other" "0" otherCard).
  - apply sampleWallet_sound.
  - repeat constructor; by intros [=].
  - reflexivity.
Defined.


Global Instance defaultThenNewest_total : Total defaultThenNewest.
Proof.
  intros m m'. unfold defaultThenNewest.
  destruct (PaymentMethod.isDefault m), (PaymentMethod.isDefault m');
    destruct (Z.le_ge_cases (PaymentMethod.createdAt m)
                            (PaymentMethod.createdAt m'));
    first [ by left; left | by right; left
          | left; right; split; [done|lia]
          | right; right; split; [done|lia] ].
Qed.

Global Instance defaultThenNewest_trans : Transitive defaultThenNewest.
Proof.
  intros m1 m2 m3. unfold defaultThenNewest.
  destruct (PaymentMethod.isDefault m1), (PaymentMethod.isDefault m2),
    (PaymentMethod.isDefault m3);
    intros [[? ?]|[? ?]] [[? ?]|[? ?]]; try discriminate;
    first [ by left | right; split; [done|lia] ].
Qed.

Global Instance newestMethodFirst_total : Total newestMethodFirst.
Proof. intros m m'. unfold newestMethodFirst. lia. Qed.

Global Instance newestMethodFirst_trans : Transitive newestMethodFirst.
Proof. intros m1 m2 m3. unfold newestMethodFirst. lia. Qed.

Lemma methodsOf_NoDup userId (tbl : gmap string PaymentMethod.t) :
  (∀ k m, tbl !! k = Some m → PaymentMethod.id m = k) →
  NoDup (methodsOf userId tbl).
Proof.
  intros Hkey. unfold methodsOf, findMany, rows. apply NoDup_filter.
  apply NoDup_fmap_2_strong; [|apply NoDup_map_to_list].
  intros [k1 m1] [k2 m2] H1%elem_of_map_to_list H2%elem_of_map_to_list Heq.
  simpl in Heq. subst m2.
  pose proof (Hkey _ _ H1). pose proof (Hkey _ _ H2). congruence.
Qed.

Lemma newest_among_the_rest (l : list PaymentMethod.t) :
  StronglySorted defaultThenNewest l →
  Forall (λ m, PaymentMethod.isDefault m = false) l →
  StronglySorted newestMethodFirst l.
Proof.
  induction 1 as [|m l Hl IH Hm]; intros Hall; constructor.
  - apply IH. by inversion Hall.
  - inversion Hall as [|? ? Hd Hrest]; subst.
    rewrite Forall_forall in Hm, Hrest. apply Forall_forall. intros m' Hin.
    destruct (Hm m' Hin) as [[? _]|[_ ?]]; [congruence|done].
Qed.

(** X27: the listing of a user's payment methods holds each of the user's
    methods once and no other; when it is not empty it starts with the
    user's default method, and the methods after it are not default and run
    from newest to oldest. *)
Theorem getPaymentMethods_default_first userId tbl :
  walletSound tbl →
  NoDup (getPaymentMethods userId tbl) ∧
  (∀ m, m ∈ getPaymentMethods userId tbl ↔
        PaymentMethod.userId m = userId ∧ ∃ k, tbl !! k = Some m) ∧
  (∀ m rest, getPaymentMethods userId tbl = m :: rest →
     PaymentMethod.isDefault m = true ∧
     Forall (λ m', PaymentMethod.isDefault m' = false) rest ∧
     StronglySorted newestMethodFirst rest).
Proof.
  intros (Hkey & Hone & Hsome).
  assert (Hperm : getPaymentMethods userId tbl ≡ₚ methodsOf userId tbl)
    by apply merge_sort_Permutation.
  assert (Hnodup : NoDup (getPaymentMethods userId tbl))
    by (rewrite Hperm; by apply methodsOf_NoDup).
  assert (Helem : ∀ m, m ∈ getPaymentMethods userId tbl ↔
            PaymentMethod.userId m = userId ∧ ∃ k, tbl !! k = Some m).
  { intros m. rewrite Hperm. unfold methodsOf.
    apply (findMany_elem (λ m, PaymentMethod.userId m = userId)). }
  assert (Hsorted : StronglySorted defaultThenNewest
                      (getPaymentMethods userId tbl))
    by apply (StronglySorted_merge_sort _).
  split; [done|]. split; [done|].
  intros m rest Hl. rewrite Hl in Hnodup, Helem, Hsorted.
  apply NoDup_cons in Hnodup as [Hfirst _].
  apply StronglySorted_inv in Hsorted as [Hrest Hm].
  rewrite Forall_forall in Hm.
  destruct (proj1 (Helem m) ltac:(left)) as [Hu [k Hk]].
  assert (Hd : PaymentMethod.isDefault m = true).
  { destruct (Hsome k m Hk) as (kd & d & Hkd & Hud & Hdd).
    assert (Hin : d ∈ m :: rest) by (apply Helem; split; [congruence|eauto]).
    apply elem_of_cons in Hin as [->|Hin]; [done|].
    destruct (Hm d Hin) as [[? _]|[? _]]; congruence. }
  assert (Hnone : Forall (λ m', PaymentMethod.isDefault m' = false) rest).
  { apply Forall_forall. intros m' Hin.
    destruct (PaymentMethod.isDefault m') eqn:Hd'; [|done].
    destruct (proj1 (Helem m') ltac:(by right)) as [Hu' [k' Hk']].
    assert (k = k') as <- by (apply (Hone k k' m m'); congruence).
    destruct Hfirst. congruence. }
  split; [done|]. split; [done|]. by apply newest_among_the_rest.
Qed.

Lemma getPaymentMethods_default_first_witness :
  NoDup (getPaymentMethods "patient" (serveWalletAll sampleWalletRequests ∅)) ∧
  (∀ m, m ∈ getPaymentMethods "patient"
              (serveWalletAll sampleWalletRequests ∅) ↔
        PaymentMethod.userId m = "patient" ∧
        ∃ k, serveWalletAll sampleWalletRequests ∅ !! k = Some m) ∧
  (∀ m rest,
     getPaymentMethods "patient" (serveWalletAll sampleWalletRequests ∅)
     = m :: rest →
     PaymentMethod.isDefault m = true ∧
     Forall (λ m', PaymentMethod.isDefault m' = false) rest ∧
     StronglySorted newestMethodFirst rest).
Proof.
  apply (getPaymentMethods_default_first "patient"
           (serveWalletAll sampleWalletRequests ∅)).
  apply serveWalletAll_sound, empty_walletSound.
Defined.


Lemma findOwned_owned userId id (tbl : gmap string PaymentMethod.t) m0 :
  walletSound tbl →
  tbl !! id = Some m0 →
  PaymentMethod.userId m0 = userId →
  findOwned userId id tbl = Some m0.
Proof.
  intros Hsound Hid Hu. pose proof Hsound as (Hkey & _ & _).
  destruct (findOwned userId id tbl) as [m|] eqn:Hf.
  - apply findOwned_Some in Hf as [Hid' _]; [congruence|done].
  - unfold findOwned in Hf. rewrite findFirst_None in Hf.
    destruct (Hf id m0 Hid). split; [by apply Hkey|done].
Qed.

Lemma findOwned_foreign userId id (tbl : gmap string PaymentMethod.t) :
  walletSound tbl →
  (∀ m0, tbl !! id = Some m0 → PaymentMethod.userId m0 ≠ userId) →
  findOwned userId id tbl = None.
Proof.
  intros Hsound Hnot. pose proof Hsound as (Hkey & _ & _).
  destruct (findOwned userId id tbl) as [m|] eqn:Hf; [|done].
  apply findOwned_Some in Hf as [Hid Hu]; [|done].
  by destruct (Hnot m Hid).
Qed.

(** X28: setting a method the user owns as default returns that method
    with the flag set, makes it the only default of the user and changes no
    other column and no row of another user; for an id that is missing or
    belongs to another user the request is rejected as not found and nothing
    is written. *)
Theorem setDefaultPaymentMethod_moves_the_default userId id tbl :
  walletSound tbl →
  (∀ m0, tbl !! id = Some m0 → PaymentMethod.userId m0 = userId →
     (setDefaultPaymentMethod userId id tbl).1
     = inr (PaymentMethod.withDefault true m0) ∧
     ∀ k, (setDefaultPaymentMethod userId id tbl).2 !! k
          = (λ m, if decide (PaymentMethod.userId m = userId)
                  then PaymentMethod.withDefault (bool_decide (k = id)) m
                  else m) <$> tbl !! k) ∧
  ((∀ m0, tbl !! id = Some m0 → PaymentMethod.userId m0 ≠ userId) →
   setDefaultPaymentMethod userId id tbl
   = (inl (NotFoundException "Payment method not found"), tbl)).
Proof.
  intros Hsound. split.
  - intros m0 Hid Hu. unfold setDefaultPaymentMethod.
    rewrite (findOwned_owned userId id tbl m0) by done.
    unfold makeDefault. rewrite lookup_updateManyDefault, Hid. simpl.
    rewrite decide_True by done. split; [done|].
    intros k. destruct (decide (k = id)) as [->|Hne].
    + rewrite lookup_insert_eq, Hid. simpl.
      by rewrite decide_True, bool_decide_eq_true_2 by done.
    + rewrite lookup_insert_ne by done. rewrite lookup_updateManyDefault.
      destruct (tbl !! k) as [m|]; [|done]. simpl.
      by rewrite (bool_decide_eq_false_2 _ Hne).
  - intros Hnot. unfold setDefaultPaymentMethod.
    by rewrite findOwned_foreign.
Qed.

Lemma setDefaultPaymentMethod_moves_the_default_witness :
  (∀ m0, serveWalletAll sampleWalletRequests ∅ !! "1" = Some m0 →
     PaymentMethod.userId m0 = "patient" →
     (setDefaultPaymentMethod "patient" "1"
        (serveWalletAll sampleWalletRequests ∅)).1
     = inr (PaymentMethod.withDefault true m0) ∧
     ∀ k, (setDefaultPaymentMethod "patient" "1"
             (serveWalletAll sampleWalletRequests ∅)).2 !! k
          = (λ m, if decide (PaymentMethod.userId m = "patient")
                  then PaymentMethod.withDefault (bool_decide (k = "1")) m
                  else m) <$> serveWalletAll sampleWalletRequests ∅ !! k) ∧
  ((∀ m0, serveWalletAll sampleWalletRequests ∅ !! "1" = Some m0 →
          PaymentMethod.userId m0 ≠ "patient") →
   setDefaultPaymentMethod "patient" "1" (serveWalletAll sampleWalletRequests ∅)
   = (inl (NotFoundException "Payment method not found"),
      serveWalletAll sampleWalletRequests ∅)).
Proof.
  apply (setDefaultPaymentMethod_moves_the_default "patient" "1"
           (serveWalletAll sampleWalletRequests ∅)).
  apply serveWalletAll_sound, empty_walletSound.
Defined.


Lemma withDefault_same m :
  PaymentMethod.withDefault (PaymentMethod.isDefault m) m = m.
Proof. by destruct m. Qed.

Lemma deletePaymentMethod_run userId id (tbl : gmap string PaymentMethod.t) m0 :
  walletSound tbl →
  tbl !! id = Some m0 →
  PaymentMethod.userId m0 = userId →
  deletePaymentMethod userId id tbl
  = (inr (),
     if PaymentMethod.isDefault m0 then
       match head (merge_sort newestMethodFirst
                     (methodsOf userId (delete id tbl))) with
       | Some remaining =>
           <[PaymentMethod.id remaining :=
               PaymentMethod.withDefault true remaining]> (delete id tbl)
       | None => delete id tbl
       end
     else delete id tbl).
Proof.
  intros Hsound Hid Hu. pose proof Hsound as (Hkey & _ & _).
  unfold deletePaymentMethod.
  rewrite (findOwned_owned userId id tbl m0), Hid by done.
  destruct (PaymentMethod.isDefault m0); [|done].
  pose proof (newest_remaining userId (delete id tbl)) as Hrem.
  destruct (head _) as [remaining|]; [|done].
  destruct Hrem as [_ [kr Hkr]].
  assert (PaymentMethod.id remaining = kr) as ->.
  { apply lookup_delete_Some in Hkr as [_ Hkr]. by eapply Hkey. }
  unfold makeDefault. by rewrite Hkr.
Qed.

(** X29: deleting a method the user owns succeeds and removes exactly that
    row; every other row keeps all its columns but the default flag, which
    changes only for the user's own rows and only when the deleted method
    was the default; in that case the default passes to a method of the
    user that is at least as new as every other remaining one. For an id
    that is missing or belongs to another user the request is rejected as
    not found and nothing is written. *)
Theorem deletePaymentMethod_promotes_newest userId id tbl :
  walletSound tbl →
  (∀ m0, tbl !! id = Some m0 → PaymentMethod.userId m0 = userId →
     (deletePaymentMethod userId id tbl).1 = inr () ∧
     (deletePaymentMethod userId id tbl).2 !! id = None ∧
     (∀ k, k ≠ id →
        ∃ flag : PaymentMethod.t → bool,
          (deletePaymentMethod userId id tbl).2 !! k
          = (λ m, PaymentMethod.withDefault (flag m) m) <$> tbl !! k ∧
          ∀ m, PaymentMethod.userId m ≠ userId ∨
               PaymentMethod.isDefault m0 = false →
               flag m = PaymentMethod.isDefault m) ∧
     (PaymentMethod.isDefault m0 = true →
      ∀ k m k' m',
        (deletePaymentMethod userId id tbl).2 !! k = Some m →
        PaymentMethod.userId m = userId →
        PaymentMethod.isDefault m = true →
        (deletePaymentMethod userId id tbl).2 !! k' = Some m' →
        PaymentMethod.userId m' = userId →
        PaymentMethod.createdAt m' ≤ PaymentMethod.createdAt m)) ∧
  ((∀ m0, tbl !! id = Some m0 → PaymentMethod.userId m0 ≠ userId) →
   deletePaymentMethod userId id tbl
   = (inl (NotFoundException "Payment method not found"), tbl)).
Proof.
  intros Hsound. pose proof Hsound as (Hkey & Hone & _). split.
  2:{ intros Hnot. unfold deletePaymentMethod. by rewrite findOwned_foreign. }
  intros m0 Hid Hu.
  pose proof (deletePaymentMethod_sound userId id tbl Hsound)
    as (_ & Hone' & _).
  revert Hone'. rewrite (deletePaymentMethod_run userId id tbl m0) by done.
  simpl. intros Hone'.
  assert (Hplain : ∀ k, k ≠ id →
     ∃ flag : PaymentMethod.t → bool,
       delete id tbl !! k
       = (λ m, PaymentMethod.withDefault (flag m) m) <$> tbl !! k ∧
       ∀ m, PaymentMethod.userId m ≠ userId ∨
            PaymentMethod.isDefault m0 = false →
            flag m = PaymentMethod.isDefault m).
  { intros k Hne. exists PaymentMethod.isDefault. split; [|done].
    rewrite lookup_delete_ne by done.
    destruct (tbl !! k) as [m|]; [|done]. simpl. by rewrite withDefault_same. }
  destruct (PaymentMethod.isDefault m0) eqn:Hd0.
  2:{ split; [done|]. split; [apply lookup_delete_eq|]. by split. }
  pose proof (newest_remaining userId (delete id tbl)) as Hrem.
  pose proof (StronglySorted_merge_sort newestMethodFirst
                (methodsOf userId (delete id tbl))) as Hsorted.
  pose proof (merge_sort_Permutation newestMethodFirst
                (methodsOf userId (delete id tbl))) as Hperm.
  destruct (merge_sort newestMethodFirst (methodsOf userId (delete id tbl)))
    as [|remaining rest]; simpl in *.
  { split; [done|]. split; [apply lookup_delete_eq|]. split; [done|].
    intros _ k m k' m' Hk Hu' _. by destruct (Hrem k m Hk). }
  destruct Hrem as [Hur [kr Hkr]].
  assert (PaymentMethod.id remaining = kr) as Hidr.
  { apply lookup_delete_Some in Hkr as [_ Hkr]. by eapply Hkey. }
  rewrite Hidr in *.
  destruct (proj1 (lookup_delete_Some _ _ _ _) Hkr) as [Hne0 Hkr'].
  assert (Hne : kr ≠ id) by congruence.
  split; [done|]. split; [|split].
  - rewrite lookup_insert_ne by done. apply lookup_delete_eq.
  - intros k Hk. destruct (decide (k = kr)) as [->|Hkne].
    + exists (λ m, if decide (PaymentMethod.userId m = userId)
                   then true else PaymentMethod.isDefault m).
      split.
      * rewrite lookup_insert_eq, Hkr'. simpl. by rewrite decide_True.
      * intros m [Hm|Hm]; [by rewrite decide_False|done].
    + destruct (Hplain k Hk) as (flag & Hflag & Hsame).
      exists flag. by rewrite lookup_insert_ne.
  - intros _ k m k' m' Hk Hum Hdm Hk' Hum'.
    assert (Hnew : <[kr := PaymentMethod.withDefault true remaining]>
                     (delete id tbl) !! kr
                   = Some (PaymentMethod.withDefault true remaining))
      by apply lookup_insert_eq.
    assert (k = kr) as ->
      by (apply (Hone' k kr _ _ Hk Hnew); [simpl; congruence|done|done]).
    rewrite Hnew in Hk. injection Hk as <-. simpl.
    apply lookup_insert_Some in Hk' as [[_ <-]|[Hne' Hk']]; [simpl; lia|].
    assert (Hin : m' ∈ remaining :: rest).
    { rewrite Hperm. unfold methodsOf.
      apply (findMany_elem (λ m, PaymentMethod.userId m = userId)). eauto. }
    apply StronglySorted_inv in Hsorted as [_ Hall].
    rewrite Forall_forall in Hall.
    apply elem_of_cons in Hin as [->|Hin]; [lia|]. by apply Hall.
Qed.

Lemma deletePaymentMethod_promotes_newest_witness :
  (∀ m0, serveWalletAll (take 5 sampleWalletRequests) ∅ !! "0" = Some m0 →
     PaymentMethod.userId m0 = "patient" →
     (deletePaymentMethod "patient" "0"
        (serveWalletAll (take 5 sampleWalletRequests) ∅)).1 = inr () ∧
     (deletePaymentMethod "patient" "0"
        (serveWalletAll (take 5 sampleWalletRequests) ∅)).2 !! "0" = None ∧
     (∀ k, k ≠ "0" →
        ∃ flag : PaymentMethod.t → bool,
          (deletePaymentMethod "patient" "0"
             (serveWalletAll (take 5 sampleWalletRequests) ∅)).2 !! k
          = (λ m, PaymentMethod.withDefault (flag m) m)
              <$> serveWalletAll (take 5 sampleWalletRequests) ∅ !! k ∧
          ∀ m, PaymentMethod.userId m ≠ "patient" ∨
               PaymentMethod.isDefault m0 = false →
               flag m = PaymentMethod.isDefault m) ∧
     (PaymentMethod.isDefault m0 = true →
      ∀ k m k' m',
        (deletePaymentMethod "patient" "0"
           (serveWalletAll (take 5 sampleWalletRequests) ∅)).2 !! k = Some m →
        PaymentMethod.userId m = "patient" →
        PaymentMethod.isDefault m = true →
        (deletePaymentMethod "patient" "0"
           (serveWalletAll (take 5 sampleWalletRequests) ∅)).2 !! k' = Some m' →
        PaymentMethod.userId m' = "patient" →
        PaymentMethod.createdAt m' ≤ PaymentMethod.createdAt m)) ∧
  ((∀ m0, serveWalletAll (take 5 sampleWalletRequests) ∅ !! "0" = Some m0 →
          PaymentMethod.userId m0 ≠ "patient") →
   deletePaymentMethod "patient" "0"
     (serveWalletAll (take 5 sampleWalletRequests) ∅)
   = (inl (NotFoundException "Payment method not found"),
      serveWalletAll (take 5 sampleWalletRequests) ∅)).
Proof.
  apply (deletePaymentMethod_promotes_newest "patient" "0"
           (serveWalletAll (take 5 sampleWalletRequests) ∅)).
  apply serveWalletAll_sound, empty_walletSound.
Defined.


(** X30: a user who already has five payment methods cannot add one, and
    the rejected request writes nothing. Below five the method is stored
    under a new id with the request's columns (stripePaymentMethodId, type,
    brand, last4, expiryMonth, expiryYear), the user has one method
    more, the new method is the default exactly when it is the user's first
    or was asked to be, and the older rows are kept but for the default of
    the same user, which is cleared when the new one was asked to be the
    default. *)
Theorem addPaymentMethod_up_to_five now userId data tbl :
  ((5 ≤ length (methodsOf userId tbl))%nat →
   addPaymentMethod now userId data tbl
   = (inl (BadRequestException "Maximum 5 payment methods allowed"), tbl)) ∧
  ((length (methodsOf userId tbl) < 5)%nat →
   ∃ row,
     (addPaymentMethod now userId data tbl).1 = inr row ∧
     tbl !! PaymentMethod.id row = None ∧
     (addPaymentMethod now userId data tbl).2 !! PaymentMethod.id row
     = Some row ∧
     PaymentMethod.userId row = userId ∧
     PaymentMethod.stripePaymentMethodId row
     = MethodData.stripePaymentMethodId data ∧
     PaymentMethod.type row = MethodData.type data ∧
     PaymentMethod.brand row = MethodData.brand data ∧
     PaymentMethod.last4 row = MethodData.last4 data ∧
     PaymentMethod.expiryMonth row = MethodData.expiryMonth data ∧
     PaymentMethod.expiryYear row = MethodData.expiryYear data ∧
     PaymentMethod.createdAt row = now ∧
     (PaymentMethod.isDefault row = true ↔
      length (methodsOf userId tbl) = 0%nat ∨
      MethodData.isDefault data = Some true) ∧
     length (methodsOf userId (addPaymentMethod now userId data tbl).2)
     = S (length (methodsOf userId tbl)) ∧
     ∀ k, k ≠ PaymentMethod.id row →
       (addPaymentMethod now userId data tbl).2 !! k
       = (λ m, if decide (PaymentMethod.userId m = userId ∧
                          MethodData.isDefault data = Some true)
               then PaymentMethod.withDefault false m else m) <$> tbl !! k).
Proof.
  unfold addPaymentMethod. split; intros Hlen.
  - by rewrite decide_True.
  - rewrite decide_False by lia. simpl.
    set (flag := default false (MethodData.isDefault data)).
    set (tbl1 := if flag then updateManyDefault userId false tbl else tbl).
    assert (Hfresh : tbl1 !! fresh (dom tbl1) = None)
      by apply not_elem_of_dom, is_fresh.
    assert (Hflag : flag = true ↔ MethodData.isDefault data = Some true).
    { unfold flag. destruct (MethodData.isDefault data) as [[]|]; simpl;
        split; congruence. }
    assert (Hold : ∀ k, tbl1 !! k
       = (λ m, if decide (PaymentMethod.userId m = userId ∧
                          MethodData.isDefault data = Some true)
               then PaymentMethod.withDefault false m else m) <$> tbl !! k).
    { intros k. unfold tbl1. destruct flag.
      - rewrite lookup_updateManyDefault.
        destruct (tbl !! k) as [m|]; [|done]. simpl. f_equal.
        destruct (decide (PaymentMethod.userId m = userId)).
        + rewrite decide_True; [done|]. split; [done|by apply Hflag].
        + rewrite decide_False; [done|]. by intros [? _].
      - destruct (tbl !! k) as [m|]; [|done]. simpl. f_equal.
        rewrite decide_False; [done|]. intros [_ Hd]. apply Hflag in Hd.
        discriminate. }
    eexists. split; [reflexivity|]. simpl.
    split.
    { specialize (Hold (fresh (dom tbl1))). rewrite Hfresh in Hold.
      by destruct (tbl !! fresh (dom tbl1)). }
    split; [apply lookup_insert_eq|].
    split; [done|]. split; [done|]. split; [done|]. split; [done|].
    split; [done|]. split; [done|]. split; [done|]. split; [done|].
    split.
    { rewrite orb_true_iff, bool_decide_eq_true. by rewrite Hflag. }
    split.
    { unfold methodsOf at 1.
      rewrite (Permutation_length (findMany_insert _ tbl1 _ _ Hfresh)).
      rewrite length_app. simpl. rewrite decide_True by done. simpl. f_equal.
      fold (methodsOf userId tbl1). unfold tbl1.
      destruct flag; [apply methodsOf_cleared_length|done]. }
    intros k Hk. by rewrite lookup_insert_ne.
Qed.

Lemma addPaymentMethod_up_to_five_witness :
  ∃ row,
    (addPaymentMethod 9 "patient" (cardData (Some true))
       (serveWalletAll sampleWalletRequests ∅)).1 = inr row ∧
    serveWalletAll sampleWalletRequests ∅ !! PaymentMethod.id row = None ∧
    (addPaymentMethod 9 "patient" (cardData (Some true))
       (serveWalletAll sampleWalletRequests ∅)).2 !! PaymentMethod.id row
    = Some row ∧
    PaymentMethod.userId row = "patient" ∧
    PaymentMethod.stripePaymentMethodId row
    = MethodData.stripePaymentMethodId (cardData (Some true)) ∧
    PaymentMethod.type row = MethodData.type (cardData (Some true)) ∧
    PaymentMethod.brand row = MethodData.brand (cardData (Some true)) ∧
    PaymentMethod.last4 row = MethodData.last4 (cardData (Some true)) ∧
    PaymentMethod.expiryMonth row
    = MethodData.expiryMonth (cardData (Some true)) ∧
    PaymentMethod.expiryYear row
    = MethodData.expiryYear (cardData (Some true)) ∧
    PaymentMethod.createdAt row = 9 ∧
    (PaymentMethod.isDefault row = true ↔
     length (methodsOf "patient" (serveWalletAll sampleWalletRequests ∅))
     = 0%nat ∨
     MethodData.isDefault (cardData (Some true)) = Some true) ∧
    length (methodsOf "patient"
              (addPaymentMethod 9 "patient" (cardData (Some true))
                 (serveWalletAll sampleWalletRequests ∅)).2)
    = S (length (methodsOf "patient" (serveWalletAll sampleWalletRequests ∅))) ∧
    ∀ k, k ≠ PaymentMethod.id row →
      (addPaymentMethod 9 "patient" (cardData (Some true))
         (serveWalletAll sampleWalletRequests ∅)).2 !! k
      = (λ m, if decide (PaymentMethod.userId m = "patient" ∧
                         MethodData.isDefault (cardData (Some true))
                         = Some true)
              then PaymentMethod.withDefault false m else m)
          <$> serveWalletAll sampleWalletRequests ∅ !! k.
Proof.
  apply (proj2 (addPaymentMethod_up_to_five 9 "patient" (cardData (Some true))
                  (serveWalletAll sampleWalletRequests ∅))).
  vm_compute. lia.
Defined.
